(** * Seattle frequent-transit network: frequency and coverage engine

    A shallow embedding of the two scripts that make up the engine

    - [isochrone-generation/extract-all-stops.js]: service selection
      ([getRelevantServiceIds]) and hourly frequency aggregation
      ([calculateStopFrequencies]);
    - [seattle-transit-access.tsx]: the frequent-stop filter
      ([processAllStopsData], [addFutureStops]), catchment resolution
      ([findIsochroneForStop]), walkshed merging and clipping
      ([calculateWalkshedCoverage]) and population apportionment
      ([loadCensusData]).

    Conventions of the embedding.
    - A JavaScript object used as a dictionary is a [gmap string _] of
      its own properties; where the script reads an object under a key
      that may name a member of [Object.prototype] (the trip ids looked
      up in [tripTimes]), the inherited members are read as well
      ([ownOrInherited]). Where the script later iterates over the
      object, it is an insertion-ordered association list.
    - A JavaScript [Set] of strings is a [gset string], a [Map] with string
      keys a [gmap string _].
    - Numbers that are counts or calendar fields are [Z]; [NaN] is [None].
      [parseInt] rounds to a double, as the runtime does. Areas and
      coordinates are rationals [Q], the values of the doubles that the
      geometry library returns. The percentages of
      [calculateWalkshedCoverage] are computed and printed in binary64
      arithmetic ([Number]); the estimate by circles of its last handler
      and the population sums of [loadCensusData] are evaluated exactly.
    - Strings are [string]; the order used by [sort], [<=] and [>=] on
      strings is [String.leb] (code-unit order, which on the ASCII
      range is the order of the script).
    - An operation of the geometry library that the script guards with
      [try]/[catch] has type [outcome _]: it returns or raises. *)

From Stdlib Require Import ZArith QArith Qabs Qround Lqa.
From Stdlib Require Import String Ascii List Sorted Lia.
From Stdlib Require Floats.SpecFloat.
From stdpp Require Import gmap strings list fin_maps pretty.

Open Scope string_scope.
Open Scope Z_scope.

(* ===================================================================== *)
(** * Part I: definitions                                                 *)
(* ===================================================================== *)

(** ** JavaScript runtime helpers *)

(** Truthiness of an optional string: [undefined] and [""] are falsy. *)
Definition str_truthy (x : option string) : bool :=
  match x with
  | Some "" | None => false
  | Some _ => true
  end.

(** [o[k] || 0] for an object whose values are numbers. *)
Definition num_or_zero (o : gmap string Z) (k : string) : Z :=
  default 0 (o !! k).

(** [h.toString()] for a loop counter. *)
Definition toString (h : nat) : string := pretty h.

(** ** FrequentStopClassifier: [processAllStopsData]
    (seattle-transit-access.tsx) *)

(** One record of [all_stops_{year}.json]. *)
Record AllStop := {
  as_id : string;
  as_name : string;
  as_lat : Q;
  as_lon : Q;
  hourly_trips : option (gmap string Z)
}.

(** One element of the frequent-stop list; [isFuture], [routeName] and
    [description] are only set by [addFutureStops]. *)
Record FrequentStop := {
  fs_id : string;
  fs_name : string;
  fs_lat : Q;
  fs_lon : Q;
  hourlyTrips : option (gmap string Z);
  isFuture : bool;
  routeName : option string;
  description : option string
}.

(** State of the filter's loop: [total] and [minTripsInAnyHour]
    ([None] is [Infinity]). *)
Definition min_opt (m : option Z) (t : Z) : option Z :=
  match m with
  | None => Some t
  | Some x => Some (Z.min x t)
  end.

(** The loop [for (let h = 6; h < 19; h++)] of the filter, with [n] hours
    left from hour [h]. [None] is the [return false] inside the loop. *)
Fixpoint frequentLoop (ht : gmap string Z) (n h : nat)
    (total : Z) (minTrips : option Z) : option (Z * option Z) :=
  match n with
  | O => Some (total, minTrips)
  | S n' =>
      let trips := num_or_zero ht (toString h) in
      let total := total + trips in
      let minTrips := min_opt minTrips trips in
      if trips <? 4 then None
      else frequentLoop ht n' (S h) total minTrips
  end.

(** The predicate passed to [allStops.filter]. *)
Definition isFrequentStop (stop : AllStop) : bool :=
  match hourly_trips stop with
  | None => false
  | Some ht =>
      match frequentLoop ht 13 6 0 None with
      | None => false
      | Some (total, _) => if total <? 77 then false else true
      end
  end.

Definition toFrequentStop (s : AllStop) : FrequentStop :=
  {| fs_id := as_id s; fs_name := as_name s; fs_lat := as_lat s;
     fs_lon := as_lon s; hourlyTrips := hourly_trips s;
     isFuture := false; routeName := None; description := None |}.

Definition frequentStopList (allStops : list AllStop) : list FrequentStop :=
  map toFrequentStop (List.filter isFrequentStop allStops).

(** ** Future stops: [addFutureStops] (seattle-transit-access.tsx) *)

(** One record of [future_stops_{year}.json]. [enabled] may be absent. *)
Record FutureStop := {
  fu_id : string;
  fu_name : string;
  fu_lat : Q;
  fu_lon : Q;
  enabled : option bool;
  fu_hourly_trips : option (gmap string Z);
  route_name : option string;
  fu_description : option string
}.

(** The loop of the future-stop filter; it keeps no total. *)
Fixpoint futureLoop (ht : gmap string Z) (n h : nat) : bool :=
  match n with
  | O => true
  | S n' =>
      let trips := num_or_zero ht (toString h) in
      if trips <? 4 then false else futureLoop ht n' (S h)
  end.

(** The predicate passed to [futureData.stops.filter]. *)
Definition isEnabledFutureStop (stop : FutureStop) : bool :=
  match enabled stop with
  | Some false => false
  | _ =>
      let ht := default ∅ (fu_hourly_trips stop) in
      futureLoop ht 13 6
  end.

Definition ofFutureStop (s : FutureStop) : FrequentStop :=
  {| fs_id := fu_id s; fs_name := fu_name s; fs_lat := fu_lat s;
     fs_lon := fu_lon s; hourlyTrips := fu_hourly_trips s;
     isFuture := true; routeName := route_name s;
     description := fu_description s |}.

Definition futureYears : list string := ["2027"].

(** [fetched] is the parsed future-stops file; [None] when the response
    is not ok or the fetch throws (both paths return [existingStops]). *)
Definition addFutureStops (existingStops : list FrequentStop) (year : string)
    (fetched : option (list FutureStop)) : list FrequentStop :=
  if bool_decide (year ∈ futureYears) then
    match fetched with
    | None => existingStops
    | Some stops =>
        existingStops ++ map ofFutureStop (List.filter isEnabledFutureStop stops)
    end
  else existingStops.

(** The stop list that [processAllStopsData] hands to the coverage
    computation. *)
Definition finalStopList (allStops : list AllStop) (selectedYear : string)
    (fetched : option (list FutureStop)) : list FrequentStop :=
  addFutureStops (frequentStopList allStops) selectedYear fetched.

(** ** More runtime helpers: [parseInt], property keys, ordered objects *)

(** [a || b] on optional strings. *)
Definition or_else (a b : option string) : option string :=
  if str_truthy a then a else b.

(** White space skipped by [parseInt] (ASCII range): TAB, LF, VT, FF, CR,
    space. *)
Definition is_space (c : ascii) : bool :=
  let n := nat_of_ascii c in
  ((9 <=? n)%nat && (n <=? 13)%nat) || (n =? 32)%nat.

Fixpoint skip_space (s : string) : string :=
  match s with
  | String c s' => if is_space c then skip_space s' else s
  | EmptyString => s
  end.

(** Value of a character as a digit, before the radix test. *)
Definition char_value (c : ascii) : option Z :=
  let n := Z.of_nat (nat_of_ascii c) in
  if (48 <=? n) && (n <=? 57) then Some (n - 48)
  else if (97 <=? n) && (n <=? 122) then Some (n - 87)
  else if (65 <=? n) && (n <=? 90) then Some (n - 55)
  else None.

Definition digit_value (radix : Z) (c : ascii) : option Z :=
  match char_value c with
  | Some d => if d <? radix then Some d else None
  | None => None
  end.

(** Longest prefix of digits of [s], accumulated in [acc]; [None] while
    no digit has been read. *)
Fixpoint parse_digits (radix : Z) (s : string) (acc : option Z) : option Z :=
  match s with
  | String c s' =>
      match digit_value radix c with
      | Some d => parse_digits radix s' (Some (radix * default 0 acc + d))
      | None => acc
      end
  | EmptyString => acc
  end.

(** The double nearest to an integer, ties to even, as an integer;
    [None] when it is an infinity (from [2^1024 - 2^970] on). The
    integers up to [2^53] are doubles. *)
Definition roundToDouble (z : Z) : option Z :=
  let a := Z.abs z in
  if a <=? 2 ^ 53 then Some z
  else
    let k := Z.log2 a - 52 in
    let q := a / 2 ^ k in
    let r := a mod 2 ^ k in
    let half := 2 ^ (k - 1) in
    let q' := if (half <? r) || ((r =? half) && Z.odd q) then q + 1 else q in
    let v := q' * 2 ^ k in
    if 2 ^ 1024 <=? v then None else Some (Z.sgn z * v).

(** [parseInt(s)] with no radix argument: the integer that the digits
    write, rounded to a double. [None] is a result that is not finite:
    [NaN], or an infinity, which every use below turns into [NaN]. *)
Definition parseInt (s : string) : option Z :=
  let s := skip_space s in
  let '(sign, s) :=
    match s with
    | String "-" r => (-1, r)
    | String "+" r => (1, r)
    | _ => (1, s)
    end in
  let '(radix, s) :=
    match s with
    | String "0" (String "x" r) | String "0" (String "X" r) => (16, r)
    | _ => (10, s)
    end in
  mathInt ← parse_digits radix s None;
  roundToDouble (sign * mathInt).

(** [x % n]: the remainder has the sign of the dividend; [NaN] stays. *)
Definition js_rem (x : option Z) (n : Z) : option Z := (λ z, Z.rem z n) <$> x.

(** The property key that a number is converted to in [o[n]]. *)
Definition numKey (n : option Z) : string :=
  match n with
  | Some z => pretty z
  | None => "NaN"
  end.

(** [s.split(c)[0]]. *)
Fixpoint split_head (c : ascii) (s : string) : string :=
  match s with
  | String a s' => if Ascii.eqb a c then "" else String a (split_head c s')
  | EmptyString => ""
  end.

(** An object whose keys are not array indices, in insertion order. *)
Fixpoint obj_get {V} (o : list (string * V)) (k : string) : option V :=
  match o with
  | [] => None
  | (k', v) :: o' => if String.eqb k' k then Some v else obj_get o' k
  end.

Fixpoint obj_set {V} (o : list (string * V)) (k : string) (v : V)
    : list (string * V) :=
  match o with
  | [] => [(k, v)]
  | (k', v') :: o' =>
      if String.eqb k' k then (k, v) :: o' else (k', v') :: obj_set o' k v
  end.

Definition obj_values {V} (o : list (string * V)) : list V := map snd o.

(** ** FrequencyAggregator: [calculateStopFrequencies]
    (extract-all-stops.js) *)

(** Rows of [trips.txt] and [stop_times.txt], parsed without dynamic
    typing: every present field is a string. *)
Record Trip := {
  trip_id : string;
  route_id : string;
  direction_id : string;
  service_id : string
}.

Record StopTime := {
  st_trip_id : string;
  st_stop_id : string;
  arrival_time : option string;
  departure_time : option string
}.

(** A value of [tripInfo]. *)
Record TripInfo := {
  ti_route_id : string;
  ti_direction_id : string;
  ti_service_id : string
}.

(** A value of [stopRouteDirectionHeadways]. [tripTimes] is the object
    that the script indexes both by hour and by trip id. *)
Record Group := {
  stop_id : string;
  g_route_id : string;
  g_direction_id : string;
  tripTimes : gmap string (gset string)
}.

Definition tripInfoOf (trips : list Trip) : gmap string TripInfo :=
  fold_left
    (λ info t,
       <[trip_id t := {| ti_route_id := route_id t;
                         ti_direction_id := direction_id t;
                         ti_service_id := service_id t |}]> info)
    trips ∅.

Definition activeTripsOf (trips : list Trip) (activeServiceIds : gset string)
    : gset string :=
  list_to_set
    (map trip_id
       (List.filter (λ t, bool_decide (service_id t ∈ activeServiceIds)) trips)).

Definition combinableRoutes : gmap string string :=
  list_to_map [("100173", "100219"); ("100219", "100173")].

(** [[a, b].sort()]. *)
Definition sort2 (a b : string) : string * string :=
  if String.leb a b then (a, b) else (b, a).

Definition routeKey (route : string) : string :=
  match combinableRoutes !! route with
  | Some otherRoute =>
      let first := fst (sort2 route otherRoute) in
      let second := snd (sort2 route otherRoute) in
      first ++ "|" ++ second
  | None => route
  end.

(** [parseInt(time.split(':')[0]) % 24], as the property key it is
    used as. *)
Definition hourOf (time : string) : option Z :=
  js_rem (parseInt (split_head ":" time)) 24.

Definition groupKey (stopId route direction : string) : string :=
  stopId ++ "|" ++ route ++ "|" ++ direction.

(** The names of the members of [Object.prototype], which a plain object
    inherits. Their values are functions, or the prototype itself: all
    truthy. *)
Definition objectPrototypeKeys : list string :=
  [ "constructor"; "__defineGetter__"; "__defineSetter__"; "hasOwnProperty";
    "__lookupGetter__"; "__lookupSetter__"; "isPrototypeOf";
    "propertyIsEnumerable"; "toString"; "valueOf"; "__proto__";
    "toLocaleString" ].

(** Truthiness of [o[k]] for a plain object [o] whose own values are
    objects: [k] is an own key, or the name of an inherited member. *)
Definition ownOrInherited {V} (o : gmap string V) (k : string) : bool :=
  bool_decide (is_Some (o !! k)) || bool_decide (k ∈ objectPrototypeKeys).

(** The body of the [forEach] over the retained stop times, as a step on
    [stopRouteDirectionHeadways]. The lookup of a trip in [tripInfo] is
    one of an own property: the stop times that reach it are those of
    the trips of [trips.txt]. *)
Definition countStopTime (tripInfo : gmap string TripInfo)
    (srdh : list (string * Group)) (stopTime : StopTime)
    : list (string * Group) :=
  let time := or_else (arrival_time stopTime) (departure_time stopTime) in
  match time with
  | None | Some "" => srdh
  | Some time =>
      let hour := numKey (hourOf time) in
      let stopId := st_stop_id stopTime in
      let tripId := st_trip_id stopTime in
      match tripInfo !! tripId with
      | None => srdh
      | Some trip =>
          let route := routeKey (ti_route_id trip) in
          let key := groupKey stopId route (ti_direction_id trip) in
          let g :=
            match obj_get srdh key with
            | Some g => g
            | None => {| stop_id := stopId; g_route_id := route;
                         g_direction_id := ti_direction_id trip;
                         tripTimes := ∅ |}
            end in
          let tt := tripTimes g in
          let tt' :=
            if ownOrInherited tt tripId then tt
            else
              let tt1 :=
                match tt !! hour with
                | Some _ => tt
                | None => <[hour := ∅]> tt
                end in
              <[hour := default ∅ (tt1 !! hour) ∪ {[tripId]}]> tt1 in
          obj_set srdh key
            {| stop_id := stop_id g; g_route_id := g_route_id g;
               g_direction_id := g_direction_id g; tripTimes := tt' |}
      end
  end.

(** [stopRouteDirectionHeadways] after the [forEach]. *)
Definition stopRouteDirectionHeadways (stopTimes : list StopTime)
    (trips : list Trip) (activeServiceIds : gset string)
    : list (string * Group) :=
  let tripInfo := tripInfoOf trips in
  let activeTrips := activeTripsOf trips activeServiceIds in
  fold_left (countStopTime tripInfo)
    (List.filter (λ st, bool_decide (st_trip_id st ∈ activeTrips)) stopTimes)
    [].

(** The values of the counters [h] of the loops [for (h = 0; h < 24; h++)]. *)
Definition hours : list nat := seq 0 24.

(** [tripTimes[h] ? tripTimes[h].size : 0]. *)
Definition tripCount (tt : gmap string (gset string)) (h : nat) : Z :=
  match tt !! toString h with
  | Some s => Z.of_nat (size s)
  | None => 0
  end.

(** The object [hourlyTrips] built for one group. *)
Definition hourlyTripsOf (tt : gmap string (gset string)) : gmap string Z :=
  fold_left (λ ht h, <[toString h := tripCount tt h]> ht) hours ∅.

(** The in-place update of [existingFreq]. *)
Definition maxInto (existingFreq hourlyTrips : gmap string Z) : gmap string Z :=
  fold_left
    (λ e h,
       <[toString h :=
           Z.max (num_or_zero e (toString h))
                 (num_or_zero hourlyTrips (toString h))]> e)
    hours existingFreq.

(** The body of the [forEach] over [Object.values(...)]. *)
Definition aggregateGroup (stopMax : gmap string (gmap string Z)) (g : Group)
    : gmap string (gmap string Z) :=
  let hourlyTrips := hourlyTripsOf (tripTimes g) in
  match stopMax !! stop_id g with
  | None => <[stop_id g := hourlyTrips]> stopMax
  | Some existingFreq => <[stop_id g := maxInto existingFreq hourlyTrips]> stopMax
  end.

Definition stopMaxFrequencies (srdh : list (string * Group))
    : gmap string (gmap string Z) :=
  fold_left aggregateGroup (obj_values srdh) ∅.

(** The copy to string keys, [hourlyTripsStr[h.toString()] = hourlyTrips[h]]. *)
Definition hourlyTripsStr (hourlyTrips : gmap string Z) : gmap string Z :=
  fold_left
    (λ r h,
       match hourlyTrips !! toString h with
       | Some v => <[toString h := v]> r
       | None => r
       end)
    hours ∅.

Definition calculateStopFrequencies (stopTimes : list StopTime)
    (trips : list Trip) (activeServiceIds : gset string)
    : gmap string (gmap string Z) :=
  if bool_decide (size activeServiceIds = 0%nat) then ∅
  else
    hourlyTripsStr <$>
      stopMaxFrequencies
        (stopRouteDirectionHeadways stopTimes trips activeServiceIds).

(** ** The [Date] object of the runtime

    A valid [Date] built from calendar fields is kept as its local day
    number (days since 1970-01-01); the time of day is always midnight
    here and plays no part. [None] is [Invalid Date]. The conversions
    between day numbers and (year, month, day) are the usual ones for
    the proleptic Gregorian calendar, month counted from 1. *)

Definition days_from_civil (y m d : Z) : Z :=
  let y := if m <=? 2 then y - 1 else y in
  let era := y / 400 in
  let yoe := y - era * 400 in
  let mp := if 2 <? m then m - 3 else m + 9 in
  let doy := (153 * mp + 2) / 5 + d - 1 in
  let doe := yoe * 365 + yoe / 4 - yoe / 100 + doy in
  era * 146097 + doe - 719468.

Definition civil_from_days (z : Z) : Z * Z * Z :=
  let z := z + 719468 in
  let era := z / 146097 in
  let doe := z - era * 146097 in
  let yoe := (doe - doe / 1460 + doe / 36524 - doe / 146096) / 365 in
  let y := yoe + era * 400 in
  let doy := doe - (365 * yoe + yoe / 4 - yoe / 100) in
  let mp := (5 * doy + 2) / 153 in
  let d := doy - (153 * mp + 2) / 5 + 1 in
  let m := if mp <? 10 then mp + 3 else mp - 9 in
  (if m <=? 2 then y + 1 else y, m, d).

Definition JsDate := option Z.

(** [MakeDay(year, month, date)] with [month] counted from 0: months out
    of range carry into the year, days out of range into the months. *)
Definition MakeDay (year month date : Z) : Z :=
  let ym := year + month / 12 in
  let mn := month mod 12 in
  days_from_civil ym (mn + 1) 1 + date - 1.

(** [new Date(year, month, day)]. A [NaN] field gives [Invalid Date];
    years 0 to 99 mean 1900 to 1999. (The fields come from substrings of
    at most four characters, far inside the range of representable
    dates.) *)
Definition newDate (year month day : option Z) : JsDate :=
  match year, month, day with
  | Some y, Some m, Some d =>
      let yr := if (0 <=? y) && (y <=? 99) then 1900 + y else y in
      Some (MakeDay yr m d)
  | _, _, _ => None
  end.

Definition getFullYear (dt : JsDate) : option Z :=
  (λ t, (civil_from_days t).1.1) <$> dt.

(** Month counted from 0. *)
Definition getMonth (dt : JsDate) : option Z :=
  (λ t, (civil_from_days t).1.2 - 1) <$> dt.

Definition getDate (dt : JsDate) : option Z :=
  (λ t, (civil_from_days t).2) <$> dt.

(** Day of the week, Sunday is 0; 1970-01-01 was a Thursday. *)
Definition getDay (dt : JsDate) : option Z :=
  (λ t, (t + 4) mod 7) <$> dt.

(** [dt.setDate(n)], returning the updated object. *)
Definition setDate (dt : JsDate) (n : option Z) : JsDate :=
  match dt, n with
  | Some t, Some n =>
      let '(y, m, _) := civil_from_days t in
      Some (MakeDay y (m - 1) n)
  | _, _ => None
  end.

(** [x + 1] and [x - 1] on a number that may be [NaN]. *)
Definition num_add (x : option Z) (k : Z) : option Z := (λ z, z + k) <$> x.

(** [s.padStart(n, '0')]. *)
Definition padStart (n : nat) (s : string) : string :=
  string_of_list_ascii (repeat "0"%char (n - String.length s)) ++ s.

(** ** ServiceCalendarSelector: [getRelevantServiceIds]
    (extract-all-stops.js) *)

(** A row of [calendar.txt]. *)
Record CalendarEntry := {
  c_service_id : string;
  monday : string;
  tuesday : string;
  wednesday : string;
  thursday : string;
  friday : string;
  saturday : string;
  sunday : string;
  start_date : option string;
  end_date : option string
}.

Definition isWeekdayEntry (c : CalendarEntry) : bool :=
  String.eqb (monday c) "1" && String.eqb (tuesday c) "1" &&
  String.eqb (wednesday c) "1" && String.eqb (thursday c) "1" &&
  String.eqb (friday c) "1".

(** [Array.prototype.sort] with no comparator on strings: ascending
    code-unit order. *)
Fixpoint sort_insert (x : string) (l : list string) : list string :=
  match l with
  | [] => [x]
  | y :: l' => if String.leb x y then x :: l else y :: sort_insert x l'
  end.

Definition js_sort (l : list string) : list string :=
  fold_right sort_insert [] l.

(** [weekdayServiceEntries.map(s => s.start_date).filter(d => d)]. *)
Definition startDatesOf (entries : list CalendarEntry) : list string :=
  omap (λ s, if str_truthy (start_date s) then start_date s else None) entries.

(** The [while (wednesdayDate.getDay() !== 3)] loop. [None]: the loop is
    still running after [fuel] iterations. *)
Fixpoint firstWednesday (fuel : nat) (wednesdayDate : JsDate) : option JsDate :=
  if bool_decide (getDay wednesdayDate = Some 3) then Some wednesdayDate
  else
    match fuel with
    | O => None
    | S fuel' =>
        firstWednesday fuel'
          (setDate wednesdayDate (num_add (getDate wednesdayDate) 1))
    end.

(** [wednesdayDateStr]. *)
Definition dateStr (dt : JsDate) : string :=
  numKey (getFullYear dt) ++
  padStart 2 (numKey (num_add (getMonth dt) 1)) ++
  padStart 2 (numKey (getDate dt)).

(** The predicate of the last [filter]. *)
Definition activeOn (wednesdayDateStr : string) (s : CalendarEntry) : bool :=
  let start := default "0" (or_else (start_date s) (Some "0")) in
  let end_ := default "99999999" (or_else (end_date s) (Some "99999999")) in
  String.leb start wednesdayDateStr && String.leb wednesdayDateStr end_.

(** [None]: the script has not returned after [fuel] iterations of its
    loop. *)
Definition getRelevantServiceIds (fuel : nat) (calendar : list CalendarEntry)
    : option (gset string) :=
  let weekdayServiceEntries := List.filter isWeekdayEntry calendar in
  if (length weekdayServiceEntries =? 0)%nat then Some ∅
  else
    let allStartDates := js_sort (startDatesOf weekdayServiceEntries) in
    match last allStartDates with
    | None => Some ∅
    | Some latestStartDate =>
        let year := parseInt (substring 0 4 latestStartDate) in
        let month := num_add (parseInt (substring 4 2 latestStartDate)) (-1) in
        let day := parseInt (substring 6 2 latestStartDate) in
        let startDate := newDate year month day in
        match firstWednesday fuel startDate with
        | None => None
        | Some wednesdayDate =>
            let wednesdayDateStr := dateStr wednesdayDate in
            let activeServiceIds :=
              map c_service_id
                (List.filter (activeOn wednesdayDateStr) weekdayServiceEntries) in
            Some (list_to_set activeServiceIds)
        end
    end.

(** ** Exceptions and the geometry capability *)

(** The result of a call that may throw. *)
Inductive outcome (A : Type) : Type :=
  | Returned (a : A)
  | Raised.
Arguments Returned {A} a.
Arguments Raised {A}.

(** Sequencing: a throw skips the rest. *)
#[global] Instance outcome_bind : MBind outcome := λ A B k o,
  match o with
  | Returned a => k a
  | Raised => Raised
  end.

(** Options of [turf.circle]. *)
Record CircleOptions := { steps : nat; units : string }.

(** Options of [turf.simplify]. *)
Record SimplifyOptions := { tolerance : Q; highQuality : bool }.

(** The part of [window.turf] that the engine calls. A geometry argument
    or result may be [null] ([None]). The operations that the script
    wraps in [try]/[catch] may raise; [circle] is a constructor. An
    area is a finite number, given by its value. *)
Class Turf (Polygon : Type) := {
  circle : Q * Q → Q → CircleOptions → Polygon;
  union : option Polygon → option Polygon → outcome (option Polygon);
  intersect : option Polygon → option Polygon → outcome (option Polygon);
  difference : option Polygon → option Polygon → outcome (option Polygon);
  simplify : option Polygon → SimplifyOptions → outcome (option Polygon);
  area : option Polygon → outcome Q;
  booleanIntersects : option Polygon → option Polygon → outcome bool;
  booleanWithin : option Polygon → option Polygon → outcome bool
}.

(** [x.toFixed(1)] for a finite number below 10^21: a minus sign for a
    negative number, then the nearest multiple of one tenth of its
    absolute value, the larger one on a tie, with one decimal. *)
Definition toFixed1 (x : Q) : string :=
  let a := Qabs x in
  let n := Qfloor (a * 10 + (1 # 2)) in
  (if Qlt_le_dec x 0 then "-" else "") ++
  pretty (n / 10) ++ "." ++ pretty (n mod 10).

(** ** Numbers

    A number of the runtime is an IEEE 754 double, given here by the
    binary64 instance of the specification of floating point of the
    standard library ([prec = 53], [emax = 1024]); every operation rounds
    to nearest, ties to even. *)

Definition Number : Type := SpecFloat.spec_float.

(** The double nearest to a rational: the rational itself when it is a
    double. *)
Definition Number_ofQ (q : Q) : Number :=
  match Qnum q with
  | Z0 => SpecFloat.S754_zero false
  | Zpos n =>
      SpecFloat.SFdiv 53 1024 (SpecFloat.S754_finite false n 0) (SpecFloat.S754_finite false (Qden q) 0)
  | Zneg n =>
      SpecFloat.SFdiv 53 1024 (SpecFloat.S754_finite true n 0) (SpecFloat.S754_finite false (Qden q) 0)
  end.

(** [x / y] and [x * y]. *)
Definition Number_div (x y : Number) : Number := SpecFloat.SFdiv 53 1024 x y.
Definition Number_mul (x y : Number) : Number := SpecFloat.SFmul 53 1024 x y.

(** The value of a finite number. *)
Definition Number_value (x : Number) : option Q :=
  match x with
  | SpecFloat.S754_zero _ => Some 0%Q
  | SpecFloat.S754_finite s m e =>
      let a := if 0 <=? e then inject_Z (Zpos m * 2 ^ e)
               else Qmake (Zpos m) (Z.to_pos (2 ^ (- e))) in
      Some (if s then Qopp a else a)
  | SpecFloat.S754_infinity _ | SpecFloat.S754_nan => None
  end.

(** Does the integer [v] round to the double of value [x]? *)
Definition readsAs (x v : Z) : bool :=
  match roundToDouble v with
  | Some y => y =? x
  | None => false
  end.

(** The digits [s] of [Number::toString] for a double of integer value
    [x] with [n] decimal digits: the least number [k] of digits such
    that [s * 10^(n-k)] rounds to [x], and among two such [s] the one
    nearest to [x], the even one on a tie. *)
Fixpoint shortestDigits (fuel : nat) (k n x : Z) : Z :=
  let p := 10 ^ (n - k) in
  let s0 := x / p in
  let s1 := s0 + 1 in
  match fuel with
  | O => s0
  | S fuel' =>
      let ok0 := readsAs x (s0 * p) in
      let ok1 := (s1 <? 10 ^ k) && readsAs x (s1 * p) in
      if ok0 && ok1 then
        let d0 := x - s0 * p in
        let d1 := s1 * p - x in
        if d0 <? d1 then s0
        else if d1 <? d0 then s1
        else if Z.even s0 then s0 else s1
      else if ok0 then s0
      else if ok1 then s1
      else shortestDigits fuel' (k + 1) n x
  end.

(** [Number::toString] for a double of integer value [x], at least
    10^21: exponent notation. *)
Definition exponentString (x : Z) : string :=
  let n := Z.of_nat (String.length (pretty x)) in
  if readsAs x (10 ^ n) then "1e+" ++ pretty n
  else
    match pretty (shortestDigits 17 1 n x) with
    | String d "" => String d "" ++ "e+" ++ pretty (n - 1)
    | String d rest => String d "" ++ "." ++ rest ++ "e+" ++ pretty (n - 1)
    | "" => ""
    end.

(** [x.toFixed(1)] for a number: the names of the values that are not
    finite, exponent notation from 10^21 on, and below that the digits
    of [toFixed1] for the exact value of [x]. *)
Definition Number_toFixed1 (x : Number) : string :=
  match x with
  | SpecFloat.S754_nan => "NaN"
  | SpecFloat.S754_infinity s => (if s then "-" else "") ++ "Infinity"
  | SpecFloat.S754_zero _ | SpecFloat.S754_finite _ _ _ =>
      let v := default 0%Q (Number_value x) in
      if Qle_bool (inject_Z (10 ^ 21)) (Qabs v)
      then (if Qlt_le_dec v 0 then "-" else "") ++
           exponentString (Qfloor (Qabs v))
      else toFixed1 v
  end.

(** [(part / whole * 100)]. *)
Definition percentage (part whole : Q) : Number :=
  Number_mul (Number_div (Number_ofQ part) (Number_ofQ whole))
    (Number_ofQ 100).

Definition HALF_MILE_METERS : Q := 804672 # 1000.

(** [Math.PI], the double nearest to the constant. *)
Definition Math_PI : Q := 884279719003555 # 281474976710656.

(** The hard-coded reference area of the city in square metres. *)
Definition seattleAreaSqMeters : Q := 217000000 # 1.

(** An entry of the [isochrones] map. *)
Record IsoData (Polygon : Type) := {
  isochrone_10min : option Polygon;
  isochrone_5min : option Polygon
}.
Arguments isochrone_10min {Polygon} _.
Arguments isochrone_5min {Polygon} _.

(** The boundary file: a feature collection. *)
Record Boundary (Polygon : Type) := { features : list Polygon }.
Arguments features {Polygon} _.

(** What [calculateWalkshedCoverage] returns. *)
Record Coverage (Polygon : Type) := {
  mergedPolygon : option Polygon;
  mergedPolygonOutOfBounds : option Polygon;
  coveragePercent : string
}.
Arguments mergedPolygon {Polygon} _.
Arguments mergedPolygonOutOfBounds {Polygon} _.
Arguments coveragePercent {Polygon} _.

(** A census block feature with the two properties that are read. *)
Record Block (Polygon : Type) := {
  b_feature : Polygon;
  TOT_POP : option Z;
  Place : option string
}.
Arguments b_feature {Polygon} _.
Arguments TOT_POP {Polygon} _.
Arguments Place {Polygon} _.

Section Engine.
Context {Polygon : Type} `{!Turf Polygon}.

(** *** CatchmentResolver: [findIsochroneForStop] *)

(** A value spliced into a template literal. *)
Definition tmpl (x : option string) : string := default "undefined" x.

(** The [for (const key of possibleKeys)] loop; the raw stop id may be
    [undefined], which is no key of the map. *)
Fixpoint firstIsochrone (isochrones : gmap string (IsoData Polygon))
    (possibleKeys : list (option string)) : option Polygon :=
  match possibleKeys with
  | [] => None
  | key :: rest =>
      match key ≫= (isochrones !!.) with
      | Some isoData =>
          match isochrone_10min isoData with
          | Some p => Some p
          | None => firstIsochrone isochrones rest
          end
      | None => firstIsochrone isochrones rest
      end
  end.

(** [stop.id || stop.stop_id]; the stops of the frequent-stop list carry
    no [stop_id]. *)
Definition stopIdOf (stop : FrequentStop) : option string :=
  or_else (Some (fs_id stop)) None.

Definition isochroneYearOf (stop : FrequentStop) (year : string) : string :=
  if String.eqb year "2027" && negb (isFuture stop) then "2025" else year.

Definition possibleKeys (stop : FrequentStop) (year : string)
    : list (option string) :=
  let stopId := stopIdOf stop in
  let isochroneYear := isochroneYearOf stop year in
  [ Some (isochroneYear ++ "_soundtransit_" ++ tmpl stopId);
    Some (isochroneYear ++ "_metro_" ++ tmpl stopId);
    stopId ].

Definition findIsochroneForStop (isochrones : gmap string (IsoData Polygon))
    (stop : FrequentStop) (year : string) : option Polygon :=
  firstIsochrone isochrones (possibleKeys stop year).

(** The function mapped over [stopList]. *)
Definition walkshedOf (isochrones : gmap string (IsoData Polygon))
    (selectedYear : string) (stop : FrequentStop) : Polygon :=
  match findIsochroneForStop isochrones stop selectedYear with
  | Some isochronePolygon => isochronePolygon
  | None =>
      circle (fs_lon stop, fs_lat stop) (HALF_MILE_METERS / 1000)
        {| steps := 32; units := "kilometers" |}
  end.

(** *** CoverageMerger: [calculateWalkshedCoverage] *)

(** The loop [for (let i = 1; i < walksheds.length; i++)], with [n]
    walksheds left from index [i], and its [try]/[catch] around the
    union: a raising call leaves [union] as it was. *)
Fixpoint unionLoop (walksheds : list Polygon) (n i : nat)
    (union_ : option Polygon) : option Polygon :=
  match n with
  | O => union_
  | S n' =>
      let union_ :=
        match union union_ (walksheds !! i) with
        | Returned u => u
        | Raised => union_
        end in
      unionLoop walksheds n' (S i) union_
  end.

Definition mergeWalksheds (walksheds : list Polygon) : option Polygon :=
  unionLoop walksheds (length walksheds - 1) 1 (walksheds !! 0%nat).

(** The three [let] variables of the function, and computations that
    read and write them and may throw; a throw keeps the assignments
    made so far. *)
Definition Vars : Type := Coverage Polygon.
Definition M (A : Type) : Type := Vars → outcome A * Vars.

Definition ret {A} (a : A) : M A := λ s, (Returned a, s).
Definition bind {A B} (m : M A) (k : A → M B) : M B :=
  λ s, match m s with
       | (Returned a, s') => k a s'
       | (Raised, s') => (Raised, s')
       end.
Definition call {A} (o : outcome A) : M A := λ s, (o, s).
Definition try_catch {A} (m : M A) (handler : M A) : M A :=
  λ s, match m s with
       | (Returned a, s') => (Returned a, s')
       | (Raised, s') => handler s'
       end.
Definition set_mergedPolygon (p : option Polygon) : M unit :=
  λ s, (Returned (),
        {| mergedPolygon := p;
           mergedPolygonOutOfBounds := mergedPolygonOutOfBounds s;
           coveragePercent := coveragePercent s |}).
Definition set_mergedPolygonOutOfBounds (p : option Polygon) : M unit :=
  λ s, (Returned (),
        {| mergedPolygon := mergedPolygon s;
           mergedPolygonOutOfBounds := p;
           coveragePercent := coveragePercent s |}).
Definition set_coveragePercent (c : string) : M unit :=
  λ s, (Returned (),
        {| mergedPolygon := mergedPolygon s;
           mergedPolygonOutOfBounds := mergedPolygonOutOfBounds s;
           coveragePercent := c |}).

#[global] Instance M_bind : MBind M := λ A B k m, bind m k.

(** The unclipped measurement, used without a boundary and in the
    [catch] of the clipping step. *)
Definition useFullWalkshed (union_ : option Polygon) : M unit :=
  set_mergedPolygon union_ ;;
  areaSqMeters ← call (area union_);
  set_coveragePercent
    (Number_toFixed1 (percentage areaSqMeters seattleAreaSqMeters)).

(** The body of [if (boundary) { ... }]. *)
Definition clipToBoundary (union_ : option Polygon) (boundary : Boundary Polygon)
    : M unit :=
  seattleBoundaryAreaSqMeters ← call (area (head (features boundary)));
  try_catch
    (simplifiedBoundary ←
       call (simplify (head (features boundary))
               {| tolerance := 1 # 1000; highQuality := false |});
     clipped ←
       try_catch (call (intersect union_ simplifiedBoundary)) (ret None);
     try_catch
       (diff ← call (difference union_ simplifiedBoundary);
        set_mergedPolygonOutOfBounds diff)
       (ret ()) ;;
     match clipped with
     | Some _ =>
         set_mergedPolygon clipped ;;
         clippedAreaSqMeters ← call (area clipped);
         set_coveragePercent
           (Number_toFixed1
              (percentage clippedAreaSqMeters seattleBoundaryAreaSqMeters))
     | None =>
         set_mergedPolygon None ;;
         set_mergedPolygonOutOfBounds union_ ;;
         set_coveragePercent "0"
     end)
    (useFullWalkshed union_).

Definition initialVars : Vars :=
  {| mergedPolygon := None; mergedPolygonOutOfBounds := None;
     coveragePercent := "0" |}.

(** The [catch] of the outer [try]. The estimate is evaluated exactly,
    with [Math_PI] for [Math.PI], and printed with one decimal. *)
Definition simpleFallback (stopList : list FrequentStop) : Coverage Polygon :=
  let totalWalkshedArea :=
    (inject_Z (Z.of_nat (length stopList)) * Math_PI *
     (HALF_MILE_METERS * HALF_MILE_METERS))%Q in
  {| mergedPolygon := None; mergedPolygonOutOfBounds := None;
     coveragePercent :=
       toFixed1 (totalWalkshedArea / seattleAreaSqMeters * 100) ++ "+" |}.

(** [turfLoaded] stands for the two tests [turfLoaded] and [window.turf]
    of the guard; [isochrones] and [selectedYear] are the component state
    that the function reads. *)
Definition calculateWalkshedCoverage (turfLoaded : bool)
    (isochrones : gmap string (IsoData Polygon)) (selectedYear : string)
    (stopList : list FrequentStop) (boundary : option (Boundary Polygon))
    : Coverage Polygon :=
  if negb turfLoaded || (length stopList =? 0)%nat then initialVars
  else
    let walksheds := map (walkshedOf isochrones selectedYear) stopList in
    let union_ := mergeWalksheds walksheds in
    let body :=
      match boundary with
      | Some b => clipToBoundary union_ b
      | None => useFullWalkshed union_
      end in
    match body initialVars with
    | (Returned _, vars) => vars
    | (Raised, _) => simpleFallback stopList
    end.

(** *** PopulationApportioner: the [forEach] of [loadCensusData] *)

(** [parseInt(block.properties.TOT_POP || '0')] for a property that is
    an integer or absent: the integer itself, 0 when absent. *)
Definition populationOf (block : Block Polygon) : Z :=
  default 0 (TOT_POP block).


(** The body of the [try] for one block: the new values of
    [populationInWalkshed] and [blocksInWalkshed]. *)
Definition apportion (walkshedPolygon : option Polygon)
    (block : Block Polygon) (population : Z) (acc : Q * nat)
    : outcome (Q * nat) :=
  let '(populationInWalkshed, blocksInWalkshed) := acc in
  intersects ← booleanIntersects (Some (b_feature block)) walkshedPolygon;
  if intersects : bool then
    within ← booleanWithin (Some (b_feature block)) walkshedPolygon;
    if within : bool then
      Returned ((populationInWalkshed + inject_Z population)%Q,
                S blocksInWalkshed)
    else
      blockArea ← area (Some (b_feature block));
      intersection ← intersect (Some (b_feature block)) walkshedPolygon;
      match intersection with
      | Some _ =>
          intersectionArea ← area intersection;
          let ratio := (intersectionArea / blockArea)%Q in
          Returned ((populationInWalkshed + inject_Z population * ratio)%Q,
                    S blocksInWalkshed)
      | None =>
          Returned ((populationInWalkshed + inject_Z population)%Q,
                    S blocksInWalkshed)
      end
  else Returned acc.

(** The callback of [forEach]. *)
Definition countBlock (walkshedPolygon : option Polygon)
    (acc : Q * nat) (block : Block Polygon) : Q * nat :=
  let population := populationOf block in
  if negb (bool_decide (Place block = Some "Seattle")) || (population <? 1)
  then acc
  else
    match apportion walkshedPolygon block population acc with
    | Returned acc' => acc'
    | Raised => acc
    end.

(** [(populationInWalkshed, blocksInWalkshed)] after the [forEach]. *)
Definition populationInWalkshed (walkshedPolygon : option Polygon)
    (blocks : list (Block Polygon)) : Q * nat :=
  fold_left (countBlock walkshedPolygon) blocks (0%Q, 0%nat).

End Engine.

(** ** Stop extraction: [extractStopsFromZip], [loadFutureStops],
    [mergeStops] (extract-all-stops.js) *)

(** A row of [stops.txt]. *)
Record StopRow := {
  r_stop_id : string;
  stop_name : string;
  stop_lat : string;
  stop_lon : string;
  stop_code : option string
}.

(** One record of the array that the script writes to
    [all_stops_{dataset}.json]. A coordinate is [None] when it is [NaN];
    [es_hourly_trips] and [es_route_name] are absent on the paths that do
    not set them. *)
Record ExtractedStop := {
  es_id : string;
  es_original_id : string;
  es_feed : string;
  es_dataset : string;
  es_name : string;
  es_lat : option Q;
  es_lon : option Q;
  es_code : option string;
  es_hourly_trips : option (gmap string Z);
  es_route_name : option string
}.

(** The four tables read from a GTFS archive; [None] when the archive
    has no such file. *)
Record GtfsZip := {
  stops_txt : option (list StopRow);
  stop_times_txt : option (list StopTime);
  trips_txt : option (list Trip);
  calendar_txt : option (list CalendarEntry)
}.

(** The template [`${dataset}_${feedName}_${s.stop_id}`]. *)
Definition compositeId (dataset feedName stopId : string) : string :=
  dataset ++ "_" ++ feedName ++ "_" ++ stopId.

(** [!isNaN(s.lat) && !isNaN(s.lon)]. *)
Definition hasCoordinates (s : ExtractedStop) : bool :=
  bool_decide (is_Some (es_lat s)) && bool_decide (is_Some (es_lon s)).

Section Extraction.
(** [parseFloat] of the runtime: the number a string starts with, [None]
    for [NaN]. *)
Variable parseFloat : string → option Q.

(** The callback of [parsedStops.data.map]. [stopFrequencies] is [None]
    on the path that returns basic stop data, where the record has no
    [hourly_trips]; otherwise the profile is
    [stopFrequencies.get(s.stop_id) || {}]. *)
Definition toExtractedStop (dataset feedName : string)
    (stopFrequencies : option (gmap string (gmap string Z))) (s : StopRow)
    : ExtractedStop :=
  {| es_id := compositeId dataset feedName (r_stop_id s);
     es_original_id := r_stop_id s;
     es_feed := feedName;
     es_dataset := dataset;
     es_name := stop_name s;
     es_lat := parseFloat (stop_lat s);
     es_lon := parseFloat (stop_lon s);
     es_code := if str_truthy (stop_code s) then stop_code s else None;
     es_hourly_trips :=
       (λ freq, default ∅ (freq !! r_stop_id s)) <$> stopFrequencies;
     es_route_name := None |}.

(** [None]: the selection of the service ids has not returned within
    [fuel] steps of its loop. *)
Definition extractStopsFromZip (fuel : nat) (zip : GtfsZip)
    (feedName dataset : string) : option (list ExtractedStop) :=
  match stops_txt zip with
  | None => Some []
  | Some parsedStops =>
      match stop_times_txt zip, trips_txt zip, calendar_txt zip with
      | Some parsedStopTimes, Some parsedTrips, Some parsedCalendar =>
          match getRelevantServiceIds fuel parsedCalendar with
          | None => None
          | Some activeServiceIds =>
              let stopFrequencies :=
                calculateStopFrequencies parsedStopTimes parsedTrips
                  activeServiceIds in
              Some (List.filter hasCoordinates
                      (map (toExtractedStop dataset feedName
                              (Some stopFrequencies)) parsedStops))
          end
      | _, _, _ =>
          Some (List.filter hasCoordinates
                  (map (toExtractedStop dataset feedName None) parsedStops))
      end
  end.
End Extraction.

(** The record that [loadFutureStops] makes of a future stop. *)
Definition futureExtractedStop (dataset : string) (stop : FutureStop)
    : ExtractedStop :=
  {| es_id := fu_id stop; es_original_id := fu_id stop; es_feed := "future";
     es_dataset := dataset; es_name := fu_name stop;
     es_lat := Some (fu_lat stop); es_lon := Some (fu_lon stop);
     es_code := None; es_hourly_trips := None;
     es_route_name := route_name stop |}.

(** [loadFutureStops(dataset)]; [file] is the parsed future-stops file,
    [None] when it does not exist. Its filter is the one of
    [addFutureStops], statement for statement. *)
Definition loadFutureStops (dataset : string) (file : option (list FutureStop))
    : list ExtractedStop :=
  if bool_decide (dataset ∈ futureYears) then
    match file with
    | None => []
    | Some stops =>
        map (futureExtractedStop dataset)
          (List.filter isEnabledFutureStop stops)
    end
  else [].

(** [mergeStops]: the arrays one after the other. *)
Definition mergeStops (stopArrays : list (list ExtractedStop))
    : list ExtractedStop :=
  fold_left (λ allStops stops, (allStops ++ stops)%list) stopArrays [].

(** What the site reads of a record of [all_stops_{year}.json]. The
    records written have numeric coordinates. *)
Definition readAllStop (s : ExtractedStop) : AllStop :=
  {| as_id := es_id s; as_name := es_name s;
     as_lat := default 0%Q (es_lat s); as_lon := default 0%Q (es_lon s);
     hourly_trips := es_hourly_trips s |}.

(** ** Isochrone generation: [generateIsochrones], [generateAllIsochrones]
    (generate-isochrones.js) *)

(** A feature of the routing service's answer: a contour in minutes and
    its polygon. *)
Record Contour (Polygon : Type) := {
  contour : Z;
  contour_feature : Polygon
}.
Arguments contour {Polygon} _.
Arguments contour_feature {Polygon} _.

(** One element of the array [isochrones] of [isochrones_{year}.json]. *)
Record IsoEntry (Polygon : Type) := {
  iso_stop_id : string;
  iso_original_id : string;
  iso_feed : string;
  iso_dataset : string;
  iso_stop_name : string;
  iso_coordinates : option Q * option Q;
  iso_5min : option Polygon;
  iso_10min : option Polygon
}.
Arguments iso_stop_id {Polygon} _.
Arguments iso_original_id {Polygon} _.
Arguments iso_feed {Polygon} _.
Arguments iso_dataset {Polygon} _.
Arguments iso_stop_name {Polygon} _.
Arguments iso_coordinates {Polygon} _.
Arguments iso_5min {Polygon} _.
Arguments iso_10min {Polygon} _.

Section Isochrones.
Context {Polygon : Type}.

(** [data.features.find(f => f.properties.contour === minutes)]. *)
Definition findContour (minutes : Z) (features : list (Contour Polygon))
    : option Polygon :=
  contour_feature <$>
    List.find (λ f, contour f =? minutes) features.

(** [generateIsochrones(stop)], given the answer of the routing service
    for the stop: [None] when the request fails, the response is not ok
    or cannot be read (every such error is caught and gives [null]). *)
Definition generateIsochrones (answer : option (list (Contour Polygon)))
    (stop : ExtractedStop) : option (IsoEntry Polygon) :=
  match answer with
  | None => None
  | Some features =>
      Some {| iso_stop_id := es_id stop;
              iso_original_id := es_original_id stop;
              iso_feed := es_feed stop;
              iso_dataset := es_dataset stop;
              iso_stop_name := es_name stop;
              iso_coordinates := (es_lon stop, es_lat stop);
              iso_5min := findContour 5 features;
              iso_10min := findContour 10 features |}
  end.

(** The loop [for (let i = 0; i < stopsToProcess.length; i++)], with [n]
    stops left from index [i]. [service i stop] is the answer to the
    [i]-th request. *)
Fixpoint isochroneLoop
    (service : nat → ExtractedStop → option (list (Contour Polygon)))
    (stopsToProcess : list ExtractedStop) (n i : nat)
    (isochrones : list (IsoEntry Polygon)) : list (IsoEntry Polygon) :=
  match n with
  | O => isochrones
  | S n' =>
      match stopsToProcess !! i with
      | None => isochrones
      | Some stop =>
          let result := generateIsochrones (service i stop) stop in
          let isochrones :=
            match result with
            | Some r => (isochrones ++ [r])%list
            | None => isochrones
            end in
          isochroneLoop service stopsToProcess n' (S i) isochrones
      end
  end.

(** The stops without an entry in [existingIsochrones]. *)
Definition stopsWithoutIsochrone (stops : list ExtractedStop)
    (existingIsochrones : list (IsoEntry Polygon)) : list ExtractedStop :=
  let existingStopIds : gset string :=
    list_to_set (map iso_stop_id existingIsochrones) in
  List.filter (λ stop, negb (bool_decide (es_id stop ∈ existingStopIds))) stops.

Definition generateAllIsochrones
    (service : nat → ExtractedStop → option (list (Contour Polygon)))
    (stops : list ExtractedStop) (existingIsochrones : list (IsoEntry Polygon))
    : list (IsoEntry Polygon) :=
  let isochrones := existingIsochrones in
  let stopsToProcess := stopsWithoutIsochrone stops existingIsochrones in
  let total := length stopsToProcess in
  if (total =? 0)%nat then isochrones
  else isochroneLoop service stopsToProcess total 0 isochrones.

(** ** Loading the isochrones: the effect [loadIsochrones]
    (seattle-transit-access.tsx) *)

(** What the engine keeps of an entry. *)
Definition toIsoData (iso : IsoEntry Polygon) : IsoData Polygon :=
  {| isochrone_10min := iso_10min iso; isochrone_5min := iso_5min iso |}.

Definition yearsToLoad (selectedYear : string) : list string :=
  if String.eqb selectedYear "2027" then ["2025"; "2027"] else [selectedYear].

(** [data.isochrones.forEach(iso => isoMap.set(iso.stop_id, iso))]. *)
Definition setAll (isoMap : gmap string (IsoData Polygon))
    (entries : list (IsoEntry Polygon)) : gmap string (IsoData Polygon) :=
  fold_left (λ m iso, <[iso_stop_id iso := toIsoData iso]> m) entries isoMap.

(** The map that the effect leaves in [isochrones]. [files year] is the
    array of [isochrones_{year}.json], [None] when the file cannot be
    fetched or read; the empty map set on such a failure is replaced by
    the final [setIsochrones(isoMap)]. *)
Definition loadIsochrones (files : string → option (list (IsoEntry Polygon)))
    (selectedYear : string) : gmap string (IsoData Polygon) :=
  fold_left
    (λ isoMap year,
       match files year with
       | Some entries => setAll isoMap entries
       | None => isoMap
       end)
    (yearsToLoad selectedYear) ∅.
End Isochrones.

(** ** The collection of [main] (extract-all-stops.js) *)

(** The tables [GTFS_FILES_2020] and [GTFS_FILES_2025]: path and feed
    name. *)
Definition GTFS_FILES_2020 : list (string * string) :=
  [ ("../public/base_data/2020/feb_2020_metro_gtfs.zip", "metro") ].

Definition GTFS_FILES_2025 : list (string * string) :=
  [ ("../public/base_data/2025/dec_2025_metro_gtfs.zip", "metro");
    ("../public/base_data/2025/dec_2025_soundtransit_gtfs.zip",
     "soundtransit") ].

Definition GTFS_YEAR (DATASET : string) : string :=
  if String.eqb DATASET "2027" then "2025" else DATASET.

Definition GTFS_FILES (DATASET : string) : list (string * string) :=
  if String.eqb (GTFS_YEAR DATASET) "2020" then GTFS_FILES_2020
  else GTFS_FILES_2025.

Section Main.
Variable parseFloat : string → option Q.
(** The archives on disk: [None] for a path that does not exist. *)
Variable disk : string → option GtfsZip.

(** The loop [for (const [gtfsFile, feedName] of GTFS_FILES)]: a missing
    file is skipped. [None]: an extraction has not returned. *)
Fixpoint extractFeeds (fuel : nat) (DATASET : string)
    (files : list (string * string))
    (allStopArrays : list (list ExtractedStop))
    : option (list (list ExtractedStop)) :=
  match files with
  | [] => Some allStopArrays
  | (gtfsFile, feedName) :: rest =>
      match disk gtfsFile with
      | None => extractFeeds fuel DATASET rest allStopArrays
      | Some zip =>
          match extractStopsFromZip parseFloat fuel zip feedName DATASET with
          | None => None
          | Some stops =>
              extractFeeds fuel DATASET rest (allStopArrays ++ [stops])%list
          end
      end
  end.

(** How [main] ends: with the merged stops, or by [process.exit(1)]. *)
Inductive MainResult :=
  | Merged (mergedStops : list ExtractedStop)
  | Exit1.

(** [mergedStops] of [main], before it is sorted by id for the output
    file. [futureFile] is the future-stops file of the dataset. [None]:
    an extraction has not returned. *)
Definition mainMergedStops (fuel : nat) (DATASET : string)
    (futureFile : option (list FutureStop)) : option MainResult :=
  if String.eqb DATASET "2027" then
    let futureStops := loadFutureStops DATASET futureFile in
    if (0 <? length futureStops)%nat
    then Some (Merged (mergeStops [futureStops]))
    else Some Exit1
  else
    (λ allStopArrays, Merged (mergeStops allStopArrays)) <$>
      extractFeeds fuel DATASET (GTFS_FILES DATASET) [].
End Main.

(** ** Vocabulary of the classifier statements *)

(** The count that a stop's profile gives for hour [h]; a missing hour,
    or a missing profile, reads as 0. *)
Definition tripsAt (profile : option (gmap string Z)) (h : nat) : Z :=
  match profile with
  | Some ht => num_or_zero ht (toString h)
  | None => 0
  end.

(** Sum of the counts over the [n] hours from [h]. *)
Fixpoint sumFrom (profile : option (gmap string Z)) (n h : nat) : Z :=
  match n with
  | O => 0
  | S n' => tripsAt profile h + sumFrom profile n' (S h)
  end.

(** Total over the hours 6 to 18. *)
Definition windowTotal (profile : option (gmap string Z)) : Z :=
  sumFrom profile 13 6.

(** A profile from the list of its counts for the hours 6, 7, ... *)
Definition profileFrom6 (counts : list Z) : gmap string Z :=
  list_to_map (zip (map toString (seq 6 (length counts))) counts).

(** Exactly four trips in every hour 6 to 18: total 52. *)
Definition fourEveryHour : gmap string Z := profileFrom6 (replicate 13 4).

(** ** Vocabulary of the aggregation over groups *)

(** The groups recorded for a stop. *)
Definition groupsOfStop (stop : string) (groups : list Group) : list Group :=
  List.filter (λ g, String.eqb (stop_id g) stop) groups.

(** The largest count for hour [h] among [groups] (0 for no group). *)
Definition maxCount (groups : list Group) (h : nat) : Z :=
  fold_right (λ g acc, Z.max (tripCount (tripTimes g) h) acc) 0 groups.

(** ** Vocabulary of the calendar statements *)

(** A decimal digit, and the number written by a string of digits. *)
Definition isDigit (c : ascii) : bool :=
  let n := nat_of_ascii c in (48 <=? n)%nat && (n <=? 57)%nat.

Definition digitVal (c : ascii) : Z := Z.of_nat (nat_of_ascii c) - 48.

Definition decimalFrom (acc : Z) (s : string) : Z :=
  fold_left (λ acc c, 10 * acc + digitVal c) (list_ascii_of_string s) acc.

Definition decimal (s : string) : Z := decimalFrom 0 s.

Definition isLeapYear (y : Z) : bool :=
  ((y mod 4 =? 0) && negb (y mod 100 =? 0)) || (y mod 400 =? 0).

Definition daysInMonth (y m : Z) : Z :=
  if m =? 2 then (if isLeapYear y then 29 else 28)
  else if (m =? 4) || (m =? 6) || (m =? 9) || (m =? 11) then 30
  else 31.

(** The fields of a date written [YYYYMMDD]. *)
Definition yearField (s : string) : Z := decimal (substring 0 4 s).
Definition monthField (s : string) : Z := decimal (substring 4 2 s).
Definition dayField (s : string) : Z := decimal (substring 6 2 s).

(** [s] is eight digits [YYYYMMDD] naming a day of the calendar, in a
    year from 100 on. *)
Definition isCalendarDate (s : string) : bool :=
  (String.length s =? 8)%nat &&
  forallb isDigit (list_ascii_of_string s) &&
  (100 <=? yearField s) &&
  (1 <=? monthField s) && (monthField s <=? 12) &&
  (1 <=? dayField s) && (dayField s <=? daysInMonth (yearField s) (monthField s)).

(** The day number of the date that [s] names. *)
Definition dayNumber (s : string) : Z :=
  days_from_civil (yearField s) (monthField s) (dayField s).

(** Day of the week of a day number, Sunday is 0. *)
Definition weekDay (t : Z) : Z := (t + 4) mod 7.

(** [w] is the first Wednesday on or after day [t]. *)
Definition firstWednesdayFrom (t w : Z) : Prop :=
  t ≤ w ∧ weekDay w = 3 ∧ ∀ u, t ≤ u < w → weekDay u ≠ 3.

(** The non-empty start dates of the entries active Monday to Friday. *)
Definition weekdayStartDates (calendar : list CalendarEntry) : list string :=
  startDatesOf (List.filter isWeekdayEntry calendar).

(** [d] is the latest of [dates] in the order of strings. *)
Definition isLatest (d : string) (dates : list string) : Prop :=
  d ∈ dates ∧ ∀ d', d' ∈ dates → String.leb d' d = true.

(** The entry is flagged active on each of Monday to Friday. *)
Definition activeMondayToFriday (c : CalendarEntry) : Prop :=
  monday c = "1" ∧ tuesday c = "1" ∧ wednesday c = "1" ∧
  thursday c = "1" ∧ friday c = "1".

(** Start and end of an entry's interval; a missing (or empty) date reads
    as open-ended. *)
Definition startOrDefault (c : CalendarEntry) : string :=
  match start_date c with
  | Some "" | None => "0"
  | Some d => d
  end.

Definition endOrDefault (c : CalendarEntry) : string :=
  match end_date c with
  | Some "" | None => "99999999"
  | Some d => d
  end.

(** The interval of [c] contains the date written [d], in the order of
    strings. *)
Definition intervalContains (c : CalendarEntry) (d : string) : Prop :=
  String.leb (startOrDefault c) d = true ∧ String.leb d (endOrDefault c) = true.

(** ** Sample calendars *)

(** A calendar row active Monday to Friday. *)
Definition weekdayRow (id : string) (start end_ : option string) : CalendarEntry :=
  {| c_service_id := id; monday := "1"; tuesday := "1"; wednesday := "1";
     thursday := "1"; friday := "1"; saturday := "0"; sunday := "0";
     start_date := start; end_date := end_ |}.

(** A calendar row for Saturdays and Sundays. *)
Definition weekendRow (id : string) (start end_ : option string) : CalendarEntry :=
  {| c_service_id := id; monday := "0"; tuesday := "0"; wednesday := "0";
     thursday := "0"; friday := "0"; saturday := "1"; sunday := "1";
     start_date := start; end_date := end_ |}.

(** Three weekday services; the latest start date, 30 August 2025, is a
    Saturday, and the Wednesday after it is 3 September 2025. *)
Definition sampleCalendar : list CalendarEntry :=
  [ weekdayRow "FALL" (Some "20250830") (Some "20251231");
    weekdayRow "SUMMER" (Some "20250601") (Some "20250901");
    weekdayRow "OPEN" None None;
    weekendRow "WKND" (Some "20250830") (Some "20251231") ].

(** A calendar whose only weekday row has a start date that is not
    written [YYYYMMDD]. *)
Definition slashCalendar : list CalendarEntry :=
  [ weekdayRow "FALL" (Some "2025/09/01") (Some "2025/12/31") ].

(** A calendar with weekend service only. *)
Definition weekendCalendar : list CalendarEntry :=
  [ weekendRow "WKND" (Some "20250830") (Some "20251231") ].

(** ** Vocabulary of the coverage statements *)

Section CoverageVocabulary.
Context {Polygon : Type} `{!Turf Polygon}.

(** The 10-minute contour stored under [key], if any. *)
Definition contourAt (isochrones : gmap string (IsoData Polygon))
    (key : string) : option Polygon :=
  isochrones !! key ≫= isochrone_10min.

(** One step of the reduction: the union of the accumulator with the
    next walkshed, or the accumulator itself when the union raises. *)
Definition unionOrKeep (acc : option Polygon) (w : Polygon) : option Polygon :=
  match union acc (Some w) with
  | Returned u => u
  | Raised => acc
  end.

(** The left fold of the walksheds under [unionOrKeep]. *)
Definition unionFold (walksheds : list Polygon) : option Polygon :=
  match walksheds with
  | [] => None
  | w :: ws => fold_left unionOrKeep ws (Some w)
  end.

(** A block that passes the two tests of the callback. *)
Definition isCandidate (block : Block Polygon) : bool :=
  bool_decide (Place block = Some "Seattle") && (1 <=? populationOf block).

(** Whenever the areas of a block and of its intersection with the
    coverage are measured, the second is at most the first, and the
    block has some area (so that the ratio of the two is a number). *)
Definition areasBounded (w : option Polygon) (b : Block Polygon) : Prop :=
  ∀ ab i ai,
    area (Some (b_feature b)) = Returned ab →
    intersect (Some (b_feature b)) w = Returned (Some i) →
    area (Some i) = Returned ai →
    (ai <= ab)%Q ∧ (0 < ab)%Q.

(** Sum of the populations of the candidate blocks. *)
Definition candidatePopulation (blocks : list (Block Polygon)) : Q :=
  fold_right
    (λ b acc, if isCandidate b then (inject_Z (populationOf b) + acc)%Q else acc)
    0%Q blocks.
End CoverageVocabulary.

(** ** A planar test geometry

    Polygons are finite sets of unit cells of a strip, numbered from 0;
    the area is the number of cells. An operation raises on a [null]
    operand, and [union] also on a polygon without cells. *)

Definition Cells : Type := gset nat.

Definition cellsArea (p : option Cells) : outcome Q :=
  match p with
  | Some x => Returned (inject_Z (Z.of_nat (size x)))
  | None => Raised
  end.

Definition nonEmpty (x : Cells) : option Cells :=
  if decide (x = ∅) then None else Some x.

Definition cellsUnion (a b : option Cells) : outcome (option Cells) :=
  match a, b with
  | Some x, Some y =>
      if decide (x = ∅ ∨ y = ∅) then Raised else Returned (Some (x ∪ y))
  | _, _ => Raised
  end.

Definition cellsIntersect (a b : option Cells) : outcome (option Cells) :=
  match a, b with
  | Some x, Some y => Returned (nonEmpty (x ∩ y))
  | _, _ => Raised
  end.

Definition cellsDifference (a b : option Cells) : outcome (option Cells) :=
  match a, b with
  | Some x, Some y => Returned (nonEmpty (x ∖ y))
  | _, _ => Raised
  end.

Definition cellsIntersects (a b : option Cells) : outcome bool :=
  match a, b with
  | Some x, Some y => Returned (bool_decide (x ∩ y ≠ ∅))
  | _, _ => Raised
  end.

Definition cellsWithin (a b : option Cells) : outcome bool :=
  match a, b with
  | Some x, Some y => Returned (bool_decide (x ⊆ y))
  | _, _ => Raised
  end.

(** The buffer around a point: the cell of its longitude and the two
    next to it. *)
Definition cellsCircle (center : Q * Q) (radius : Q) (options : CircleOptions)
    : Cells :=
  let c := Z.to_nat (Qfloor (fst center)) in
  {[ Nat.pred c; c; S c ]}.

#[global] Instance gridTurf : Turf Cells := {|
  circle := cellsCircle;
  union := cellsUnion;
  intersect := cellsIntersect;
  difference := cellsDifference;
  simplify := λ p _, Returned p;
  area := cellsArea;
  booleanIntersects := cellsIntersects;
  booleanWithin := cellsWithin
|}.

(** ** Sample stops, catchments, boundary and census blocks *)

Definition sampleStop (id : string) (lon : Q) : FrequentStop :=
  {| fs_id := id; fs_name := id; fs_lat := 47; fs_lon := lon;
     hourlyTrips := None; isFuture := false; routeName := None;
     description := None |}.

(** Stop "A" has a precomputed catchment under its Metro key; stop "B" a
    degenerate one without cells; stop "C" none. *)
Definition sampleIsochrones : gmap string (IsoData Cells) :=
  list_to_map
    [ ("2025_metro_A",
       {| isochrone_10min := Some ({[ 1; 2; 3 ]}%nat : Cells);
          isochrone_5min := None |});
      ("2025_metro_B",
       {| isochrone_10min := Some (∅ : Cells); isochrone_5min := None |}) ].

Definition sampleStops : list FrequentStop :=
  [ sampleStop "A" 2; sampleStop "B" 5; sampleStop "C" 9 ].

(** The city: the cells 0 to 3. *)
Definition sampleBoundary : Boundary Cells :=
  {| features := [ ({[ 0; 1; 2; 3 ]}%nat : Cells) ] |}.

(** A boundary that no sample catchment meets. *)
Definition farBoundary : Boundary Cells :=
  {| features := [ ({[ 20; 21 ]}%nat : Cells) ] |}.

Definition sampleBlock (cells : Cells) (pop : Z) (place : string) : Block Cells :=
  {| b_feature := cells; TOT_POP := Some pop; Place := Some place |}.

(** Blocks inside, across the edge of, and outside the coverage
    [{1, 2, 3}], and a block of another place. *)
Definition sampleBlocks : list (Block Cells) :=
  [ sampleBlock ({[ 1; 2 ]}%nat) 100 "Seattle";
    sampleBlock ({[ 3; 4; 5; 6 ]}%nat) 80 "Seattle";
    sampleBlock ({[ 7; 8 ]}%nat) 50 "Seattle";
    sampleBlock ({[ 2; 3 ]}%nat) 40 "Shoreline" ].

(** ** Vocabulary of the counting within a group *)

(** A stop time that passes the filters of the aggregator, with the key
    of its group, the key of its hour and its trip id. *)
Definition retainedRow (trips : list Trip) (activeServiceIds : gset string)
    (st : StopTime) : option (string * string * string) :=
  if bool_decide (st_trip_id st ∈ activeTripsOf trips activeServiceIds) then
    match or_else (arrival_time st) (departure_time st) with
    | None | Some "" => None
    | Some time =>
        match tripInfoOf trips !! st_trip_id st with
        | None => None
        | Some trip =>
            Some (groupKey (st_stop_id st) (routeKey (ti_route_id trip))
                    (ti_direction_id trip),
                  numKey (hourOf time),
                  st_trip_id st)
        end
    end
  else None.

(** The retained stop times of a feed, in the order of the file. *)
Definition retainedRows (stopTimes : list StopTime) (trips : list Trip)
    (activeServiceIds : gset string) : list (string * string * string) :=
  omap (retainedRow trips activeServiceIds) stopTimes.

(** The trip ids of the rows of group [key] and hour key [hk]. *)
Definition tripsInHour (rows : list (string * string * string))
    (key hk : string) : gset string :=
  list_to_set
    (omap (λ '(k, hk', tripId),
             if String.eqb k key && String.eqb hk' hk then Some tripId else None)
          rows).

(** The distinct trip ids with a retained stop time in the group [key]
    and the hour [h]. *)
Definition distinctTripIds (stopTimes : list StopTime) (trips : list Trip)
    (activeServiceIds : gset string) (key : string) (h : nat) : gset string :=
  tripsInHour (retainedRows stopTimes trips activeServiceIds) key (toString h).

(** No trip id of a retained stop time is also the hour key of a retained
    stop time (such as a trip named ["6"] next to a call at 6 o'clock). *)
Definition noHourKeyCollision (rows : list (string * string * string)) : Prop :=
  ∀ k hk t k' hk' t', (k, hk, t) ∈ rows → (k', hk', t') ∈ rows → t ≠ hk'.

(** No trip id of a retained stop time is the name of a member of
    [Object.prototype] (such as a trip named ["constructor"]). *)
Definition noInheritedKey (rows : list (string * string * string)) : Prop :=
  ∀ k hk t, (k, hk, t) ∈ rows → t ∉ objectPrototypeKeys.

(** What the group table holds after the retained rows [seen]: a group
    exists once a row of it was seen, and its object [tripTimes] maps each
    hour key to the trips seen for it. *)
Definition groupsReflect (seen : list (string * string * string))
    (srdh : list (string * Group)) : Prop :=
  ∀ key,
    match obj_get srdh key with
    | None => ∀ hk, tripsInHour seen key hk = ∅
    | Some g =>
        ∀ hk, default ∅ (tripTimes g !! hk) = tripsInHour seen key hk ∧
              (is_Some (tripTimes g !! hk) → ∃ t, (key, hk, t) ∈ seen)
    end.

(** ** Sample schedules *)

Definition sampleTrip (id route service : string) : Trip :=
  {| trip_id := id; route_id := route; direction_id := "0";
     service_id := service |}.

Definition arrival (trip stop time : string) : StopTime :=
  {| st_trip_id := trip; st_stop_id := stop; arrival_time := Some time;
     departure_time := None |}.

(** Two routes at stop "S": route 10 with two trips and route 20 with
    three in the hour from 6; one row is repeated, one trip runs on
    Saturdays only. *)
Definition sampleTrips : list Trip :=
  [ sampleTrip "A1" "10" "WK"; sampleTrip "A2" "10" "WK";
    sampleTrip "B1" "20" "WK"; sampleTrip "B2" "20" "WK";
    sampleTrip "B3" "20" "WK"; sampleTrip "X1" "10" "SAT" ].

Definition sampleStopTimes : list StopTime :=
  [ arrival "A1" "S" "06:05:00"; arrival "A2" "S" "06:35:00";
    arrival "B1" "S" "06:10:00"; arrival "B2" "S" "06:20:00";
    arrival "B3" "S" "06:50:00"; arrival "B3" "S" "06:50:00";
    arrival "X1" "S" "06:15:00"; arrival "A1" "T" "06:15:00" ].

(** The profile expected for stop "S": 3 trips in the hour from 6. *)
Definition sampleProfile : gmap string Z :=
  list_to_map (map (λ h, (toString h, if (h =? 6)%nat then 3 else 0)) hours).

(** A feed that numbers its trips from 1: the trips "A" and "6" both call
    at stop "S" in the hour from 6. *)
Definition collisionTrips : list Trip :=
  [ sampleTrip "A" "10" "WK"; sampleTrip "6" "10" "WK" ].

Definition collisionStopTimes : list StopTime :=
  [ arrival "A" "S" "06:00:00"; arrival "6" "S" "06:30:00" ].

(** A feed with a trip named as a member of [Object.prototype]: the
    trips "A" and "constructor" both call at stop "S" in the hour from
    6. *)
Definition inheritedTrips : list Trip :=
  [ sampleTrip "A" "10" "WK"; sampleTrip "constructor" "10" "WK" ].

Definition inheritedStopTimes : list StopTime :=
  [ arrival "A" "S" "06:00:00"; arrival "constructor" "S" "06:30:00" ].

(** ** Sample stops for the classifier *)

Definition stopWithCounts (id : string) (counts : list Z) : AllStop :=
  {| as_id := id; as_name := id; as_lat := 47; as_lon := -122;
     hourly_trips := Some (profileFrom6 counts) |}.

(** Every hour from 6 to 18 at least 4, total 77. *)
Definition stop77 : AllStop := stopWithCounts "T77" (replicate 12 6 ++ [5]).

(** Every hour from 6 to 18 at least 4, total 76. *)
Definition stop76 : AllStop := stopWithCounts "T76" (replicate 12 6 ++ [4]).

(** Sixty trips in every hour but the one from 10, which has 3. *)
Definition stopWith3 : AllStop :=
  stopWithCounts "H3" (replicate 4 60 ++ [3] ++ replicate 8 60).

(** A planned station with four trips in every hour from 6 to 18, and
    one that is switched off. *)
Definition plannedStop (id : string) (on : option bool) : FutureStop :=
  {| fu_id := id; fu_name := id; fu_lat := 47; fu_lon := -122;
     enabled := on; fu_hourly_trips := Some fourEveryHour;
     route_name := Some "2 Line"; fu_description := Some "2027" |}.

Definition plannedStops : list FutureStop :=
  [ plannedStop "future_A" None; plannedStop "future_B" (Some false) ].

(** ** Vocabulary of the statement on the stops with a profile *)

(** The character ["|"], which separates the parts of a group key, does
    not occur in [s]. *)
Definition noBar (s : string) : Prop :=
  forallb (λ c, negb (Ascii.eqb c "|")) (list_ascii_of_string s) = true.

(** A stop time that the aggregator counts: its trip is a row of
    [trips.txt] with a selected service, and it has an arrival time or,
    failing that, a departure time. *)
Definition isActiveCall (trips : list Trip) (activeServiceIds : gset string)
    (st : StopTime) : Prop :=
  (∃ t, t ∈ trips ∧ trip_id t = st_trip_id st ∧
        service_id t ∈ activeServiceIds) ∧
  ∃ time, or_else (arrival_time st) (departure_time st) = Some time ∧
          time ≠ "".

(** [key] is the key of a group of the stop: a stop time at the stop is
    retained under it. *)
Definition isGroupOfStop (stopTimes : list StopTime) (trips : list Trip)
    (activeServiceIds : gset string) (stop key : string) : Prop :=
  ∃ st hk t, st ∈ stopTimes ∧ st_stop_id st = stop ∧
             retainedRow trips activeServiceIds st = Some (key, hk, t).

(** ** Vocabulary of the isochrone statements *)

Section IsochroneVocabulary.
Context {Polygon : Type}.

(** The entries produced for the stops [todo], the first of which is the
    subject of request number [i]: one entry for each request that is
    answered, in the order of the stops. *)
Fixpoint generatedFrom
    (service : nat → ExtractedStop → option (list (Contour Polygon)))
    (i : nat) (todo : list ExtractedStop) : list (IsoEntry Polygon) :=
  match todo with
  | [] => []
  | stop :: rest =>
      (option_list (generateIsochrones (service i stop) stop) ++
       generatedFrom service (S i) rest)%list
  end.

(** The last entry of a file for the stop id [k]. *)
Definition lastWithId (k : string) (entries : list (IsoEntry Polygon))
    : option (IsoEntry Polygon) :=
  last (List.filter (λ e, String.eqb (iso_stop_id e) k) entries).

(** The contours of an answer, as the engine keeps them. *)
Definition contoursOf (features : list (Contour Polygon)) : IsoData Polygon :=
  {| isochrone_10min := findContour 10 features;
     isochrone_5min := findContour 5 features |}.
End IsochroneVocabulary.

(** ** Sample stops and answers of the routing service *)

Definition sampleExtracted (id : string) (lon : Q) : ExtractedStop :=
  {| es_id := id; es_original_id := id; es_feed := "metro";
     es_dataset := "2025"; es_name := id; es_lat := Some 47%Q;
     es_lon := Some lon; es_code := None; es_hourly_trips := None;
     es_route_name := None |}.

Definition sampleExtractedStops : list ExtractedStop :=
  [ sampleExtracted "2025_metro_1" 2; sampleExtracted "2025_metro_2" 5;
    sampleExtracted "2025_metro_3" 9 ].

(** The service answers every request with a 5-minute contour of one
    cell and a 10-minute contour of three, around the longitude of the
    stop. *)
Definition sampleService (i : nat) (stop : ExtractedStop)
    : option (list (Contour Cells)) :=
  let c := Z.to_nat (Qfloor (default 0%Q (es_lon stop))) in
  Some [ {| contour := 5; contour_feature := ({[ c ]} : Cells) |};
         {| contour := 10;
            contour_feature := ({[ Nat.pred c; c; S c ]} : Cells) |} ].

(** A service that is down. *)
Definition noService (i : nat) (stop : ExtractedStop)
    : option (list (Contour Cells)) := None.

(** The isochrone files of a site that has run the generation for 2025
    only. *)
Definition sampleFiles (year : string) : option (list (IsoEntry Cells)) :=
  if String.eqb year "2025"
  then Some (generateAllIsochrones sampleService sampleExtractedStops [])
  else None.

(** ** A test geometry with failing measurements

    The planar test geometry, except that [simplify] raises when
    [simplifyFails] is set, and that the area of a polygon lying within
    the region [unmeasurable] cannot be taken. *)

Definition faultyArea (unmeasurable : Cells) (p : option Cells) : outcome Q :=
  match p with
  | Some x => if bool_decide (x ⊆ unmeasurable) then Raised else cellsArea p
  | None => Raised
  end.

Definition faultyTurf (simplifyFails : bool) (unmeasurable : Cells)
    : Turf Cells := {|
  circle := cellsCircle;
  union := cellsUnion;
  intersect := cellsIntersect;
  difference := cellsDifference;
  simplify := λ p _, if simplifyFails then Raised else Returned p;
  area := faultyArea unmeasurable;
  booleanIntersects := cellsIntersects;
  booleanWithin := cellsWithin
|}.

(** ** Sample archives and files *)

(** The reading of the coordinates of the sample rows. *)
Definition sampleParseFloat (s : string) : option Q :=
  if String.eqb s "47.6" then Some (476 # 10)
  else if String.eqb s "-122.3" then Some (- (1223 # 10))%Q
  else None.

Definition sampleRow (id lat : string) : StopRow :=
  {| r_stop_id := id; stop_name := "Stop " ++ id; stop_lat := lat;
     stop_lon := "-122.3"; stop_code := None |}.

(** A Metro archive with the sample schedule; the row "U" has no
    latitude. *)
Definition metroZip : GtfsZip :=
  {| stops_txt :=
       Some [ sampleRow "S" "47.6"; sampleRow "T" "47.6"; sampleRow "U" "" ];
     stop_times_txt := Some sampleStopTimes;
     trips_txt := Some sampleTrips;
     calendar_txt := Some sampleCalendar |}.

(** A Sound Transit archive without schedule files, whose stop has the
    id of a Metro stop. *)
Definition soundZip : GtfsZip :=
  {| stops_txt := Some [ sampleRow "S" "47.6" ];
     stop_times_txt := None; trips_txt := None; calendar_txt := None |}.

(** An archive whose calendar has weekend service only. *)
Definition weekendZip : GtfsZip :=
  {| stops_txt := Some [ sampleRow "S" "47.6"; sampleRow "T" "47.6" ];
     stop_times_txt := Some sampleStopTimes;
     trips_txt := Some sampleTrips;
     calendar_txt := Some weekendCalendar |}.

Definition sampleDisk (path : string) : option GtfsZip :=
  if String.eqb path "../public/base_data/2025/dec_2025_metro_gtfs.zip"
  then Some metroZip
  else if String.eqb path
            "../public/base_data/2025/dec_2025_soundtransit_gtfs.zip"
  then Some soundZip
  else None.

(** The isochrone files of a site that has also run the generation for
    the planned stops of 2027. *)
Definition sampleFiles2027 (year : string) : option (list (IsoEntry Cells)) :=
  if String.eqb year "2027"
  then Some (generateAllIsochrones sampleService
               (loadFutureStops "2027" (Some plannedStops)) [])
  else sampleFiles year.

(** Blocks that all lie within the coverage [{1, 2, 3}]. *)
Definition coveredBlocks : list (Block Cells) :=
  [ sampleBlock ({[ 1; 2 ]}%nat) 100 "Seattle";
    sampleBlock ({[ 2; 3 ]}%nat) 40 "Shoreline";
    sampleBlock ({[ 3 ]}%nat) 30 "Seattle" ].

(** A calendar whose weekday row has no start date. *)
Definition undatedCalendar : list CalendarEntry :=
  [ weekdayRow "OPEN" None (Some "20251231");
    weekendRow "WKND" (Some "20250830") (Some "20251231") ].

(* ===================================================================== *)
(** * Part II: theorems                                                   *)
(* ===================================================================== *)

(** ** FrequentStopClassifier *)

Lemma frequentLoop_total ht n h total m t m' :
  frequentLoop ht n h total m = Some (t, m') →
  t = total + sumFrom (Some ht) n h.
Proof.
  revert h total m. induction n as [|n IH]; intros h total m; simpl.
  - intros [= <- _]. lia.
  - destruct (_ <? 4); [done|]. intros Hl. apply IH in Hl. lia.
Qed.

Lemma frequentLoop_None ht n h total m :
  frequentLoop ht n h total m = None ↔
  ∃ k, (h ≤ k < h + n)%nat ∧ tripsAt (Some ht) k < 4.
Proof.
  revert h total m. induction n as [|n IH]; intros h total m; simpl.
  - split; [done|]. intros (k & ? & _). lia.
  - destruct (Z.ltb_spec (num_or_zero ht (toString h)) 4) as [Hlt|Hge].
    + split; [|done]. intros _. exists h. split; [lia|done].
    + rewrite IH. split.
      * intros (k & ? & ?). exists k. split; [lia|done].
      * intros (k & Hk & Hlt). exists k. split; [|done].
        destruct (decide (k = h)) as [->|]; [simpl in Hlt; lia|lia].
Qed.

Lemma futureLoop_true ht n h :
  futureLoop ht n h = true ↔
  ∀ k, (h ≤ k < h + n)%nat → 4 ≤ tripsAt (Some ht) k.
Proof.
  revert h. induction n as [|n IH]; intros h; simpl.
  - split; [intros _ k ?; lia|done].
  - destruct (Z.ltb_spec (num_or_zero ht (toString h)) 4) as [Hlt|Hge].
    + split; [done|]. intros Hall. specialize (Hall h). simpl in Hall. lia.
    + rewrite IH. split.
      * intros Hall k Hk. destruct (decide (k = h)) as [->|]; [done|].
        apply Hall. lia.
      * intros Hall k Hk. apply Hall. lia.
Qed.

Lemma isFrequentStop_iff s :
  isFrequentStop s = true ↔
  (∀ h, (6 ≤ h ≤ 18)%nat → 4 ≤ tripsAt (hourly_trips s) h) ∧
  77 ≤ windowTotal (hourly_trips s).
Proof.
  unfold isFrequentStop, windowTotal.
  destruct (hourly_trips s) as [ht|].
  - destruct (frequentLoop ht 13 6 0 None) as [[t m']|] eqn:Hl.
    + pose proof (frequentLoop_total _ _ _ _ _ _ _ Hl) as Ht.
      assert (Hall : ∀ h, (6 ≤ h ≤ 18)%nat → 4 ≤ tripsAt (Some ht) h).
      { intros h Hh. destruct (Z.lt_ge_cases (tripsAt (Some ht) h) 4); [|done].
        assert (frequentLoop ht 13 6 0 None = None) as Hn; [|congruence].
        apply frequentLoop_None. exists h. split; [lia|done]. }
      destruct (Z.ltb_spec t 77).
      * split; [done|]. intros [_ ?]. lia.
      * split; [|done]. intros _. split; [done|lia].
    + split; [done|]. intros [Hall _].
      apply frequentLoop_None in Hl as (k & Hk & Hlt).
      specialize (Hall k). lia.
  - split; [done|]. intros [Hall _]. specialize (Hall 6%nat). simpl in Hall. lia.
Qed.

(** C1. A stop passes the frequent-stop filter exactly when every hour
    from 6 to 18 has at least 4 trips (a missing hour counting as 0) and
    the 13 hours total at least 77. In particular: all hours at least 4
    with total 77 passes, total 76 fails, and an hour with 3 trips fails
    whatever the total. *)
Theorem frequent_stop_threshold :
  (∀ s, isFrequentStop s = true ↔
        (∀ h, (6 ≤ h ≤ 18)%nat → 4 ≤ tripsAt (hourly_trips s) h) ∧
        77 ≤ windowTotal (hourly_trips s)) ∧
  (∀ s, (∀ h, (6 ≤ h ≤ 18)%nat → 4 ≤ tripsAt (hourly_trips s) h) →
        windowTotal (hourly_trips s) = 77 → isFrequentStop s = true) ∧
  (∀ s, windowTotal (hourly_trips s) = 76 → isFrequentStop s = false) ∧
  (∀ s h, (6 ≤ h ≤ 18)%nat → tripsAt (hourly_trips s) h = 3 →
          isFrequentStop s = false).
Proof.
  split; [exact isFrequentStop_iff|].
  split; [|split].
  - intros s Hall Ht. apply isFrequentStop_iff. split; [done|lia].
  - intros s Ht. apply not_true_is_false. rewrite isFrequentStop_iff.
    intros [_ ?]. lia.
  - intros s h Hh H3. apply not_true_is_false. rewrite isFrequentStop_iff.
    intros [Hall _]. specialize (Hall h Hh). lia.
Qed.

(** ** Future stops *)

Lemma isEnabledFutureStop_iff s :
  isEnabledFutureStop s = true ↔
  enabled s ≠ Some false ∧
  ∀ h, (6 ≤ h ≤ 18)%nat → 4 ≤ tripsAt (fu_hourly_trips s) h.
Proof.
  unfold isEnabledFutureStop.
  assert (Hloop : futureLoop (default ∅ (fu_hourly_trips s)) 13 6 = true ↔
                  ∀ h, (6 ≤ h ≤ 18)%nat → 4 ≤ tripsAt (fu_hourly_trips s) h).
  { rewrite futureLoop_true.
    assert (Heq : ∀ h, tripsAt (Some (default ∅ (fu_hourly_trips s))) h
                       = tripsAt (fu_hourly_trips s) h).
    { intros h. destruct (fu_hourly_trips s); [done|].
      simpl. unfold num_or_zero. by rewrite lookup_empty. }
    split; intros Hall h Hh; [rewrite <- Heq | rewrite Heq]; apply Hall; lia. }
  destruct (enabled s) as [[|]|]; rewrite ?Hloop.
  - split; [intros ?; split; [done|done] | intros [_ ?]; done].
  - split; [done | intros [? _]; done].
  - split; [intros ?; split; [done|done] | intros [_ ?]; done].
Qed.

Lemma fourEveryHour_at h :
  (6 ≤ h ≤ 18)%nat → tripsAt (Some fourEveryHour) h = 4.
Proof.
  intros Hh.
  assert (Hc : h ∈ seq 6 13) by (apply elem_of_seq; lia).
  vm_compute in Hc. set_unfold in Hc.
  repeat (destruct Hc as [->|Hc]; [vm_compute; reflexivity|]). done.
Qed.

(** C10. In the 2027 scenario a future stop joins the frequent-stop list
    whenever its [enabled] flag is not [false] and every hour from 6 to
    18 has at least 4 trips; no total is required of it. A future stop
    with exactly 4 trips in each of those hours (total 52) is therefore
    listed, while a regular stop with the same profile is not frequent. *)
Theorem future_stop_admission :
  (∀ s, isEnabledFutureStop s = true ↔
        enabled s ≠ Some false ∧
        ∀ h, (6 ≤ h ≤ 18)%nat → 4 ≤ tripsAt (fu_hourly_trips s) h) ∧
  (∀ allStops stops s,
      s ∈ stops → enabled s ≠ Some false →
      (∀ h, (6 ≤ h ≤ 18)%nat → 4 ≤ tripsAt (fu_hourly_trips s) h) →
      ofFutureStop s ∈ finalStopList allStops "2027" (Some stops)) ∧
  (windowTotal (Some fourEveryHour) = 52 ∧
   (∀ h, (6 ≤ h ≤ 18)%nat → tripsAt (Some fourEveryHour) h = 4) ∧
   (∀ s, fu_hourly_trips s = Some fourEveryHour → enabled s ≠ Some false →
         isEnabledFutureStop s = true) ∧
   (∀ s, hourly_trips s = Some fourEveryHour → isFrequentStop s = false)).
Proof.
  split; [exact isEnabledFutureStop_iff|]. split.
  - intros allStops stops s Hin Hen Hall.
    unfold finalStopList, addFutureStops. simpl.
    apply elem_of_app. right. apply list_elem_of_In, in_map.
    apply filter_In. split; [by apply list_elem_of_In|].
    by apply isEnabledFutureStop_iff.
  - split; [by vm_compute|]. split; [exact fourEveryHour_at|]. split.
    + intros s Hp Hen. apply isEnabledFutureStop_iff. split; [done|].
      intros h Hh. rewrite Hp, fourEveryHour_at by done. lia.
    + intros s Hp. apply not_true_is_false. rewrite isFrequentStop_iff, Hp.
      intros [_ Ht]. vm_compute in Ht. by apply Ht.
Qed.

(** ** FrequencyAggregator: aggregation over the groups of a stop *)

Lemma toString_inj h k : toString h = toString k → h = k.
Proof. unfold toString. apply (inj pretty). Qed.

Lemma tripCount_nonneg tt h : 0 ≤ tripCount tt h.
Proof. unfold tripCount. destruct (tt !! toString h); lia. Qed.

(** Lookups in an object filled by a loop over hour counters. *)
Lemma fold_set_other {V} (F : gmap string V → nat → gmap string V) l m k :
  (∀ m h, toString h ≠ k → F m h !! k = m !! k) →
  (∀ h, h ∈ l → toString h ≠ k) →
  fold_left F l m !! k = m !! k.
Proof.
  intros HF. revert m. induction l as [|x l IH]; intros m Hk; [done|].
  simpl. rewrite IH.
  - apply HF, Hk. left.
  - intros h Hh. apply Hk. by right.
Qed.

Lemma hourlyTripsOf_lookup tt h :
  (h < 24)%nat → hourlyTripsOf tt !! toString h = Some (tripCount tt h).
Proof.
  intros Hh. unfold hourlyTripsOf.
  assert (Hin : h ∈ hours) by (apply elem_of_seq; lia).
  generalize (∅ : gmap string Z). revert Hin.
  induction hours as [|x l IH]; intros Hin m; [by apply elem_of_nil in Hin|].
  simpl. destruct (decide (h ∈ l)) as [Hl|Hl]; [by apply IH|].
  apply elem_of_cons in Hin as [->|]; [|done].
  rewrite fold_set_other.
  - apply lookup_insert_eq.
  - intros m' h' Hne. by apply lookup_insert_ne.
  - intros h' Hh' Heq. apply toString_inj in Heq. congruence.
Qed.

Lemma hourlyTripsOf_keys tt k v :
  hourlyTripsOf tt !! k = Some v → ∃ h, (h < 24)%nat ∧ k = toString h.
Proof.
  intros Hk. destruct (decide (k ∈ map toString hours)) as [Hin|Hnot].
  - apply list_elem_of_fmap in Hin as (h & -> & Hh).
    exists h. split; [|done]. apply elem_of_seq in Hh. lia.
  - unfold hourlyTripsOf in Hk. rewrite fold_set_other in Hk; [done| |].
    + intros m h Hne. by apply lookup_insert_ne.
    + intros h Hh Heq. apply Hnot. rewrite <- Heq. by apply list_elem_of_fmap_2.
Qed.

Lemma maxInto_lookup e b h :
  (h < 24)%nat →
  maxInto e b !! toString h
  = Some (Z.max (num_or_zero e (toString h)) (num_or_zero b (toString h))).
Proof.
  intros Hh. unfold maxInto.
  assert (Hin : h ∈ hours) by (apply elem_of_seq; lia).
  assert (Hnd : NoDup hours) by apply NoDup_seq.
  revert e Hin Hnd.
  induction hours as [|x l IH]; intros e Hin Hnd; [by apply elem_of_nil in Hin|].
  apply NoDup_cons in Hnd as [Hx Hnd]. simpl.
  assert (Hother : ∀ (m : gmap string Z) h' k, toString h' ≠ k →
            <[toString h' := Z.max (num_or_zero m (toString h'))
                                   (num_or_zero b (toString h'))]> m !! k
            = m !! k).
  { intros m h' k Hne. by apply lookup_insert_ne. }
  apply elem_of_cons in Hin as [->|Hl].
  - rewrite fold_set_other.
    + apply lookup_insert_eq.
    + intros m h' Hne. by apply Hother.
    + intros h' Hh' Heq. apply toString_inj in Heq. congruence.
  - rewrite IH by done. f_equal. f_equal. unfold num_or_zero.
    rewrite lookup_insert_ne; [done|].
    intros Heq. apply toString_inj in Heq. congruence.
Qed.

Lemma maxInto_keys e b k :
  k ∉ map toString hours → maxInto e b !! k = e !! k.
Proof.
  intros Hnot. unfold maxInto. apply fold_set_other.
  - intros m h Hne. by apply lookup_insert_ne.
  - intros h Hh Heq. apply Hnot. rewrite <- Heq. by apply list_elem_of_fmap_2.
Qed.

Lemma hourlyTripsStr_lookup e k :
  hourlyTripsStr e !! k
  = if decide (k ∈ map toString hours) then e !! k else None.
Proof.
  unfold hourlyTripsStr.
  assert (Hother : ∀ (m : gmap string Z) h k', toString h ≠ k' →
            match e !! toString h with
            | Some v => <[toString h := v]> m
            | None => m
            end !! k' = m !! k').
  { intros m h k' Hne. destruct (e !! toString h); [|done].
    by apply lookup_insert_ne. }
  assert (Hgen : ∀ l (r : gmap string Z),
            fold_left (λ r h, match e !! toString h with
                              | Some v => <[toString h := v]> r
                              | None => r
                              end) l r !! k
            = if decide (k ∈ map toString l)
              then match e !! k with Some v => Some v | None => r !! k end
              else r !! k).
  { induction l as [|x l IH]; intros r; [done|]. simpl. rewrite IH.
    destruct (decide (k ∈ map toString l)) as [Hl|Hl].
    - rewrite decide_True by (by right).
      destruct (e !! k) eqn:Hek; [done|].
      destruct (decide (toString x = k)) as [<-|Hne].
      + by rewrite Hek.
      + by apply Hother.
    - destruct (decide (toString x = k)) as [<-|Hne].
      + rewrite decide_True by (by left).
        destruct (e !! toString x); [apply lookup_insert_eq|done].
      + rewrite decide_False.
        * by apply Hother.
        * intros [?|?]%elem_of_cons; congruence. }
  rewrite Hgen, lookup_empty. destruct (e !! k); by case_decide.
Qed.

Lemma maxCount_snoc groups g h :
  maxCount (groups ++ [g]) h
  = Z.max (maxCount groups h) (tripCount (tripTimes g) h).
Proof.
  unfold maxCount. induction groups as [|g' l IH]; simpl.
  - pose proof (tripCount_nonneg (tripTimes g) h). lia.
  - rewrite IH. lia.
Qed.

Lemma maxCount_nonneg groups h : 0 ≤ maxCount groups h.
Proof. unfold maxCount. induction groups; simpl; lia. Qed.

Lemma maxCount_upper groups h g :
  g ∈ groups → tripCount (tripTimes g) h ≤ maxCount groups h.
Proof.
  unfold maxCount. induction groups as [|g' l IH]; intros Hin.
  - by apply elem_of_nil in Hin.
  - simpl. apply elem_of_cons in Hin as [->|Hin]; [lia|].
    specialize (IH Hin). lia.
Qed.

Lemma maxCount_attained groups h :
  groups ≠ [] →
  ∃ g, g ∈ groups ∧ tripCount (tripTimes g) h = maxCount groups h.
Proof.
  unfold maxCount. induction groups as [|g' l IH]; [done|]. intros _. simpl.
  destruct l as [|g'' l].
  - exists g'. split; [left|]. simpl.
    pose proof (tripCount_nonneg (tripTimes g') h). lia.
  - destruct IH as (g & Hin & Hg); [done|].
    destruct (Z.le_ge_cases (tripCount (tripTimes g') h)
                (fold_right (λ g acc, Z.max (tripCount (tripTimes g) h) acc)
                   0 (g'' :: l))).
    + exists g. split; [by right|]. lia.
    + exists g'. split; [left|]. lia.
Qed.

Lemma groupsOfStop_snoc stop groups g :
  groupsOfStop stop (groups ++ [g])
  = (groupsOfStop stop groups ++
     (if String.eqb (stop_id g) stop then [g] else []))%list.
Proof. unfold groupsOfStop. rewrite List.filter_app. simpl. by destruct (_ =? _)%string. Qed.

Lemma elem_of_groupsOfStop stop groups g :
  g ∈ groupsOfStop stop groups ↔ g ∈ groups ∧ stop_id g = stop.
Proof.
  unfold groupsOfStop. rewrite !list_elem_of_In, filter_In.
  by rewrite String.eqb_eq.
Qed.

(** What [stopMaxFrequencies] holds after the groups [seen]: a stop has an
    entry exactly when a group of it was seen, and the entry gives, hour by
    hour, the largest count among the stop's groups. *)
Lemma aggregate_invariant seen stop :
  match fold_left aggregateGroup seen ∅ !! stop with
  | None => groupsOfStop stop seen = []
  | Some e =>
      groupsOfStop stop seen ≠ [] ∧
      (∀ h, (h < 24)%nat →
            e !! toString h = Some (maxCount (groupsOfStop stop seen) h)) ∧
      (∀ k v, e !! k = Some v → k ∈ map toString hours)
  end.
Proof.
  induction seen as [|g seen IH] using rev_ind; [done|].
  rewrite fold_left_app, groupsOfStop_snoc. cbn [fold_left].
  set (m := fold_left aggregateGroup seen ∅) in *.
  unfold aggregateGroup.
  destruct (String.eqb_spec (stop_id g) stop) as [Heq|Hne].
  - subst stop. destruct (m !! stop_id g) as [e|] eqn:Hm.
    + rewrite lookup_insert_eq. destruct IH as (Hne & Hval & Hkeys).
      split; [by destruct (groupsOfStop _ seen)|]. split.
      * intros h Hh. rewrite maxInto_lookup, maxCount_snoc by done.
        unfold num_or_zero. by rewrite Hval, hourlyTripsOf_lookup.
      * intros k v Hk. destruct (decide (k ∈ map toString hours)); [done|].
        rewrite maxInto_keys in Hk by done. eauto.
    + rewrite lookup_insert_eq, IH. split; [done|]. split.
      * intros h Hh. rewrite hourlyTripsOf_lookup by done. f_equal.
        simpl. pose proof (tripCount_nonneg (tripTimes g) h). lia.
      * intros k v (h & Hh & ->)%hourlyTripsOf_keys.
        apply list_elem_of_fmap_2, elem_of_seq. lia.
  - rewrite app_nil_r.
    destruct (m !! stop_id g); by rewrite lookup_insert_ne.
Qed.

(** The aggregation over the group table: the profile that the
    aggregator returns for a stop has, for each hour 0 to 23, the
    largest of the counts that the table holds for the groups of the
    stop: no group has more, one group has exactly that many. Every
    value of the profile is a non-negative integer. *)
Lemma profile_is_max_of_group_counts stopTimes trips activeServiceIds stop
    profile :
  calculateStopFrequencies stopTimes trips activeServiceIds !! stop
    = Some profile →
  let groups :=
    obj_values (stopRouteDirectionHeadways stopTimes trips activeServiceIds) in
  (∀ h, (h < 24)%nat →
     ∃ v, profile !! toString h = Some v ∧
          (∀ g, g ∈ groups → stop_id g = stop →
                tripCount (tripTimes g) h ≤ v) ∧
          (∃ g, g ∈ groups ∧ stop_id g = stop ∧
                tripCount (tripTimes g) h = v)) ∧
  (∀ k v, profile !! k = Some v → 0 ≤ v).
Proof.
  unfold calculateStopFrequencies. case_bool_decide; [by rewrite lookup_empty|].
  rewrite lookup_fmap. unfold stopMaxFrequencies.
  set (groups := obj_values _). intros Hres.
  pose proof (aggregate_invariant groups stop) as Hinv.
  destruct (fold_left aggregateGroup groups ∅ !! stop) as [e|]; [|done].
  simpl in Hres. injection Hres as <-. destruct Hinv as (Hne & Hval & Hkeys).
  assert (Hhour : ∀ h, (h < 24)%nat →
            hourlyTripsStr e !! toString h
            = Some (maxCount (groupsOfStop stop groups) h)).
  { intros h Hh. rewrite hourlyTripsStr_lookup, decide_True; [by apply Hval|].
    apply list_elem_of_fmap_2, elem_of_seq. lia. }
  split.
  - intros h Hh. eexists. split; [by apply Hhour|]. split.
    + intros g Hg Hs. apply maxCount_upper. by apply elem_of_groupsOfStop.
    + destruct (maxCount_attained _ h Hne) as (g & Hg & Hc).
      apply elem_of_groupsOfStop in Hg as [Hg Hs]. eauto.
  - intros k v Hk. rewrite hourlyTripsStr_lookup in Hk.
    case_decide as Hin; [|done].
    apply list_elem_of_fmap in Hin as (h & -> & Hh%elem_of_seq).
    rewrite Hval in Hk by lia. injection Hk as <-. apply maxCount_nonneg.
Qed.

(** With some service active, the stops that get a profile are those
    with a group. *)
Lemma stop_profile_exists stopTimes trips activeServiceIds stop :
  size activeServiceIds ≠ 0%nat →
  is_Some (calculateStopFrequencies stopTimes trips activeServiceIds !! stop) ↔
  ∃ g, g ∈ obj_values
             (stopRouteDirectionHeadways stopTimes trips activeServiceIds) ∧
       stop_id g = stop.
Proof.
  intros Hne. unfold calculateStopFrequencies.
  rewrite bool_decide_eq_false_2 by done.
  rewrite lookup_fmap. unfold stopMaxFrequencies.
  set (groups := obj_values _).
  pose proof (aggregate_invariant groups stop) as Hinv.
  destruct (fold_left aggregateGroup groups ∅ !! stop) as [e|]; simpl.
  - destruct Hinv as (Hsome & _). split; [intros _|by eexists].
    destruct (groupsOfStop stop groups) as [|g l] eqn:Hg; [done|].
    exists g. apply elem_of_groupsOfStop. rewrite Hg. left.
  - split; [by intros [? ?]|]. intros (g & Hg & Hs).
    assert (g ∈ groupsOfStop stop groups) as Hin
      by (by apply elem_of_groupsOfStop).
    rewrite Hinv in Hin. by apply elem_of_nil in Hin.
Qed.

(** ** FrequencyAggregator: counting within a group *)

Lemma obj_get_set {V} (o : list (string * V)) k v k' :
  obj_get (obj_set o k v) k' = if decide (k = k') then Some v else obj_get o k'.
Proof.
  induction o as [|[k0 v0] o IH]; simpl.
  - destruct (String.eqb_spec k k'); by case_decide.
  - destruct (String.eqb_spec k0 k) as [->|Hne]; simpl.
    + destruct (String.eqb_spec k k'); by case_decide.
    + destruct (String.eqb_spec k0 k') as [->|Hne'].
      * by rewrite decide_False by congruence.
      * apply IH.
Qed.

(** The step of the aggregator on a stop time of an active trip, in terms
    of the row it is retained as. *)
Lemma countStopTime_row trips activeServiceIds srdh st :
  st_trip_id st ∈ activeTripsOf trips activeServiceIds →
  match retainedRow trips activeServiceIds st with
  | None => countStopTime (tripInfoOf trips) srdh st = srdh
  | Some (k, hk, t) =>
      ∃ g g',
        countStopTime (tripInfoOf trips) srdh st = obj_set srdh k g' ∧
        (obj_get srdh k = Some g ∨ (obj_get srdh k = None ∧ tripTimes g = ∅)) ∧
        tripTimes g'
        = if ownOrInherited (tripTimes g) t then tripTimes g
          else <[hk := default ∅ (tripTimes g !! hk) ∪ {[t]}]> (tripTimes g)
  end.
Proof.
  intros Hact. unfold retainedRow, countStopTime. cbv zeta.
  rewrite bool_decide_eq_true_2 by done.
  destruct (or_else (arrival_time st) (departure_time st)) as [[|a time]|];
    [done| |reflexivity].
  destruct (tripInfoOf trips !! st_trip_id st) as [trip|]; [|done].
  set (key := groupKey _ _ _). set (hk := numKey _).
  set (g := match obj_get srdh key with Some g => g | None => _ end).
  exists g. eexists. split; [reflexivity|]. split.
  - subst g. destruct (obj_get srdh key); [by left|by right].
  - cbn [tripTimes]. destruct (ownOrInherited (tripTimes g) _); [done|].
    destruct (tripTimes g !! hk) eqn:Hhk; [by rewrite Hhk|].
    rewrite lookup_insert_eq, insert_insert_eq. done.
Qed.

Lemma tripsInHour_snoc rows k hk t key hk' :
  tripsInHour (rows ++ [(k, hk, t)]) key hk'
  = tripsInHour rows key hk' ∪
    (if decide (k = key ∧ hk = hk') then {[t]} else ∅).
Proof.
  unfold tripsInHour. rewrite omap_app, list_to_set_app_L. f_equal. simpl.
  destruct (String.eqb_spec k key), (String.eqb_spec hk hk'); simpl;
    case_decide; try tauto; try done; apply (right_id_L ∅ (∪)).
Qed.

Lemma elem_of_tripsInHour rows key hk t :
  t ∈ tripsInHour rows key hk ↔ (key, hk, t) ∈ rows.
Proof.
  unfold tripsInHour. rewrite elem_of_list_to_set, list_elem_of_omap. split.
  - intros ([[k hk'] t'] & Hin & Hsome).
    destruct (String.eqb_spec k key), (String.eqb_spec hk' hk);
      simpl in Hsome; try done. by simplify_eq.
  - intros Hin. exists (key, hk, t). split; [done|].
    by rewrite !String.eqb_refl.
Qed.

Lemma groupsReflect_step trips activeServiceIds seen srdh st :
  st_trip_id st ∈ activeTripsOf trips activeServiceIds →
  noHourKeyCollision
    (seen ++ option_list (retainedRow trips activeServiceIds st)) →
  noInheritedKey
    (seen ++ option_list (retainedRow trips activeServiceIds st)) →
  groupsReflect seen srdh →
  groupsReflect (seen ++ option_list (retainedRow trips activeServiceIds st))
    (countStopTime (tripInfoOf trips) srdh st).
Proof.
  intros Hact Hcoll Hproto Hinv.
  pose proof (countStopTime_row trips activeServiceIds srdh st Hact) as Hstep.
  destruct (retainedRow trips activeServiceIds st) as [[[k hk] t]|]; simpl in *.
  2:{ rewrite Hstep, app_nil_r. exact Hinv. }
  destruct Hstep as (g & g' & -> & Hg & Htt).
  assert (Hown : tripTimes g !! t = None).
  { destruct (tripTimes g !! t) eqn:Ht; [|done]. exfalso.
    destruct Hg as [Hg|[_ Hg]]; [|by rewrite Hg, lookup_empty in Ht].
    specialize (Hinv k). rewrite Hg in Hinv.
    destruct (Hinv t) as [_ Hsome]. destruct Hsome as [t' Ht']; [by eexists|].
    apply (Hcoll k hk t k t t'); [|apply elem_of_app; by left|done].
    apply elem_of_app. right. by left. }
  assert (Hfresh : ownOrInherited (tripTimes g) t = false).
  { unfold ownOrInherited. rewrite Hown.
    rewrite bool_decide_eq_false_2 by (by intros [? ?]).
    rewrite bool_decide_eq_false_2; [done|].
    apply (Hproto k hk t). apply elem_of_app. right. by left. }
  rewrite Hfresh in Htt.
  assert (Hold : ∀ hk', default ∅ (tripTimes g !! hk') = tripsInHour seen k hk' ∧
                        (is_Some (tripTimes g !! hk') → ∃ t, (k, hk', t) ∈ seen)).
  { intros hk'. specialize (Hinv k). destruct Hg as [Hg|[Hg He]].
    - rewrite Hg in Hinv. apply Hinv.
    - rewrite Hg in Hinv. rewrite He, lookup_empty. simpl.
      split; [by rewrite Hinv|]. by intros [? ?]. }
  intros key. rewrite obj_get_set. case_decide as Hk.
  - subst key. intros hk'. rewrite Htt, tripsInHour_snoc.
    destruct (decide (hk = hk')) as [<-|Hne].
    + rewrite lookup_insert_eq, decide_True by done. simpl.
      split; [by rewrite (proj1 (Hold hk))|].
      intros _. exists t. apply elem_of_app. right. by left.
    + rewrite lookup_insert_ne, decide_False by tauto.
      destruct (Hold hk') as [-> Hs]. split; [by rewrite (right_id_L ∅ (∪))|].
      intros [t' Ht']%Hs. exists t'. apply elem_of_app. by left.
  - specialize (Hinv key). destruct (obj_get srdh key) as [g0|].
    + intros hk'. rewrite tripsInHour_snoc, decide_False by tauto.
      destruct (Hinv hk') as [-> Hs]. split; [by rewrite (right_id_L ∅ (∪))|].
      intros [t' Ht']%Hs. exists t'. apply elem_of_app. by left.
    + intros hk'. rewrite tripsInHour_snoc, decide_False by tauto.
      rewrite Hinv. apply (right_id_L ∅ (∪)).
Qed.

Lemma noHourKeyCollision_sub rows rows' :
  rows' ⊆ rows → noHourKeyCollision rows → noHourKeyCollision rows'.
Proof. intros Hsub Hc k hk t k' hk' t' H1 H2. apply (Hc k hk t k' hk' t'); auto. Qed.

Lemma noInheritedKey_sub rows rows' :
  rows' ⊆ rows → noInheritedKey rows → noInheritedKey rows'.
Proof. intros Hsub Hc k hk t H1. apply (Hc k hk t). auto. Qed.

Lemma omap_cons_option_list {A B} (f : A → option B) x l :
  omap f (x :: l) = (option_list (f x) ++ omap f l)%list.
Proof. simpl. by destruct (f x). Qed.

Lemma groupsReflect_fold trips activeServiceIds l seen srdh :
  (∀ st, st ∈ l → st_trip_id st ∈ activeTripsOf trips activeServiceIds) →
  noHourKeyCollision (seen ++ omap (retainedRow trips activeServiceIds) l) →
  noInheritedKey (seen ++ omap (retainedRow trips activeServiceIds) l) →
  groupsReflect seen srdh →
  groupsReflect (seen ++ omap (retainedRow trips activeServiceIds) l)
    (fold_left (countStopTime (tripInfoOf trips)) l srdh).
Proof.
  revert seen srdh.
  induction l as [|st l IH]; intros seen srdh Hact Hcoll Hproto Hinv.
  - simpl. by rewrite app_nil_r.
  - rewrite omap_cons_option_list, app_assoc in Hcoll, Hproto |- *.
    cbn [fold_left]. apply IH.
    + intros st' Hst'. apply Hact. by right.
    + done.
    + done.
    + apply groupsReflect_step; [apply Hact; left| | |done].
      * eapply noHourKeyCollision_sub; [|exact Hcoll].
        intros x Hx. apply elem_of_app. by left.
      * eapply noInheritedKey_sub; [|exact Hproto].
        intros x Hx. apply elem_of_app. by left.
Qed.

Lemma retainedRows_filter stopTimes trips activeServiceIds :
  omap (retainedRow trips activeServiceIds)
    (List.filter
       (λ st, bool_decide (st_trip_id st ∈ activeTripsOf trips activeServiceIds))
       stopTimes)
  = retainedRows stopTimes trips activeServiceIds.
Proof.
  unfold retainedRows. induction stopTimes as [|st l IH]; [done|].
  rewrite (omap_cons_option_list _ st l). cbn [List.filter].
  destruct (bool_decide _) eqn:Hb.
  - by rewrite omap_cons_option_list, IH.
  - assert (Hrow : retainedRow trips activeServiceIds st = None)
      by (unfold retainedRow; by rewrite Hb).
    by rewrite Hrow, IH.
Qed.

(** Where no trip id is the key of an hour or the name of a member of
    [Object.prototype], the count of a group for an hour is the number
    of distinct trips with a retained stop time in that group and hour. *)
Theorem group_count_is_distinct_trips stopTimes trips activeServiceIds key g h :
  noHourKeyCollision (retainedRows stopTimes trips activeServiceIds) →
  noInheritedKey (retainedRows stopTimes trips activeServiceIds) →
  obj_get (stopRouteDirectionHeadways stopTimes trips activeServiceIds) key
    = Some g →
  tripCount (tripTimes g) h
  = Z.of_nat (size (distinctTripIds stopTimes trips activeServiceIds key h)).
Proof.
  intros Hcoll Hproto Hg. unfold stopRouteDirectionHeadways in Hg.
  pose proof (groupsReflect_fold trips activeServiceIds
                (List.filter
                   (λ st, bool_decide
                            (st_trip_id st ∈ activeTripsOf trips activeServiceIds))
                   stopTimes) [] []) as Hinv.
  rewrite retainedRows_filter in Hinv. simpl in Hinv.
  specialize (Hinv
    ltac:(intros st [_ Hst%bool_decide_eq_true]%list_elem_of_In%filter_In; exact Hst)
    Hcoll Hproto ltac:(intros k; simpl; done) key).
  rewrite Hg in Hinv. destruct (Hinv (toString h)) as [Hcount _].
  unfold tripCount, distinctTripIds. rewrite <- Hcount.
  by destruct (tripTimes g !! toString h).
Qed.

(** ** The calendar arithmetic of [Date] *)

(** Day numbers and calendar fields agree: the fields of a day number are
    a month from 1 to 12 and a day from 1 to 31, and name that day. *)
Lemma days_from_civil_from_days z :
  let '(y, m, d) := civil_from_days z in
  1 ≤ m ≤ 12 ∧ 1 ≤ d ≤ 31 ∧ days_from_civil y m d = z.
Proof.
  unfold civil_from_days, days_from_civil.
  set (z' := z + 719468).
  set (era := z' / 146097).
  set (doe := z' - era * 146097).
  assert (Hdoe : 0 ≤ doe < 146097)
    by (subst doe era; Z.div_mod_to_equations; lia).
  set (yoe := (doe - doe / 1460 + doe / 36524 - doe / 146096) / 365).
  set (doy := doe - (365 * yoe + yoe / 4 - yoe / 100)).
  set (mp := (5 * doy + 2) / 153).
  assert (Hyoe : 0 ≤ yoe ≤ 399) by (subst yoe; Z.div_mod_to_equations; lia).
  assert (Hdoy : 0 ≤ doy ≤ 365)
    by (subst doy yoe; Z.div_mod_to_equations; lia).
  assert (Hmp : 0 ≤ mp ≤ 11) by (subst mp; Z.div_mod_to_equations; lia).
  destruct (Z.ltb_spec mp 10).
  - destruct (Z.leb_spec (mp + 3) 2); [lia|].
    destruct (Z.ltb_spec 2 (mp + 3)); [|lia].
    split; [lia|]. split; [subst mp; Z.div_mod_to_equations; lia|].
    replace (mp + 3 - 3) with mp by lia.
    replace ((yoe + era * 400) / 400) with era
      by (Z.div_mod_to_equations; lia).
    replace (yoe + era * 400 - era * 400) with yoe by lia.
    unfold doy, doe, z'. lia.
  - destruct (Z.leb_spec (mp - 9) 2); [|lia].
    destruct (Z.ltb_spec 2 (mp - 9)); [lia|].
    split; [lia|]. split; [subst mp; Z.div_mod_to_equations; lia|].
    replace (mp - 9 + 9) with mp by lia.
    replace ((yoe + era * 400 + 1 - 1) / 400) with era
      by (Z.div_mod_to_equations; lia).
    replace (yoe + era * 400 + 1 - 1 - era * 400) with yoe by lia.
    unfold doy, doe, z'. lia.
Qed.

(** Conversely, the day number of a day of the calendar has the fields of
    that day: the two conversions are inverse to each other. *)
Lemma civil_from_days_from_civil y m d :
  1 ≤ m ≤ 12 → 1 ≤ d ≤ daysInMonth y m →
  civil_from_days (days_from_civil y m d) = (y, m, d).
Proof.
  intros Hm Hd. unfold days_from_civil.
  set (y' := if m <=? 2 then y - 1 else y).
  set (era := y' / 400).
  set (yoe := y' - era * 400).
  set (mp := if 2 <? m then m - 3 else m + 9).
  set (doy := (153 * mp + 2) / 5 + d - 1).
  set (doe := yoe * 365 + yoe / 4 - yoe / 100 + doy).
  set (leapNext := (yoe + 1) mod 4 = 0 ∧
                   ((yoe + 1) mod 100 ≠ 0 ∨ yoe + 1 = 400)).
  set (leapThis := yoe mod 4 = 0 ∧ (yoe mod 100 ≠ 0 ∨ yoe = 0)).
  assert (Hyoe : 0 ≤ yoe ≤ 399)
    by (subst yoe era; Z.div_mod_to_equations; lia).
  assert (Hmp : 0 ≤ mp ≤ 11 ∧ m = (if mp <? 10 then mp + 3 else mp - 9)).
  { subst mp. destruct (Z.ltb_spec 2 m).
    - rewrite (proj2 (Z.ltb_lt _ _)) by lia. lia.
    - rewrite (proj2 (Z.ltb_ge _ _)) by lia. lia. }
  assert (Hleap : isLeapYear y = true ↔
            ((mp = 10 ∨ mp = 11) ∧ leapNext) ∨ (mp < 10 ∧ leapThis)).
  { unfold isLeapYear, leapNext, leapThis.
    rewrite orb_true_iff, andb_true_iff, negb_true_iff, !Z.eqb_eq, Z.eqb_neq.
    subst mp yoe era y'.
    destruct (Z.leb_spec m 2), (Z.ltb_spec 2 m); try lia;
      Z.div_mod_to_equations; lia. }
  assert (Hdoy : 0 ≤ doy ≤ 365 ∧ (doy = 365 → leapNext) ∧
                 (5 * doy + 2) / 153 = mp).
  { unfold daysInMonth in Hd. unfold leapNext, leapThis in *.
    assert (Hcases : m = 1 ∨ m = 2 ∨ m = 3 ∨ m = 4 ∨ m = 5 ∨ m = 6 ∨
                     m = 7 ∨ m = 8 ∨ m = 9 ∨ m = 10 ∨ m = 11 ∨ m = 12) by lia.
    destruct (isLeapYear y) eqn:Hl.
    - apply proj1 in Hleap. specialize (Hleap eq_refl). subst doy mp.
      destruct Hcases
        as [->|[->|[->|[->|[->|[->|[->|[->|[->|[->|[->| ->]]]]]]]]]]];
        simpl in *; (split; [|split]; Z.div_mod_to_equations; lia).
    - assert (Hnl : ¬ (((mp = 10 ∨ mp = 11) ∧
                        (yoe + 1) mod 4 = 0 ∧
                        ((yoe + 1) mod 100 ≠ 0 ∨ yoe + 1 = 400)) ∨
                       (mp < 10 ∧ yoe mod 4 = 0 ∧ (yoe mod 100 ≠ 0 ∨ yoe = 0))))
        by (rewrite <- Hleap; done).
      subst doy mp.
      destruct Hcases
        as [->|[->|[->|[->|[->|[->|[->|[->|[->|[->|[->| ->]]]]]]]]]]];
        simpl in *; (split; [|split]; Z.div_mod_to_equations; lia). }
  destruct Hdoy as (Hdoy & Hlast & Hmp'). unfold leapNext in Hlast.
  unfold civil_from_days.
  replace (era * 146097 + doe - 719468 + 719468) with (era * 146097 + doe)
    by lia.
  assert (Hdoe : 0 ≤ doe < 146097)
    by (subst doe; Z.div_mod_to_equations; lia).
  replace ((era * 146097 + doe) / 146097) with era
    by (Z.div_mod_to_equations; lia).
  replace (era * 146097 + doe - era * 146097) with doe by lia.
  assert (Hyoe' : (doe - doe / 1460 + doe / 36524 - doe / 146096) / 365 = yoe)
    by (subst doe; Z.div_mod_to_equations; lia).
  rewrite Hyoe'.
  replace (doe - (365 * yoe + yoe / 4 - yoe / 100)) with doy
    by (subst doe; lia).
  rewrite Hmp'. destruct Hmp as [Hmp Hm']. rewrite <- Hm'.
  f_equal; [f_equal|].
  - subst yoe y'. destruct (Z.leb_spec m 2); lia.
  - subst doy. lia.
Qed.

(** Thursday 1 January 1970 is day 0; 3 September 2025 is a Wednesday;
    29 February 2024 is followed by 1 March. *)
Example calendar_days :
  days_from_civil 1970 1 1 = 0 ∧
  weekDay (days_from_civil 2025 9 3) = 3 ∧
  civil_from_days (days_from_civil 2024 2 29 + 1) = (2024, 3, 1) ∧
  civil_from_days (days_from_civil 2025 2 28 + 1) = (2025, 3, 1).
Proof. repeat split; vm_compute; reflexivity. Qed.

Lemma days_from_civil_day y m d :
  days_from_civil y m d = days_from_civil y m 1 + d - 1.
Proof. unfold days_from_civil. lia. Qed.

Lemma MakeDay_in_range y m d :
  1 ≤ m ≤ 12 → MakeDay y (m - 1) d = days_from_civil y m d.
Proof.
  intros Hm. unfold MakeDay.
  replace ((m - 1) / 12) with 0 by (Z.div_mod_to_equations; lia).
  replace ((m - 1) mod 12) with (m - 1) by (Z.div_mod_to_equations; lia).
  rewrite (days_from_civil_day y m d).
  replace (y + 0) with y by lia. replace (m - 1 + 1) with m by lia. lia.
Qed.

(** [dt.setDate(dt.getDate() + 1)] is the next day. *)
Lemma setDate_next t :
  setDate (Some t) (num_add (getDate (Some t)) 1) = Some (t + 1).
Proof.
  unfold setDate, getDate, num_add. cbn [fmap option_fmap option_map].
  pose proof (days_from_civil_from_days t) as Hrt.
  destruct (civil_from_days t) as [[y m] d]. cbn [snd].
  destruct Hrt as (Hm & _ & Hd).
  rewrite MakeDay_in_range by done.
  rewrite days_from_civil_day. rewrite days_from_civil_day in Hd.
  f_equal. lia.
Qed.

(** The loop stops on the first Wednesday, after at most six steps. *)
Lemma firstWednesday_steps n fuel t :
  (n ≤ fuel)%nat →
  weekDay (t + Z.of_nat n) = 3 →
  (∀ j, 0 ≤ j < Z.of_nat n → weekDay (t + j) ≠ 3) →
  firstWednesday fuel (Some t) = Some (Some (t + Z.of_nat n)).
Proof.
  revert fuel t. induction n as [|n IH]; intros fuel t Hfuel Hw Hbefore.
  - replace (t + Z.of_nat 0) with t in * by lia.
    assert (Hd : getDay (Some t) = Some 3).
    { unfold getDay. simpl. f_equal. exact Hw. }
    destruct fuel; simpl; by rewrite bool_decide_eq_true_2.
  - destruct fuel as [|fuel]; [lia|]. simpl.
    rewrite bool_decide_eq_false_2.
    + change (firstWednesday fuel
                (setDate (Some t) (num_add (getDate (Some t)) 1))
              = Some (Some (t + Z.of_nat (S n)))).
      rewrite setDate_next, (IH fuel (t + 1)).
      * do 2 f_equal. lia.
      * lia.
      * rewrite <- Hw. f_equal. lia.
      * intros j Hj. replace (t + 1 + j) with (t + (j + 1)) by lia.
        apply Hbefore. lia.
    + intros [= Heq]. apply (Hbefore 0); [lia|].
      unfold weekDay. by replace (t + 0) with t by lia.
Qed.

Lemma firstWednesday_valid fuel t :
  (6 ≤ fuel)%nat →
  ∃ w, firstWednesday fuel (Some t) = Some (Some w) ∧ firstWednesdayFrom t w.
Proof.
  intros Hfuel.
  set (n := (3 - weekDay t) mod 7).
  assert (Hn : 0 ≤ n < 7) by (subst n; Z.div_mod_to_equations; lia).
  assert (Hw : weekDay (t + n) = 3).
  { subst n. unfold weekDay. Z.div_mod_to_equations. lia. }
  assert (Hbefore : ∀ j, 0 ≤ j < n → weekDay (t + j) ≠ 3).
  { intros j Hj. subst n. unfold weekDay in *. Z.div_mod_to_equations. lia. }
  exists (t + n). split.
  - rewrite <- (Z2Nat.id n) by lia. apply firstWednesday_steps.
    + lia.
    + by rewrite Z2Nat.id by lia.
    + intros j Hj. apply Hbefore. lia.
  - split; [lia|]. split; [done|]. intros u Hu.
    replace u with (t + (u - t)) by lia. apply Hbefore. lia.
Qed.

(** On an invalid date the loop never stops. *)
Lemma firstWednesday_invalid fuel : firstWednesday fuel None = None.
Proof. induction fuel as [|fuel IH]; [done|]. simpl. exact IH. Qed.

(** ** The order of strings and [sort] *)

Lemma string_leb_trans s1 s2 s3 :
  String.leb s1 s2 = true → String.leb s2 s3 = true → String.leb s1 s3 = true.
Proof.
  unfold String.leb. revert s2 s3.
  induction s1 as [|c1 s1 IH]; intros [|c2 s2] [|c3 s3]; simpl; try done.
  unfold Ascii.compare.
  destruct (N.compare_spec (N_of_ascii c1) (N_of_ascii c2)) as [H12|H12|H12];
    [| |done];
    destruct (N.compare_spec (N_of_ascii c2) (N_of_ascii c3)) as [H23|H23|H23];
    try done;
    destruct (N.compare_spec (N_of_ascii c1) (N_of_ascii c3)) as [H13|H13|H13];
    try done; try lia.
  apply IH.
Qed.

Lemma string_leb_refl s : String.leb s s = true.
Proof. by destruct (String.leb_total s s). Qed.

Lemma sort_insert_elem x l y : y ∈ sort_insert x l ↔ y = x ∨ y ∈ l.
Proof.
  induction l as [|z l IH]; simpl.
  - rewrite list_elem_of_singleton, elem_of_nil. tauto.
  - destruct (String.leb x z); rewrite !elem_of_cons; [done|].
    rewrite IH. tauto.
Qed.

Lemma js_sort_elem l y : y ∈ js_sort l ↔ y ∈ l.
Proof.
  induction l as [|x l IH]; simpl; [done|].
  rewrite sort_insert_elem, elem_of_cons, IH. done.
Qed.

Lemma sort_insert_sorted x l :
  StronglySorted (λ a b, String.leb a b = true) l →
  StronglySorted (λ a b, String.leb a b = true) (sort_insert x l).
Proof.
  induction 1 as [|z l Hs IH Hz]; simpl.
  - repeat constructor.
  - destruct (String.leb x z) eqn:Hxz.
    + constructor; [by constructor|]. constructor; [done|].
      eapply Forall_impl; [exact Hz|]. simpl.
      intros w Hw. by eapply string_leb_trans.
    + constructor; [done|]. apply Forall_forall. intros w Hw.
      apply sort_insert_elem in Hw as [->|Hw].
      * destruct (String.leb_total x z); congruence.
      * rewrite Forall_forall in Hz. by apply Hz.
Qed.

Lemma js_sort_sorted l :
  StronglySorted (λ a b, String.leb a b = true) (js_sort l).
Proof.
  induction l as [|x l IH]; simpl; [constructor|]. by apply sort_insert_sorted.
Qed.

(** The last element of the sorted array is the latest string. *)
Lemma js_sort_last l d : last (js_sort l) = Some d → isLatest d l.
Proof.
  intros Hlast. unfold isLatest.
  assert (Hgen : ∀ l', StronglySorted (λ a b, String.leb a b = true) l' →
            last l' = Some d →
            d ∈ l' ∧ ∀ y, y ∈ l' → String.leb y d = true).
  { induction 1 as [|z l' Hs IH Hz]; [done|].
    destruct l' as [|z' l'].
    - intros [= ->]. split; [left|].
      intros y ->%list_elem_of_singleton. apply string_leb_refl.
    - intros Hl. change (last (z' :: l') = Some d) in Hl.
      destruct (IH Hl) as [Hin Hup]. split; [by right|].
      intros y [->|Hy]%elem_of_cons; [|by apply Hup].
      rewrite Forall_forall in Hz. by apply Hz. }
  destruct (Hgen _ (js_sort_sorted l) Hlast) as [Hin Hup]. split.
  - by apply js_sort_elem.
  - intros y Hy. by apply Hup, js_sort_elem.
Qed.

Lemma js_sort_last_is_Some l : l ≠ [] → is_Some (last (js_sort l)).
Proof.
  intros Hne. destruct (last (js_sort l)) eqn:Hl; [by eexists|].
  apply last_None in Hl. destruct l as [|x l]; [done|].
  assert (x ∈ js_sort (x :: l)) as Hx by (apply js_sort_elem; left).
  rewrite Hl in Hx. by apply elem_of_nil in Hx.
Qed.

(** ** [parseInt] on strings of digits *)

Lemma digit_value_digit c :
  isDigit c = true → digit_value 10 c = Some (digitVal c).
Proof.
  unfold isDigit, digit_value, char_value, digitVal.
  intros [H1 H2]%andb_true_iff. apply Nat.leb_le in H1, H2.
  rewrite (proj2 (andb_true_iff _ _)) by (split; apply Z.leb_le; lia).
  by rewrite (proj2 (Z.ltb_lt _ _)) by lia.
Qed.

Lemma parse_digits_decimal s acc :
  forallb isDigit (list_ascii_of_string s) = true →
  parse_digits 10 s (Some acc) = Some (decimalFrom acc s).
Proof.
  revert acc. induction s as [|c s IH]; intros acc; [done|]. simpl.
  intros [Hc Hs]%andb_true_iff. rewrite digit_value_digit by done.
  rewrite IH by done. done.
Qed.

Lemma isDigit_cases c :
  isDigit c = true →
  c ∈ ["0"; "1"; "2"; "3"; "4"; "5"; "6"; "7"; "8"; "9"]%char.
Proof.
  destruct c as [[] [] [] [] [] [] [] []]; intros H;
    vm_compute in H; try discriminate H; set_solver.
Qed.

Lemma decimalFrom_nonneg acc s :
  forallb isDigit (list_ascii_of_string s) = true →
  0 ≤ acc → 0 ≤ decimalFrom acc s.
Proof.
  unfold decimalFrom. revert acc.
  induction s as [|c s IH]; intros acc; [done|]. simpl.
  intros [Hc Hs]%andb_true_iff Hacc. apply IH; [done|].
  unfold isDigit in Hc. apply andb_true_iff in Hc as [Hc _].
  apply Nat.leb_le in Hc. unfold digitVal. lia.
Qed.

(** A string of [n] digits writes a number below [10^n]. *)
Lemma decimalFrom_bound acc s :
  forallb isDigit (list_ascii_of_string s) = true →
  0 ≤ acc →
  decimalFrom acc s < (acc + 1) * 10 ^ Z.of_nat (String.length s).
Proof.
  unfold decimalFrom. revert acc.
  induction s as [|c s IH]; intros acc; [simpl; lia|].
  cbn [list_ascii_of_string forallb fold_left String.length].
  intros [Hc Hs]%andb_true_iff Hacc.
  unfold isDigit in Hc. apply andb_true_iff in Hc as [Hc1 Hc2].
  apply Nat.leb_le in Hc1, Hc2.
  assert (Hd : 0 ≤ digitVal c ≤ 9) by (unfold digitVal; lia).
  specialize (IH (10 * acc + digitVal c) Hs ltac:(lia)).
  rewrite Nat2Z.inj_succ, Z.pow_succ_r by lia.
  pose proof (Z.pow_pos_nonneg 10 (Z.of_nat (String.length s))
                ltac:(lia) ltac:(lia)).
  nia.
Qed.

Lemma roundToDouble_small z : Z.abs z ≤ 2 ^ 53 → roundToDouble z = Some z.
Proof.
  intros Hz. unfold roundToDouble. cbv zeta.
  by rewrite (proj2 (Z.leb_le _ _)) by exact Hz.
Qed.

Lemma roundToDouble_nonneg (z y : Z) :
  0 ≤ z → roundToDouble z = Some y → 0 ≤ y.
Proof.
  intros Hz. unfold roundToDouble. cbv zeta.
  destruct (Z.abs z <=? 2 ^ 53) eqn:Hsmall; [by intros [= <-]|].
  destruct (2 ^ 1024 <=? _); [done|]. intros [= <-].
  apply Z.leb_gt in Hsmall. rewrite Z.abs_eq in * by done.
  set (k := Z.log2 z - 52).
  assert (Hk : 0 ≤ k).
  { assert (53 ≤ Z.log2 z); [|lia]. apply Z.log2_le_pow2; lia. }
  assert (Hp : 0 < 2 ^ k) by (apply Z.pow_pos_nonneg; lia).
  assert (Hq : 0 ≤ z / 2 ^ k) by (apply Z.div_pos; lia).
  assert (Hs : Z.sgn z = 1) by (apply Z.sgn_pos; lia).
  rewrite Hs. destruct (_ || _); nia.
Qed.

(** A non-empty string of decimal digits is read as the double nearest
    to the number it writes. *)
Lemma parseInt_digits_rounded s :
  s ≠ "" → forallb isDigit (list_ascii_of_string s) = true →
  parseInt s = roundToDouble (decimal s).
Proof.
  destruct s as [|c s]; [done|]. intros _ Hall.
  assert (Hrest : parse_digits 10 (String c s) None = Some (decimal (String c s))).
  { simpl in Hall |- *. apply andb_true_iff in Hall as [Hc Hs].
    rewrite digit_value_digit by done. simpl.
    by rewrite parse_digits_decimal. }
  assert (Hsign : parse_digits 10 (String c s) None ≫=
                    (λ mathInt, roundToDouble (1 * mathInt))
                  = roundToDouble (decimal (String c s))).
  { rewrite Hrest. simpl. f_equal. destruct (decimal _); done. }
  simpl in Hall. apply andb_true_iff in Hall as [Hc Hs].
  apply isDigit_cases in Hc. set_unfold in Hc.
  destruct Hc as [->|[->|[->|[->|[->|[->|[->|[->|[->|[->|[]]]]]]]]]]];
    try exact Hsign.
  destruct s as [|c' s]; [exact Hsign|].
  simpl in Hs. apply andb_true_iff in Hs as [Hc' Hs].
  apply isDigit_cases in Hc'. set_unfold in Hc'.
  destruct Hc' as [->|[->|[->|[->|[->|[->|[->|[->|[->|[->|[]]]]]]]]]]];
    exact Hsign.
Qed.

(** When the number is at most [2^53], it is read as written. *)
Lemma parseInt_digits s :
  s ≠ "" → forallb isDigit (list_ascii_of_string s) = true →
  decimal s ≤ 2 ^ 53 →
  parseInt s = Some (decimal s).
Proof.
  intros Hne Hall Hle.
  pose proof (decimalFrom_nonneg 0 _ Hall ltac:(lia)) as Hpos.
  fold (decimal s) in Hpos.
  rewrite parseInt_digits_rounded by done.
  apply roundToDouble_small. lia.
Qed.

(** So is a string of at most 15 digits. *)
Lemma parseInt_short_digits s :
  s ≠ "" → forallb isDigit (list_ascii_of_string s) = true →
  (String.length s ≤ 15)%nat →
  parseInt s = Some (decimal s).
Proof.
  intros Hne Hall Hlen. apply parseInt_digits; [done|done|].
  pose proof (decimalFrom_bound 0 s Hall ltac:(lia)) as Hb.
  fold (decimal s) in Hb.
  assert (10 ^ Z.of_nat (String.length s) ≤ 10 ^ 15)
    by (apply Z.pow_le_mono_r; lia).
  change (2 ^ 53) with 9007199254740992. change (10 ^ 15) with 1000000000000000 in *.
  lia.
Qed.

(** ** ServiceCalendarSelector *)

Lemma isWeekdayEntry_iff c : isWeekdayEntry c = true ↔ activeMondayToFriday c.
Proof.
  unfold isWeekdayEntry, activeMondayToFriday.
  rewrite !andb_true_iff, !String.eqb_eq. tauto.
Qed.

Lemma elem_of_startDatesOf entries d :
  d ∈ startDatesOf entries ↔
  ∃ c, c ∈ entries ∧ start_date c = Some d ∧ d ≠ "".
Proof.
  unfold startDatesOf. rewrite list_elem_of_omap. split.
  - intros (c & Hc & Hd). exists c. split; [done|].
    destruct (start_date c) as [[|a s]|]; simpl in Hd; try done.
    injection Hd as <-. done.
  - intros (c & Hc & Hd & Hne). exists c. split; [done|].
    rewrite Hd. by destruct d.
Qed.

Lemma activeOn_iff d c : activeOn d c = true ↔ intervalContains c d.
Proof.
  unfold activeOn, intervalContains, startOrDefault, endOrDefault, or_else.
  rewrite andb_true_iff.
  by destruct (start_date c) as [[|??]|], (end_date c) as [[|??]|].
Qed.

Lemma isLatest_unique d d' dates : isLatest d dates → isLatest d' dates → d = d'.
Proof.
  intros [Hin Hup] [Hin' Hup']. apply String.leb_antisym; [by apply Hup'|by apply Hup].
Qed.

(** The fields of a well-formed date are read as written, and [new Date]
    gives the day the string names. *)
Lemma calendarDate_newDate s :
  isCalendarDate s = true →
  newDate (parseInt (substring 0 4 s))
          (num_add (parseInt (substring 4 2 s)) (-1))
          (parseInt (substring 6 2 s))
  = Some (dayNumber s).
Proof.
  unfold isCalendarDate, dayNumber. rewrite !andb_true_iff.
  intros ((((((Hlen & Hdig) & Hy) & Hm1) & Hm2) & Hd1) & Hd2).
  assert (Hf : parseInt (substring 0 4 s) = Some (yearField s) ∧
               parseInt (substring 4 2 s) = Some (monthField s) ∧
               parseInt (substring 6 2 s) = Some (dayField s)).
  { unfold yearField, monthField, dayField.
    do 8 (destruct s as [|? s]; [done|]). destruct s; [|done].
    simpl in Hdig. repeat (apply andb_true_iff in Hdig as [? Hdig]).
    repeat split; apply parseInt_short_digits;
      cbn [substring list_ascii_of_string forallb String.length];
      try done; try lia;
      rewrite !andb_true_iff; tauto. }
  destruct Hf as (-> & -> & ->). simpl.
  apply Z.leb_le in Hy, Hm1, Hm2.
  rewrite (proj2 (andb_false_iff _ _)) by (right; apply Z.leb_gt; lia).
  f_equal. replace (monthField s + -1) with (monthField s - 1) by lia.
  by apply MakeDay_in_range.
Qed.

(** C8. When no calendar entry is active on all of Monday to Friday the
    selection returns the empty set (whatever the loop bound: the loop is
    not reached), and the aggregation of any feed under an empty set of
    active services is the empty map. *)
Theorem no_weekday_service_is_empty calendar fuel stopTimes trips :
  (∀ c, c ∈ calendar → ¬ activeMondayToFriday c) →
  getRelevantServiceIds fuel calendar = Some ∅ ∧
  calculateStopFrequencies stopTimes trips ∅ = ∅.
Proof.
  intros Hnone. split; [|done].
  unfold getRelevantServiceIds.
  assert (Hnil : List.filter isWeekdayEntry calendar = []).
  { induction calendar as [|c l IH]; [done|]. simpl.
    destruct (isWeekdayEntry c) eqn:Hc.
    - apply isWeekdayEntry_iff in Hc. destruct (Hnone c); [left|done].
    - apply IH. intros c' Hc'. apply Hnone. by right. }
  by rewrite Hnil.
Qed.

(** A calendar with weekend service only: nothing is selected and no
    profile is produced. *)
Lemma no_weekday_service_is_empty_witness :
  (∀ c, c ∈ weekendCalendar → ¬ activeMondayToFriday c) ∧
  getRelevantServiceIds 0 weekendCalendar = Some ∅ ∧
  calculateStopFrequencies [] [] ∅ = ∅.
Proof.
  assert (H : ∀ c, c ∈ weekendCalendar → ¬ activeMondayToFriday c).
  { intros c Hc. unfold weekendCalendar in Hc.
    apply list_elem_of_singleton in Hc as ->.
    intros (Hmon & _). simpl in Hmon. discriminate Hmon. }
  split; [exact H|].
  exact (no_weekday_service_is_empty weekendCalendar 0 [] [] H).
Defined.

(** The selection, unfolded at the latest start date. *)
Lemma getRelevantServiceIds_latest calendar fuel latest :
  isLatest latest (weekdayStartDates calendar) →
  getRelevantServiceIds fuel calendar
  = match firstWednesday fuel
            (newDate (parseInt (substring 0 4 latest))
                     (num_add (parseInt (substring 4 2 latest)) (-1))
                     (parseInt (substring 6 2 latest))) with
    | None => None
    | Some wednesdayDate =>
        Some (list_to_set
                (map c_service_id
                   (List.filter (activeOn (dateStr wednesdayDate))
                      (List.filter isWeekdayEntry calendar))))
    end.
Proof.
  intros Hlatest. unfold getRelevantServiceIds. cbv zeta.
  change (startDatesOf (List.filter isWeekdayEntry calendar))
    with (weekdayStartDates calendar).
  assert (Hne : weekdayStartDates calendar ≠ []).
  { destruct Hlatest as [Hin _]. intros Hnil. rewrite Hnil in Hin.
    by apply elem_of_nil in Hin. }
  destruct (length (List.filter isWeekdayEntry calendar) =? 0)%nat eqn:Hlen.
  { apply Nat.eqb_eq, length_zero_iff_nil in Hlen.
    unfold weekdayStartDates in Hne. by rewrite Hlen in Hne. }
  destruct (js_sort_last_is_Some _ Hne) as [d Hd]. rewrite Hd.
  apply js_sort_last in Hd.
  by rewrite (isLatest_unique _ _ _ Hd Hlatest).
Qed.


Lemma sampleCalendar_latest :
  isLatest "20250830" (weekdayStartDates sampleCalendar).
Proof.
  split.
  - vm_compute. left.
  - intros d Hd. vm_compute in Hd.
    apply elem_of_cons in Hd as [->|Hd]; [reflexivity|].
    apply list_elem_of_singleton in Hd as ->. reflexivity.
Defined.


(** On the sample calendar the Wednesday is 3 September 2025, and the
    services selected are FALL and OPEN: SUMMER ends on 1 September. *)
Example sampleCalendar_selection :
  dateStr (Some (dayNumber "20250830" + 4)) = "20250903" ∧
  weekDay (dayNumber "20250830" + 4) = 3 ∧
  getRelevantServiceIds 6 sampleCalendar = Some {[ "FALL"; "OPEN" ]}.
Proof. repeat split; vm_compute; reflexivity. Qed.

(** When the fields of the latest start date do not give a date, the
    loop runs forever: no bound on its steps lets the selection return. *)
Lemma getRelevantServiceIds_invalid calendar fuel latest :
  isLatest latest (weekdayStartDates calendar) →
  newDate (parseInt (substring 0 4 latest))
          (num_add (parseInt (substring 4 2 latest)) (-1))
          (parseInt (substring 6 2 latest)) = None →
  getRelevantServiceIds fuel calendar = None.
Proof.
  intros Hlatest Hnew.
  by rewrite (getRelevantServiceIds_latest _ _ _ Hlatest), Hnew,
    firstWednesday_invalid.
Qed.


(** A year below 100 is taken as 1900 plus the year: from 1 January of
    the year 50 the script arrives at 4 January 1950. *)
Example two_digit_year :
  dateStr <$> firstWednesday 6
    (newDate (parseInt (substring 0 4 "00500101"))
             (num_add (parseInt (substring 4 2 "00500101")) (-1))
             (parseInt (substring 6 2 "00500101")))
  = Some "19500104".
Proof. vm_compute. reflexivity. Qed.

(** ** CatchmentResolver and CoverageMerger *)

Section EngineFacts.
Context {Polygon : Type} `{!Turf Polygon}.
Implicit Types (isochrones : gmap string (IsoData Polygon)).

Lemma firstIsochrone_cons isochrones key rest :
  firstIsochrone isochrones (Some key :: rest)
  = match contourAt isochrones key with
    | Some p => Some p
    | None => firstIsochrone isochrones rest
    end.
Proof.
  unfold contourAt. simpl.
  destruct (isochrones !! key) as [iso|]; simpl; [|done].
  by destruct (isochrone_10min iso).
Qed.

(** C7. For a stop with an id, the catchment is the 10-minute contour
    stored under the first of the keys year_soundtransit_id,
    year_metro_id, id that has one, the year being 2025 for a regular
    stop viewed in the 2027 scenario and the selected year otherwise;
    when none of the three keys has a contour it is the circle around
    (lon, lat) of radius [HALF_MILE_METERS / 1000] = 0.804672 km with
    32 steps. The resolver is a total function: it always yields a
    polygon. *)
Theorem catchment_resolution isochrones selectedYear stop :
  fs_id stop ≠ "" →
  let year := if String.eqb selectedYear "2027" && negb (isFuture stop)
              then "2025" else selectedYear in
  walkshedOf isochrones selectedYear stop
  = match contourAt isochrones (year ++ "_soundtransit_" ++ fs_id stop),
          contourAt isochrones (year ++ "_metro_" ++ fs_id stop),
          contourAt isochrones (fs_id stop) with
    | Some p, _, _ => p
    | None, Some p, _ => p
    | None, None, Some p => p
    | None, None, None =>
        circle (fs_lon stop, fs_lat stop) (HALF_MILE_METERS / 1000)
          {| steps := 32; units := "kilometers" |}
    end
  ∧ (HALF_MILE_METERS / 1000 == 804672 # 1000000)%Q.
Proof.
  intros Hid year. split; [|reflexivity].
  unfold walkshedOf, findIsochroneForStop, possibleKeys, stopIdOf, or_else.
  fold year.
  replace (isochroneYearOf stop selectedYear) with year by done.
  destruct (fs_id stop) as [|a id] eqn:Heq; [done|].
  cbn [str_truthy tmpl default from_option Datatypes.id].
  rewrite !firstIsochrone_cons.
  by destruct (contourAt isochrones (year ++ "_soundtransit_" ++ String a id)),
    (contourAt isochrones (year ++ "_metro_" ++ String a id)),
    (contourAt isochrones (String a id)).
Qed.

(** The loop over indices is the fold over the rest of the array. *)
Lemma unionLoop_fold (done_ rest : list Polygon) acc :
  unionLoop (done_ ++ rest) (length rest) (length done_) acc
  = fold_left unionOrKeep rest acc.
Proof.
  revert done_ acc. induction rest as [|w rest IH]; intros done_ acc; [done|].
  cbn [length unionLoop fold_left].
  rewrite list_lookup_middle by done.
  replace (done_ ++ w :: rest)%list with ((done_ ++ [w]) ++ rest)%list
    by (by rewrite <- app_assoc).
  replace (S (length done_)) with (length (done_ ++ [w]))
    by (rewrite length_app; simpl; lia).
  apply IH.
Qed.

Lemma mergeWalksheds_fold (walksheds : list Polygon) :
  mergeWalksheds walksheds = unionFold walksheds.
Proof.
  unfold mergeWalksheds, unionFold. destruct walksheds as [|w ws]; [done|].
  replace (length (w :: ws) - 1)%nat with (length ws) by (simpl; lia).
  apply (unionLoop_fold [w] ws).
Qed.

Lemma fold_unionOrKeep_raising (ws : list Polygon) acc :
  (∀ a b, union a b = Raised) → fold_left unionOrKeep ws acc = acc.
Proof.
  intros Hraise. induction ws as [|w ws IH]; [done|]. simpl.
  unfold unionOrKeep at 2. by rewrite Hraise.
Qed.

(** C6. The merge of the walksheds is the left fold of [union] over
    them in which a step whose union raises keeps the accumulator it
    had. A raising union does not reach the outer handler: without a
    boundary, the merged polygon that the coverage computation returns
    is that fold whenever its area can be measured, and when every
    union raises it is the first walkshed. *)
Theorem union_failures_are_skipped :
  (∀ walksheds : list Polygon, mergeWalksheds walksheds = unionFold walksheds) ∧
  (∀ (acc : option Polygon) w ws,
      union acc (Some w) = Raised →
      fold_left unionOrKeep (w :: ws) acc = fold_left unionOrKeep ws acc) ∧
  (∀ isochrones selectedYear stopList a,
      stopList ≠ [] →
      area (unionFold (map (walkshedOf isochrones selectedYear) stopList))
        = Returned a →
      calculateWalkshedCoverage true isochrones selectedYear stopList None
      = {| mergedPolygon :=
             unionFold (map (walkshedOf isochrones selectedYear) stopList);
           mergedPolygonOutOfBounds := None;
           coveragePercent :=
             Number_toFixed1 (percentage a seattleAreaSqMeters) |}) ∧
  (∀ w ws, (∀ a b, union a b = Raised) → mergeWalksheds (w :: ws) = Some w).
Proof.
  split; [exact mergeWalksheds_fold|]. split; [|split].
  - intros acc w ws Hraise. simpl. unfold unionOrKeep at 2. by rewrite Hraise.
  - intros isochrones selectedYear stopList a Hne Harea.
    unfold calculateWalkshedCoverage.
    destruct stopList as [|s l]; [done|].
    cbn [negb orb length Nat.eqb]. rewrite mergeWalksheds_fold.
    unfold useFullWalkshed, mbind, M_bind, bind, call, set_mergedPolygon,
      set_coveragePercent, initialVars.
    by rewrite Harea.
  - intros w ws Hraise. rewrite mergeWalksheds_fold. simpl.
    by apply fold_unionOrKeep_raising.
Qed.

(** C3. With a boundary whose area can be measured and which can be
    simplified, the intersection and the difference are taken of the
    merged walksheds, as they are, with the simplified boundary. When
    the intersection is a polygon, it is the merged polygon, the
    difference (or [null] when it raises) is the remainder outside the
    region, and the coverage is the area of the intersection divided by
    the area of the boundary as given, times 100, both operations in
    binary64 arithmetic, printed with one decimal. When the
    intersection is [null] or raises, the merged polygon is [null], the
    remainder is the whole union and the coverage is 0. *)
Theorem clipping_to_boundary isochrones selectedYear stopList b areaB sb :
  stopList ≠ [] →
  area (head (features b)) = Returned areaB →
  simplify (head (features b))
    {| tolerance := 1 # 1000; highQuality := false |} = Returned sb →
  (∀ c a,
      intersect (unionFold (map (walkshedOf isochrones selectedYear) stopList))
                sb = Returned (Some c) →
      area (Some c) = Returned a →
      calculateWalkshedCoverage true isochrones selectedYear stopList (Some b)
      = {| mergedPolygon := Some c;
           mergedPolygonOutOfBounds :=
             match difference
                     (unionFold (map (walkshedOf isochrones selectedYear)
                                   stopList)) sb with
             | Returned d => d
             | Raised => None
             end;
           coveragePercent :=
             Number_toFixed1
               (Number_mul (Number_div (Number_ofQ a) (Number_ofQ areaB))
                  (Number_ofQ 100)) |}) ∧
  (intersect (unionFold (map (walkshedOf isochrones selectedYear) stopList))
             sb = Returned None ∨
   intersect (unionFold (map (walkshedOf isochrones selectedYear) stopList))
             sb = Raised →
   calculateWalkshedCoverage true isochrones selectedYear stopList (Some b)
   = {| mergedPolygon := None;
        mergedPolygonOutOfBounds :=
          unionFold (map (walkshedOf isochrones selectedYear) stopList);
        coveragePercent := "0" |}).
Proof.
  intros Hne Harea Hsimp.
  assert (Hunfold :
    calculateWalkshedCoverage true isochrones selectedYear stopList (Some b)
    = match clipToBoundary
              (unionFold (map (walkshedOf isochrones selectedYear) stopList))
              b initialVars with
      | (Returned _, vars) => vars
      | (Raised, _) => simpleFallback stopList
      end).
  { unfold calculateWalkshedCoverage. destruct stopList as [|s l]; [done|].
    cbn [negb orb length Nat.eqb]. by rewrite mergeWalksheds_fold. }
  rewrite Hunfold. clear Hunfold.
  set (u := unionFold _).
  unfold clipToBoundary, try_catch, mbind, M_bind, bind, call, ret,
    set_mergedPolygon, set_mergedPolygonOutOfBounds, set_coveragePercent,
    initialVars.
  rewrite Harea, Hsimp. split.
  - intros c a Hint Hc. rewrite Hint.
    destruct (difference u sb) as [d|]; cbn; by rewrite Hc.
  - intros [Hint|Hint]; rewrite Hint; by destruct (difference u sb).
Qed.

(** ** PopulationApportioner *)

Lemma countBlock_skip w acc (b : Block Polygon) :
  isCandidate b = false → countBlock w acc b = acc.
Proof.
  unfold isCandidate, countBlock. intros Hc.
  destruct (bool_decide (Place b = Some "Seattle")); [|done].
  simpl in Hc. apply Z.leb_gt in Hc.
  by rewrite (proj2 (Z.ltb_lt _ _)) by lia.
Qed.

Lemma countBlock_candidate w acc (b : Block Polygon) :
  isCandidate b = true →
  countBlock w acc b
  = match apportion w b (populationOf b) acc with
    | Returned acc' => acc'
    | Raised => acc
    end.
Proof.
  unfold isCandidate, countBlock. intros [Hp Hn]%andb_true_iff.
  rewrite Hp. apply Z.leb_le in Hn.
  by rewrite (proj2 (Z.ltb_ge _ _)) by lia.
Qed.

Lemma countBlock_bound w p n (b : Block Polygon) :
  areasBounded w b →
  ((countBlock w (p, n) b).1
   <= p + (if isCandidate b then inject_Z (populationOf b) else 0))%Q.
Proof.
  intros Hb. destruct (isCandidate b) eqn:Hc.
  - rewrite countBlock_candidate by done.
    assert (Hpop : (0 <= inject_Z (populationOf b))%Q).
    { apply andb_true_iff in Hc as [_ Hn]. apply Z.leb_le in Hn.
      change 0%Q with (inject_Z 0). rewrite <- Zle_Qle. lia. }
    unfold apportion, mbind, outcome_bind.
    destruct (booleanIntersects _ _) as [[|]|]; simpl; try lra.
    destruct (booleanWithin _ _) as [[|]|]; simpl; try lra.
    destruct (area (Some (b_feature b))) as [ab|] eqn:Hab; simpl; try lra.
    destruct (intersect _ _) as [[i|]|] eqn:Hi; simpl; try lra.
    destruct (area (Some i)) as [ai|] eqn:Hai; simpl; try lra.
    destruct (Hb ab i ai Hab Hi Hai) as (Hle & Hpos).
    assert (Hratio : (ai / ab <= 1)%Q).
    { apply Qle_shift_div_r; [done|]. lra. }
    assert (inject_Z (populationOf b) * (ai / ab)
            <= inject_Z (populationOf b) * 1)%Q; [|lra].
    generalize dependent (ai / ab)%Q. intros r Hr. nra.
  - rewrite countBlock_skip by done. simpl. lra.
Qed.

Lemma fold_countBlock_bound w (blocks : list (Block Polygon)) p n :
  (∀ b, b ∈ blocks → areasBounded w b) →
  ((fold_left (countBlock w) blocks (p, n)).1
   <= p + candidatePopulation blocks)%Q.
Proof.
  revert p n. induction blocks as [|b blocks IH]; intros p n Hall.
  - simpl. lra.
  - cbn [fold_left].
    pose proof (countBlock_bound w p n b (Hall b ltac:(left))) as Hstep.
    destruct (countBlock w (p, n) b) as [p' n'] eqn:Hcb.
    assert (Hrest : ∀ b', b' ∈ blocks → areasBounded w b')
      by (intros b' Hb'; apply Hall; by right).
    specialize (IH p' n' Hrest). cbn [fst] in Hstep.
    cbn [candidatePopulation fold_right].
    fold (candidatePopulation blocks).
    destruct (isCandidate b); lra.
Qed.


End EngineFacts.

(** ** The statements on the sample data *)

(** On the sample schedule, stop "S" gets 3 trips for the hour from 6:
    the larger of the counts 2 and 3 of its two routes, not their sum. *)
Example sample_profile_at_6 :
  sampleProfile !! "6" = Some 3 ∧
  map (λ g, (g_route_id g, tripCount (tripTimes g) 6))
    (groupsOfStop "S"
       (obj_values (stopRouteDirectionHeadways sampleStopTimes sampleTrips
                      {[ "WK" ]})))
  = [("10", 2); ("20", 3)].
Proof. split; vm_compute; reflexivity. Qed.

(** C9 fails on a feed with a trip whose id is the key of an hour. The
    object [tripTimes] of a group is indexed by hour, and the test made
    before a trip is added looks the trip id up in that same object: once
    a trip has been counted in the hour from 6, the property ["6"]
    exists, and every stop time of the trip "6" in the group is dropped.
    Here two distinct trips call at the stop in the hour from 6, and the
    group counts one. *)
Theorem trip_id_equal_to_hour_key_is_dropped :
  ∃ g, obj_get (stopRouteDirectionHeadways collisionStopTimes collisionTrips
                  {[ "WK" ]}) "S|10|0" = Some g ∧
       tripCount (tripTimes g) 6 = 1 ∧
       size (distinctTripIds collisionStopTimes collisionTrips {[ "WK" ]}
               "S|10|0" 6) = 2%nat ∧
       calculateStopFrequencies collisionStopTimes collisionTrips {[ "WK" ]}
         !! "S" ≫= (.!! "6") = Some 1.
Proof.
  eexists. split; [vm_compute; reflexivity|].
  repeat split; vm_compute; reflexivity.
Qed.

(** The same happens to a trip whose id names a member of
    [Object.prototype], whatever the hour: [tripTimes["constructor"]] is
    the inherited function, so the trip is never added. *)
Example inherited_trip_id_is_dropped :
  ∃ g, obj_get (stopRouteDirectionHeadways inheritedStopTimes inheritedTrips
                  {[ "WK" ]}) "S|10|0" = Some g ∧
       tripCount (tripTimes g) 6 = 1 ∧
       size (distinctTripIds inheritedStopTimes inheritedTrips {[ "WK" ]}
               "S|10|0" 6) = 2%nat.
Proof.
  eexists. split; [vm_compute; reflexivity|].
  split; vm_compute; reflexivity.
Qed.

(** Stop "A" of the sample has a stored contour under its Metro key. *)
Lemma catchment_resolution_witness :
  fs_id (sampleStop "A" 2) ≠ "" ∧
  walkshedOf sampleIsochrones "2025" (sampleStop "A" 2)
  = match contourAt sampleIsochrones ("2025" ++ "_soundtransit_" ++ "A"),
          contourAt sampleIsochrones ("2025" ++ "_metro_" ++ "A"),
          contourAt sampleIsochrones "A" with
    | Some p, _, _ => p
    | None, Some p, _ => p
    | None, None, Some p => p
    | None, None, None =>
        circle (2, 47)%Q (HALF_MILE_METERS / 1000)
          {| steps := 32; units := "kilometers" |}
    end
  ∧ (HALF_MILE_METERS / 1000 == 804672 # 1000000)%Q.
Proof.
  assert (H : fs_id (sampleStop "A" 2) ≠ "") by (intros H; discriminate H).
  split; [exact H|].
  exact (catchment_resolution sampleIsochrones "2025" (sampleStop "A" 2) H).
Defined.

(** The three ways a catchment is resolved on the sample: a stored
    contour; the circle when nothing is stored; and, for a regular stop
    viewed in the 2027 scenario, the contour stored for 2025. *)
Example sample_catchments :
  walkshedOf sampleIsochrones "2025" (sampleStop "A" 2) = ({[ 1; 2; 3 ]}%nat : Cells) ∧
  walkshedOf sampleIsochrones "2025" (sampleStop "C" 9)
  = circle (9, 47)%Q (HALF_MILE_METERS / 1000)
      {| steps := 32; units := "kilometers" |} ∧
  walkshedOf sampleIsochrones "2027" (sampleStop "A" 2) = ({[ 1; 2; 3 ]}%nat : Cells).
Proof. repeat split; vm_compute; reflexivity. Qed.

(** In the sample the union with the degenerate catchment of stop "B"
    raises; the merge goes on with what it had and then adds the circle
    of stop "C". *)
Example sample_union_skips_failure :
  union (Some ({[ 1; 2; 3 ]}%nat : Cells)) (Some (∅ : Cells)) = Raised ∧
  mergeWalksheds (map (walkshedOf sampleIsochrones "2025") sampleStops)
  = Some ({[ 1; 2; 3; 8; 9; 10 ]}%nat : Cells) ∧
  mergedPolygon
    (calculateWalkshedCoverage true sampleIsochrones "2025" sampleStops None)
  = Some ({[ 1; 2; 3; 8; 9; 10 ]}%nat : Cells).
Proof. repeat split; vm_compute; reflexivity. Qed.

(** The sample stops clipped to the city of cells 0 to 3: three of the
    four cells are covered. *)
Lemma clipping_to_boundary_witness :
  sampleStops ≠ [] ∧
  area (head (features sampleBoundary)) = Returned (4 # 1) ∧
  simplify (head (features sampleBoundary))
    {| tolerance := 1 # 1000; highQuality := false |}
  = Returned (Some ({[ 0; 1; 2; 3 ]}%nat : Cells)) ∧
  calculateWalkshedCoverage true sampleIsochrones "2025" sampleStops
    (Some sampleBoundary)
  = {| mergedPolygon := Some ({[ 1; 2; 3 ]}%nat : Cells);
       mergedPolygonOutOfBounds := Some ({[ 8; 9; 10 ]}%nat : Cells);
       coveragePercent := "75.0" |}.
Proof.
  assert (H1 : sampleStops ≠ []) by (intros H; discriminate H).
  assert (H2 : area (head (features sampleBoundary)) = Returned (4 # 1))
    by (vm_compute; reflexivity).
  assert (H4 : simplify (head (features sampleBoundary))
                 {| tolerance := 1 # 1000; highQuality := false |}
               = Returned (Some ({[ 0; 1; 2; 3 ]}%nat : Cells)))
    by (vm_compute; reflexivity).
  split; [exact H1|]. split; [exact H2|]. split; [exact H4|].
  rewrite (proj1 (clipping_to_boundary sampleIsochrones "2025" sampleStops
                    sampleBoundary (4 # 1) _ H1 H2 H4)
             ({[ 1; 2; 3 ]}%nat : Cells) (3 # 1));
    vm_compute; reflexivity.
Defined.

(** The percentage is that of the doubles: 23 / 80 * 100 is printed from
    28.749999999999996, and 325500 / 217000000 * 100 from the double
    below 0.15, where exact arithmetic gives 28.75 and 0.15. A division
    by zero is printed by name, and a number from 10^21 on with an
    exponent. *)
Example percentage_of_doubles :
  Number_toFixed1 (percentage 23 80) = "28.7" ∧
  toFixed1 (23 / 80 * 100) = "28.8" ∧
  Number_toFixed1 (percentage 325500 217000000) = "0.1" ∧
  toFixed1 (325500 / 217000000 * 100) = "0.2" ∧
  Number_toFixed1 (percentage 3 4) = "75.0" ∧
  Number_toFixed1 (percentage 5 0) = "Infinity" ∧
  Number_toFixed1 (percentage 0 0) = "NaN" ∧
  Number_toFixed1 (percentage (10 ^ 30) 3) = "3.3333333333333334e+31".
Proof. repeat split; vm_compute; reflexivity. Qed.

(** A boundary that the walksheds do not meet: nothing is merged, the
    whole union is outside, the coverage is 0. *)
Example sample_outside_boundary :
  calculateWalkshedCoverage true sampleIsochrones "2025" sampleStops
    (Some farBoundary)
  = {| mergedPolygon := None;
       mergedPolygonOutOfBounds := Some ({[ 1; 2; 3; 8; 9; 10 ]}%nat : Cells);
       coveragePercent := "0" |}.
Proof. vm_compute. reflexivity. Qed.

Lemma sampleBlocks_areasBounded :
  ∀ b, b ∈ sampleBlocks →
       areasBounded (Some ({[ 1; 2; 3 ]}%nat : Cells)) b.
Proof.
  intros b Hb ab i ai Hab Hi Hai. unfold sampleBlocks in Hb.
  repeat (apply elem_of_cons in Hb as [->|Hb]);
    [| | | |by apply elem_of_nil in Hb];
    vm_compute in Hab; injection Hab as <-;
    vm_compute in Hi; try discriminate Hi; injection Hi as <-;
    vm_compute in Hai; injection Hai as <-;
    repeat split; intros H; discriminate H.
Defined.


Example sample_population :
  ((populationInWalkshed (Some ({[ 1; 2; 3 ]}%nat : Cells)) sampleBlocks).1
   == 120)%Q ∧
  (populationInWalkshed (Some ({[ 1; 2; 3 ]}%nat : Cells)) sampleBlocks).2
  = 2%nat ∧
  (candidatePopulation sampleBlocks == 230)%Q.
Proof. repeat split; vm_compute; reflexivity. Qed.

(** A condition on the hours 6 to 18 can be checked hour by hour. *)
Lemma window_forallb (P : nat → bool) :
  forallb P (seq 6 13) = true → ∀ h, (6 ≤ h ≤ 18)%nat → P h = true.
Proof.
  intros Hall h Hh. rewrite forallb_forall in Hall.
  apply Hall, in_seq. lia.
Defined.

(** The three sample stops of the classifier. *)
Lemma frequent_stop_threshold_witness :
  isFrequentStop stop77 = true ∧
  isFrequentStop stop76 = false ∧
  isFrequentStop stopWith3 = false.
Proof.
  destruct frequent_stop_threshold as (_ & H77 & H76 & H3).
  split; [|split].
  - apply H77; [|vm_compute; reflexivity].
    intros h Hh. apply Z.leb_le.
    apply (window_forallb (λ h, 4 <=? tripsAt (hourly_trips stop77) h));
      [vm_compute; reflexivity|exact Hh].
  - apply H76. vm_compute. reflexivity.
  - apply (H3 stopWith3 10%nat); [lia|vm_compute; reflexivity].
Defined.

(** Of the two planned stations, the one that is not switched off joins
    the list of the 2027 scenario. *)
Lemma future_stop_admission_witness :
  plannedStop "future_A" None ∈ plannedStops ∧
  enabled (plannedStop "future_A" None) ≠ Some false ∧
  ofFutureStop (plannedStop "future_A" None)
    ∈ finalStopList [stop77; stop76] "2027" (Some plannedStops) ∧
  isEnabledFutureStop (plannedStop "future_B" (Some false)) = false.
Proof.
  destruct future_stop_admission as (Hiff & Hin & _).
  assert (H1 : plannedStop "future_A" None ∈ plannedStops) by left.
  assert (H2 : enabled (plannedStop "future_A" None) ≠ Some false)
    by (intros H; discriminate H).
  split; [exact H1|]. split; [exact H2|]. split.
  - apply Hin; [exact H1|exact H2|].
    intros h Hh. apply Z.leb_le.
    apply (window_forallb
             (λ h, 4 <=? tripsAt (fu_hourly_trips (plannedStop "future_A" None)) h));
      [vm_compute; reflexivity|exact Hh].
  - apply not_true_is_false. intros Hen.
    apply Hiff in Hen as [Hen _]. by apply Hen.
Defined.

(** The sample stops without a boundary: the union with the degenerate
    catchment raises, and the computation still returns the merge of the
    other two. *)
Lemma union_failures_are_skipped_witness :
  sampleStops ≠ [] ∧
  area (unionFold (map (walkshedOf sampleIsochrones "2025") sampleStops))
    = Returned (6 # 1) ∧
  calculateWalkshedCoverage true sampleIsochrones "2025" sampleStops None
  = {| mergedPolygon :=
         unionFold (map (walkshedOf sampleIsochrones "2025") sampleStops);
       mergedPolygonOutOfBounds := None;
       coveragePercent := toFixed1 ((6 # 1) / seattleAreaSqMeters * 100) |}.
Proof.
  destruct (union_failures_are_skipped (Polygon := Cells)) as (_ & _ & Hcov & _).
  assert (H1 : sampleStops ≠ []) by (intros H; discriminate H).
  assert (H2 : area (unionFold (map (walkshedOf sampleIsochrones "2025")
                                  sampleStops)) = Returned (6 # 1))
    by (vm_compute; reflexivity).
  split; [exact H1|]. split; [exact H2|].
  exact (Hcov sampleIsochrones "2025" sampleStops (6 # 1) H1 H2).
Defined.

(** ** Isochrone generation and loading *)

Section IsochroneFacts.
Context {Polygon : Type} `{!Turf Polygon}.
Implicit Types
  (service : nat → ExtractedStop → option (list (Contour Polygon)))
  (existing entries : list (IsoEntry Polygon)).

Lemma isochroneLoop_generated service (done_ rest : list ExtractedStop) acc :
  isochroneLoop service (done_ ++ rest) (length rest) (length done_) acc
  = (acc ++ generatedFrom service (length done_) rest)%list.
Proof.
  revert done_ acc. induction rest as [|stop rest IH]; intros done_ acc.
  - simpl. by rewrite app_nil_r.
  - cbn [length isochroneLoop generatedFrom].
    rewrite list_lookup_middle by done.
    replace (done_ ++ stop :: rest)%list with ((done_ ++ [stop]) ++ rest)%list
      by (by rewrite <- app_assoc).
    replace (S (length done_)) with (length (done_ ++ [stop]))
      by (rewrite length_app; simpl; lia).
    rewrite IH.
    destruct (generateIsochrones (service (length done_) stop) stop);
      simpl; by rewrite <- ?app_assoc.
Qed.

(** The run, as the given entries followed by the generated ones. *)
Lemma generateAllIsochrones_generated service stops existing :
  generateAllIsochrones service stops existing
  = (existing ++
     generatedFrom service 0 (stopsWithoutIsochrone stops existing))%list.
Proof.
  unfold generateAllIsochrones.
  destruct (stopsWithoutIsochrone stops existing) as [|stop rest] eqn:Hs.
  - simpl. by rewrite app_nil_r.
  - replace (length (stop :: rest) =? 0)%nat with false by done.
    apply (isochroneLoop_generated service [] (stop :: rest)).
Qed.

Lemma elem_of_stopsWithoutIsochrone stop stops existing :
  stop ∈ stopsWithoutIsochrone stops existing ↔
  stop ∈ stops ∧ es_id stop ∉ map iso_stop_id existing.
Proof.
  unfold stopsWithoutIsochrone. rewrite list_elem_of_In, filter_In.
  rewrite negb_true_iff, bool_decide_eq_false, elem_of_list_to_set.
  by rewrite <- list_elem_of_In.
Qed.

Lemma generateIsochrones_id answer stop (e : IsoEntry Polygon) :
  generateIsochrones answer stop = Some e → iso_stop_id e = es_id stop.
Proof. destruct answer; [|done]. by intros [= <-]. Qed.

Lemma generatedFrom_ids service i todo :
  sublist (map iso_stop_id (generatedFrom service i todo)) (map es_id todo).
Proof.
  revert i. induction todo as [|stop rest IH]; intros i; [done|]. simpl.
  destruct (generateIsochrones (service i stop) stop) as [e|] eqn:He; simpl.
  - rewrite (generateIsochrones_id _ _ _ He). by apply sublist_skip.
  - by apply sublist_cons.
Qed.

Lemma sublist_map_filter {A B} (f : A → B) (P : A → bool) l :
  sublist (map f (List.filter P l)) (map f l).
Proof.
  induction l as [|x l IH]; [done|]. simpl.
  destruct (P x); simpl; [by apply sublist_skip|by apply sublist_cons].
Qed.

Lemma generated_ids_fresh service stops existing e :
  e ∈ generatedFrom service 0 (stopsWithoutIsochrone stops existing) →
  iso_stop_id e ∉ map iso_stop_id existing.
Proof.
  intros He.
  assert (Hin : iso_stop_id e
                ∈ map es_id (stopsWithoutIsochrone stops existing)).
  { eapply elem_of_sublist; [|apply (generatedFrom_ids service 0)].
    by apply list_elem_of_fmap_2. }
  apply list_elem_of_fmap in Hin as (stop & -> & Hstop).
  by apply elem_of_stopsWithoutIsochrone in Hstop as [_ ?].
Qed.

Lemma generated_ids_NoDup service stops existing :
  NoDup (map es_id stops) →
  NoDup (map iso_stop_id existing) →
  NoDup (map iso_stop_id
           (existing ++
            generatedFrom service 0 (stopsWithoutIsochrone stops existing))).
Proof.
  intros Hstops Hexisting.
  rewrite map_app. apply NoDup_app. split; [done|]. split.
  - intros k Hk Hnew. apply list_elem_of_fmap in Hnew as (e & -> & He).
    by apply (generated_ids_fresh service stops existing e).
  - apply (sublist_NoDup _ _ Hstops).
    etrans; [apply generatedFrom_ids|]. apply sublist_map_filter.
Qed.

(** X1. A run keeps the entries it was given, in their order, and adds
    entries after them; the added entries are for stops of the input, in
    the order of the stops, and none is for a stop that already had an
    entry: such a stop is not requested again. *)
Theorem generateAllIsochrones_extends service stops existing :
  ∃ new,
    generateAllIsochrones service stops existing = (existing ++ new)%list ∧
    sublist (map iso_stop_id new) (map es_id stops) ∧
    ∀ e, e ∈ new → iso_stop_id e ∉ map iso_stop_id existing.
Proof.
  exists (generatedFrom service 0 (stopsWithoutIsochrone stops existing)).
  split; [apply generateAllIsochrones_generated|]. split.
  - etrans; [apply generatedFrom_ids|]. apply sublist_map_filter.
  - intros e He. by apply (generated_ids_fresh service stops existing e).
Qed.

(** X2. If no two stops share an id and no two given entries are for
    the same stop, no two entries of the result are for the same stop. *)
Theorem generateAllIsochrones_NoDup service stops existing :
  NoDup (map es_id stops) →
  NoDup (map iso_stop_id existing) →
  NoDup (map iso_stop_id (generateAllIsochrones service stops existing)).
Proof.
  intros Hstops Hexisting. rewrite generateAllIsochrones_generated.
  by apply generated_ids_NoDup.
Qed.

Lemma generateAllIsochrones_covered service stops existing :
  (∀ stop, stop ∈ stops → es_id stop ∈ map iso_stop_id existing) →
  generateAllIsochrones service stops existing = existing.
Proof.
  intros Hall. rewrite generateAllIsochrones_generated.
  destruct (stopsWithoutIsochrone stops existing) as [|stop rest] eqn:Hs.
  - simpl. by rewrite app_nil_r.
  - assert (Hin : stop ∈ stopsWithoutIsochrone stops existing)
      by (rewrite Hs; left).
    apply elem_of_stopsWithoutIsochrone in Hin as [Hin Hnot].
    destruct Hnot. by apply Hall.
Qed.

Lemma generatedFrom_answered service i todo stop :
  (∀ j s, s ∈ todo → is_Some (service j s)) →
  stop ∈ todo →
  es_id stop ∈ map iso_stop_id (generatedFrom service i todo).
Proof.
  revert i. induction todo as [|s rest IH]; intros i Hans Hin.
  - by apply elem_of_nil in Hin.
  - simpl. rewrite map_app. apply elem_of_app.
    apply elem_of_cons in Hin as [->|Hin].
    + left. destruct (Hans i s ltac:(left)) as [features ->]. simpl. left.
    + right. apply IH; [|done]. intros j s' Hs'. apply Hans. by right.
Qed.

(** X3. When every request of a run is answered, every stop of the input
    has an entry in the result, and a further run on that result, with
    whatever answers, requests nothing and returns it unchanged. *)
Theorem generateAllIsochrones_resume service service' stops existing :
  (∀ i stop, stop ∈ stops → is_Some (service i stop)) →
  (∀ stop, stop ∈ stops →
     es_id stop
     ∈ map iso_stop_id (generateAllIsochrones service stops existing)) ∧
  generateAllIsochrones service' stops
    (generateAllIsochrones service stops existing)
  = generateAllIsochrones service stops existing.
Proof.
  intros Hans.
  assert (Hcov : ∀ stop, stop ∈ stops →
            es_id stop
            ∈ map iso_stop_id (generateAllIsochrones service stops existing)).
  { intros stop Hstop. rewrite generateAllIsochrones_generated, map_app.
    apply elem_of_app.
    destruct (decide (es_id stop ∈ map iso_stop_id existing)); [by left|].
    right. apply generatedFrom_answered.
    - intros j s [Hs _]%elem_of_stopsWithoutIsochrone. by apply Hans.
    - by apply elem_of_stopsWithoutIsochrone. }
  split; [exact Hcov|]. by apply generateAllIsochrones_covered.
Qed.

Lemma lastWithId_snoc k entries (e : IsoEntry Polygon) :
  lastWithId k (entries ++ [e])
  = if decide (iso_stop_id e = k) then Some e else lastWithId k entries.
Proof.
  unfold lastWithId. rewrite List.filter_app. simpl.
  destruct (String.eqb_spec (iso_stop_id e) k).
  - rewrite decide_True by done. apply last_snoc.
  - rewrite decide_False by done. by rewrite app_nil_r.
Qed.

Lemma setAll_lookup (isoMap : gmap string (IsoData Polygon)) entries k :
  setAll isoMap entries !! k
  = match lastWithId k entries with
    | Some e => Some (toIsoData e)
    | None => isoMap !! k
    end.
Proof.
  induction entries as [|e entries IH] using rev_ind; [done|].
  unfold setAll. rewrite fold_left_app. cbn [fold_left].
  fold (setAll isoMap entries). rewrite lastWithId_snoc.
  case_decide as Hk.
  - subst k. apply lookup_insert_eq.
  - by rewrite lookup_insert_ne.
Qed.

Lemma loadYear_lookup (files : string → option (list (IsoEntry Polygon)))
    (m : gmap string (IsoData Polygon)) year k :
  match files year with
  | Some entries => setAll m entries
  | None => m
  end !! k
  = match lastWithId k (default [] (files year)) with
    | Some e => Some (toIsoData e)
    | None => m !! k
    end.
Proof. destruct (files year); [apply setAll_lookup|done]. Qed.

(** X4. The map left by the loading effect holds, for a stop id, the
    last entry for it of the year's file; in the 2027 scenario the last
    entry of the 2027 file, and otherwise the last entry of the 2025
    file. A file that cannot be loaded counts as empty: it takes nothing
    away from what the other file gives. *)
Theorem loadIsochrones_lookup
    (files : string → option (list (IsoEntry Polygon))) selectedYear k :
  loadIsochrones files selectedYear !! k
  = if String.eqb selectedYear "2027" then
      match lastWithId k (default [] (files "2027")) with
      | Some e => Some (toIsoData e)
      | None => toIsoData <$> lastWithId k (default [] (files "2025"))
      end
    else toIsoData <$> lastWithId k (default [] (files selectedYear)).
Proof.
  unfold loadIsochrones, yearsToLoad.
  destruct (String.eqb selectedYear "2027"); cbn [fold_left].
  - rewrite loadYear_lookup.
    destruct (lastWithId k (default [] (files "2027"))); [done|].
    rewrite loadYear_lookup, lookup_empty.
    by destruct (lastWithId k (default [] (files "2025"))).
  - rewrite loadYear_lookup, lookup_empty.
    by destruct (lastWithId k (default [] (files selectedYear))).
Qed.

Lemma lastWithId_NoDup entries (e : IsoEntry Polygon) :
  NoDup (map iso_stop_id entries) → e ∈ entries →
  lastWithId (iso_stop_id e) entries = Some e.
Proof.
  induction entries as [|e' entries IH] using rev_ind; intros Hnd Hin.
  - by apply elem_of_nil in Hin.
  - rewrite lastWithId_snoc. rewrite map_app in Hnd.
    apply NoDup_app in Hnd as (Hnd & Hdisj & _).
    apply elem_of_app in Hin as [Hin|Hin].
    + rewrite decide_False; [by apply IH|]. intros Heq.
      apply (Hdisj (iso_stop_id e)).
      * by apply list_elem_of_fmap_2.
      * rewrite <- Heq. left.
    + apply list_elem_of_singleton in Hin as ->. by rewrite decide_True.
Qed.

Lemma generatedFrom_lookup service i todo j stop (e : IsoEntry Polygon) :
  todo !! j = Some stop →
  generateIsochrones (service (i + j)%nat stop) stop = Some e →
  e ∈ generatedFrom service i todo.
Proof.
  revert i j. induction todo as [|s rest IH]; intros i j Hj He; [done|].
  simpl. apply elem_of_app. destruct j as [|j].
  - left. injection Hj as ->. rewrite Nat.add_0_r in He. rewrite He. left.
  - right. apply (IH (S i) j); [done|].
    by replace (S i + j)%nat with (i + S j)%nat by lia.
Qed.

(** The entry that a run writes for an answered request is the last one
    of its stop in the file. *)
Lemma generated_entry_is_last service stops existing i stop features :
  NoDup (map es_id stops) →
  NoDup (map iso_stop_id existing) →
  stopsWithoutIsochrone stops existing !! i = Some stop →
  service i stop = Some features →
  toIsoData <$>
    lastWithId (es_id stop) (generateAllIsochrones service stops existing)
  = Some (contoursOf features).
Proof.
  intros Hstops Hexisting Hi Hans.
  destruct (generateIsochrones (service i stop) stop) as [e|] eqn:Hgen;
    [|by rewrite Hans in Hgen].
  rewrite <- (generateIsochrones_id _ _ _ Hgen).
  rewrite generateAllIsochrones_generated, lastWithId_NoDup.
  - rewrite Hans in Hgen. by injection Hgen as <-.
  - by apply generated_ids_NoDup.
  - apply elem_of_app. right.
    by apply (generatedFrom_lookup service 0 _ i stop).
Qed.

(** The walkshed of a stop whose contour is stored under its raw id
    only. *)
Lemma walkshedOf_raw_id (isochrones : gmap string (IsoData Polygon))
    selectedYear stop data p :
  fs_id stop ≠ "" →
  contourAt isochrones
    (isochroneYearOf stop selectedYear ++ "_soundtransit_" ++ fs_id stop)
    = None →
  contourAt isochrones
    (isochroneYearOf stop selectedYear ++ "_metro_" ++ fs_id stop) = None →
  isochrones !! fs_id stop = Some data →
  isochrone_10min data = Some p →
  walkshedOf isochrones selectedYear stop = p.
Proof.
  intros Hid H1 H2 Hraw Hp.
  unfold walkshedOf, findIsochroneForStop, possibleKeys, stopIdOf, or_else.
  destruct (fs_id stop) as [|a id] eqn:Heq; [done|].
  cbn [str_truthy tmpl default from_option Datatypes.id].
  rewrite !firstIsochrone_cons, H1, H2.
  unfold contourAt. rewrite Hraw. simpl. by rewrite Hp.
Qed.

(** X5. From generation to display, for a year other than 2027. Let the
    file of the year be the result of a run on stops with distinct ids.
    If the request for a stop is answered, the loaded map holds under
    the stop's id the 5- and 10-minute contours of the answer; and when
    the answer has a 10-minute contour and no contour is stored under
    the stop's id prefixed by year and feed, that contour is the stop's
    walkshed. *)
Theorem generated_isochrone_is_displayed
    (files : string → option (list (IsoEntry Polygon)))
    service stops existing selectedYear i stop features :
  String.eqb selectedYear "2027" = false →
  NoDup (map es_id stops) →
  NoDup (map iso_stop_id existing) →
  files selectedYear = Some (generateAllIsochrones service stops existing) →
  stopsWithoutIsochrone stops existing !! i = Some stop →
  service i stop = Some features →
  loadIsochrones files selectedYear !! es_id stop
    = Some (contoursOf features) ∧
  ∀ p, findContour 10 features = Some p →
       es_id stop ≠ "" →
       contourAt (loadIsochrones files selectedYear)
         (selectedYear ++ "_soundtransit_" ++ es_id stop) = None →
       contourAt (loadIsochrones files selectedYear)
         (selectedYear ++ "_metro_" ++ es_id stop) = None →
       walkshedOf (loadIsochrones files selectedYear) selectedYear
         (toFrequentStop (readAllStop stop)) = p.
Proof.
  intros Hyear Hstops Hexisting Hfile Hi Hans.
  assert (Hlook : loadIsochrones files selectedYear !! es_id stop
                  = Some (contoursOf features)).
  { unfold loadIsochrones, yearsToLoad. rewrite Hyear. cbn [fold_left].
    rewrite loadYear_lookup, Hfile. cbn [default from_option Datatypes.id].
    pose proof (generated_entry_is_last service stops existing i stop
                  features Hstops Hexisting Hi Hans) as Hlast.
    destruct (lastWithId (es_id stop) _); [exact Hlast|done]. }
  split; [exact Hlook|].
  intros p Hp Hid H1 H2.
  apply (walkshedOf_raw_id _ _ _ (contoursOf features)); try done.
  - unfold isochroneYearOf. by rewrite Hyear.
  - unfold isochroneYearOf. by rewrite Hyear.
Qed.
End IsochroneFacts.

(** ** Extraction of the stops *)

Lemma string_app_cancel (a b c : string) : a ++ b = a ++ c → b = c.
Proof. induction a as [|x a IH]; simpl; [done|]. intros [= ?]. by apply IH. Qed.

Lemma compositeId_inj dataset feedName s1 s2 :
  compositeId dataset feedName s1 = compositeId dataset feedName s2 → s1 = s2.
Proof.
  unfold compositeId. intros H.
  repeat (apply string_app_cancel in H). exact H.
Qed.

Lemma compositeId_feeds dataset s1 s2 :
  compositeId dataset "metro" s1 ≠ compositeId dataset "soundtransit" s2.
Proof.
  unfold compositeId. intros H.
  do 2 (apply string_app_cancel in H). discriminate H.
Qed.

Section ExtractionFacts.
Variable parseFloat : string → option Q.
Variable disk : string → option GtfsZip.

(** The stops that an extraction returns are rows of [stops.txt], in
    their order, under their composite ids. *)
Lemma extractStopsFromZip_rows fuel zip feedName dataset stops :
  extractStopsFromZip parseFloat fuel zip feedName dataset = Some stops →
  ∃ freq,
    stops = List.filter hasCoordinates
              (map (toExtractedStop parseFloat dataset feedName freq)
                 (default [] (stops_txt zip))).
Proof.
  unfold extractStopsFromZip. destruct (stops_txt zip) as [rows|].
  - destruct (stop_times_txt zip), (trips_txt zip), (calendar_txt zip);
      try (intros [= <-]; by eexists).
    destruct (getRelevantServiceIds fuel _); [|done].
    intros [= <-]. by eexists.
  - intros [= <-]. by exists None.
Qed.

Lemma extracted_ids fuel zip feedName dataset stops :
  extractStopsFromZip parseFloat fuel zip feedName dataset = Some stops →
  sublist (map es_id stops)
    (map (compositeId dataset feedName)
       (map r_stop_id (default [] (stops_txt zip)))).
Proof.
  intros (freq & ->)%extractStopsFromZip_rows.
  etrans; [apply sublist_map_filter|].
  rewrite !map_map. done.
Qed.

Lemma extracted_ids_NoDup fuel zip feedName dataset stops :
  NoDup (map r_stop_id (default [] (stops_txt zip))) →
  extractStopsFromZip parseFloat fuel zip feedName dataset = Some stops →
  NoDup (map es_id stops).
Proof.
  intros Hnd Hex. eapply sublist_NoDup; [|by eapply extracted_ids].
  apply (NoDup_fmap_2 _). exact Hnd.
Qed.
End ExtractionFacts.

Section MainFacts.
Variable parseFloat : string → option Q.
Variable disk : string → option GtfsZip.

Lemma mergeStops_one (l : list ExtractedStop) : mergeStops [l] = l.
Proof. done. Qed.

Lemma mergeStops_two (l1 l2 : list ExtractedStop) :
  mergeStops [l1; l2] = (l1 ++ l2)%list.
Proof. done. Qed.

Lemma extracted_id_form fuel zip feedName dataset stops k :
  extractStopsFromZip parseFloat fuel zip feedName dataset = Some stops →
  k ∈ map es_id stops → ∃ s, k = compositeId dataset feedName s.
Proof.
  intros Hex Hk.
  eapply elem_of_sublist in Hk; [|by eapply extracted_ids].
  apply list_elem_of_fmap in Hk as (s & -> & _). by exists s.
Qed.

(** X7. The stops that [main] merges have distinct ids, provided the
    stop ids of each archive are distinct (and, for the 2027 dataset,
    those of the future-stops file): the feed name in the composite id
    keeps the stops of the Metro and Sound Transit feeds apart. *)
Theorem merged_ids_NoDup fuel DATASET futureFile mergedStops :
  (∀ path zip, disk path = Some zip →
     NoDup (map r_stop_id (default [] (stops_txt zip)))) →
  NoDup (map fu_id (default [] futureFile)) →
  mainMergedStops parseFloat disk fuel DATASET futureFile
    = Some (Merged mergedStops) →
  NoDup (map es_id mergedStops).
Proof.
  intros Hzips Hfuture. unfold mainMergedStops.
  destruct (String.eqb DATASET "2027").
  - destruct (0 <? _)%nat; [|done]. intros [= <-]. rewrite mergeStops_one.
    unfold loadFutureStops. case_bool_decide; [|constructor].
    destruct futureFile as [stops|]; [|constructor]. simpl in Hfuture.
    rewrite map_map. simpl.
    by apply (sublist_NoDup _ _ Hfuture), sublist_map_filter.
  - assert (Hone : ∀ path feedName zip l,
              disk path = Some zip →
              extractStopsFromZip parseFloat fuel zip feedName DATASET
                = Some l →
              NoDup (map es_id l) ∧
              ∀ k, k ∈ map es_id l → ∃ s, k = compositeId DATASET feedName s).
    { intros path feedName zip l Hd Hex. split.
      - eapply extracted_ids_NoDup; [by eapply Hzips|done].
      - intros k Hk. by eapply extracted_id_form. }
    unfold GTFS_FILES, GTFS_FILES_2020, GTFS_FILES_2025.
    destruct (String.eqb (GTFS_YEAR DATASET) "2020"); cbn [extractFeeds].
    + set (path := "../public/base_data/2020/feb_2020_metro_gtfs.zip").
      destruct (disk path) as [zip|] eqn:Hd.
      * destruct (extractStopsFromZip _ _ _ _ _) as [l|] eqn:Hex; [|done].
        intros [= <-]. cbn [app]. rewrite mergeStops_one.
        by destruct (Hone _ _ _ _ Hd Hex).
      * intros [= <-]. constructor.
    + set (p1 := "../public/base_data/2025/dec_2025_metro_gtfs.zip").
      set (p2 := "../public/base_data/2025/dec_2025_soundtransit_gtfs.zip").
      destruct (disk p1) as [z1|] eqn:Hd1.
      * destruct (extractStopsFromZip _ _ z1 _ _) as [l1|] eqn:Hex1; [|done].
        destruct (Hone _ _ _ _ Hd1 Hex1) as [Hn1 Hf1].
        destruct (disk p2) as [z2|] eqn:Hd2.
        -- destruct (extractStopsFromZip _ _ z2 _ _) as [l2|] eqn:Hex2; [|done].
           destruct (Hone _ _ _ _ Hd2 Hex2) as [Hn2 Hf2].
           intros [= <-]. cbn [app]. rewrite mergeStops_two, map_app.
           apply NoDup_app. split; [done|]. split; [|done].
           intros k [s1 ->]%Hf1 [s2 Heq]%Hf2.
           by apply compositeId_feeds in Heq.
        -- intros [= <-]. cbn [app]. by rewrite mergeStops_one.
      * destruct (disk p2) as [z2|] eqn:Hd2.
        -- destruct (extractStopsFromZip _ _ z2 _ _) as [l2|] eqn:Hex2; [|done].
           destruct (Hone _ _ _ _ Hd2 Hex2) as [Hn2 _].
           intros [= <-]. cbn [app]. by rewrite mergeStops_one.
        -- intros [= <-]. constructor.
Qed.

Lemma not_frequent_without_counts (s : AllStop) :
  (∀ ht, hourly_trips s = Some ht → ht = ∅) → isFrequentStop s = false.
Proof.
  intros Hempty. apply not_true_is_false. rewrite isFrequentStop_iff.
  intros [Hall _]. specialize (Hall 6%nat ltac:(lia)).
  destruct (hourly_trips s) as [ht|] eqn:Hs; simpl in Hall; [|lia].
  rewrite (Hempty ht eq_refl) in Hall. unfold num_or_zero in Hall.
  rewrite lookup_empty in Hall. simpl in Hall. lia.
Qed.

Lemma getRelevantServiceIds_no_weekday calendar fuel :
  (∀ c, c ∈ calendar → ¬ activeMondayToFriday c) →
  getRelevantServiceIds fuel calendar = Some ∅.
Proof.
  intros Hnone. unfold getRelevantServiceIds.
  assert (Hnil : List.filter isWeekdayEntry calendar = []).
  { induction calendar as [|c l IH]; [done|]. simpl.
    destruct (isWeekdayEntry c) eqn:Hc.
    - apply isWeekdayEntry_iff in Hc. destruct (Hnone c); [left|done].
    - apply IH. intros c' Hc'. apply Hnone. by right. }
  by rewrite Hnil.
Qed.

(** X8. An archive whose calendar has no entry active on all of Monday
    to Friday, or that lacks one of [stop_times.txt], [trips.txt] and
    [calendar.txt], is still extracted: the extraction returns, whatever
    the bound on the selection loop, and none of the stops it returns
    passes the frequent-stop filter of the site. *)
Theorem extraction_without_service fuel zip feedName dataset :
  (stop_times_txt zip = None ∨ trips_txt zip = None ∨
   calendar_txt zip = None ∨
   ∃ calendar, calendar_txt zip = Some calendar ∧
               ∀ c, c ∈ calendar → ¬ activeMondayToFriday c) →
  ∃ stops,
    extractStopsFromZip parseFloat fuel zip feedName dataset = Some stops ∧
    ∀ s, s ∈ stops → isFrequentStop (readAllStop s) = false.
Proof.
  intros Hcase. unfold extractStopsFromZip.
  destruct (stops_txt zip) as [rows|].
  2:{ exists []. split; [done|]. intros s Hs. by apply elem_of_nil in Hs. }
  assert (Hbasic : ∀ s,
            s ∈ List.filter hasCoordinates
                  (map (toExtractedStop parseFloat dataset feedName None) rows) →
            isFrequentStop (readAllStop s) = false).
  { intros s [Hs _]%list_elem_of_In%filter_In.
    apply in_map_iff in Hs as (r & <- & _). done. }
  destruct (stop_times_txt zip) as [st|]; [|by eexists].
  destruct (trips_txt zip) as [tr|]; [|by eexists].
  destruct (calendar_txt zip) as [cal|]; [|by eexists].
  destruct Hcase as [?|[?|[?|(calendar & [= <-] & Hnone)]]]; try done.
  rewrite (getRelevantServiceIds_no_weekday _ _ Hnone).
  eexists. split; [reflexivity|].
  intros s [Hs _]%list_elem_of_In%filter_In.
  apply in_map_iff in Hs as (r & <- & _).
  apply not_frequent_without_counts. simpl. intros ht [= <-].
  unfold calculateStopFrequencies.
  rewrite bool_decide_eq_true_2 by apply size_empty.
  by rewrite lookup_empty.
Qed.
End MainFacts.

(** ** The list of frequent stops *)

(** X9. Every stop of the list that is displayed, regular or future, has
    at least 4 trips in each hour from 6 to 18; a regular stop has, in
    addition, at least 77 trips over those hours. In a year other than
    2027 the future-stops file is not consulted: the list is the list of
    the regular frequent stops. *)
Theorem final_stops_meet_criteria allStops selectedYear fetched :
  (∀ s, s ∈ finalStopList allStops selectedYear fetched →
     (∀ h, (6 ≤ h ≤ 18)%nat → 4 ≤ tripsAt (hourlyTrips s) h) ∧
     (isFuture s = false → 77 ≤ windowTotal (hourlyTrips s))) ∧
  (String.eqb selectedYear "2027" = false →
   finalStopList allStops selectedYear fetched = frequentStopList allStops).
Proof.
  assert (Hregular : ∀ s, s ∈ frequentStopList allStops →
            (∀ h, (6 ≤ h ≤ 18)%nat → 4 ≤ tripsAt (hourlyTrips s) h) ∧
            (isFuture s = false → 77 ≤ windowTotal (hourlyTrips s))).
  { intros s Hs. unfold frequentStopList in Hs.
    apply list_elem_of_In, in_map_iff in Hs as (a & <- & Ha).
    apply filter_In in Ha as [_ Ha]. apply isFrequentStop_iff in Ha.
    simpl. tauto. }
  split.
  - intros s Hs. unfold finalStopList, addFutureStops in Hs.
    case_bool_decide; [|by apply Hregular].
    destruct fetched as [stops|]; [|by apply Hregular].
    apply elem_of_app in Hs as [Hs|Hs]; [by apply Hregular|].
    apply list_elem_of_In, in_map_iff in Hs as (f & <- & Hf).
    apply filter_In in Hf as [_ Hf]. apply isEnabledFutureStop_iff in Hf.
    simpl. split; [tauto|done].
  - intros Hyear. unfold finalStopList, addFutureStops.
    rewrite bool_decide_eq_false_2; [done|].
    unfold futureYears. intros ->%list_elem_of_singleton. done.
Qed.

(** ** The failure paths of the coverage computation *)

Section CoverageFailures.
Context {Polygon : Type} `{!Turf Polygon}.

Ltac run_coverage :=
  unfold clipToBoundary, useFullWalkshed, try_catch, mbind, M_bind, bind, call,
    ret, set_mergedPolygon, set_mergedPolygonOutOfBounds, set_coveragePercent,
    initialVars.

(** X10. When the boundary cannot be simplified, although its area can
    be measured, the boundary plays no part at all: the result is the one
    computed without a boundary, nothing is clipped and the coverage is
    relative to the reference area of the city. *)
Theorem unsimplifiable_boundary_is_ignored turfLoaded isochrones selectedYear
    stopList b areaB :
  area (head (features b)) = Returned areaB →
  simplify (head (features b))
    {| tolerance := 1 # 1000; highQuality := false |} = Raised →
  calculateWalkshedCoverage turfLoaded isochrones selectedYear stopList (Some b)
  = calculateWalkshedCoverage turfLoaded isochrones selectedYear stopList None.
Proof.
  intros Harea Hsimplify. unfold calculateWalkshedCoverage.
  destruct (negb turfLoaded || (length stopList =? 0)%nat); [done|].
  cbv zeta. run_coverage. by rewrite Harea, Hsimplify.
Qed.

(** X11. When the walksheds meet the boundary but the area of the
    clipped polygon cannot be measured, the handler falls back on the
    unclipped union: the merged polygon is the whole union and the
    coverage is its area divided by the reference area of the city,
    times 100, both operations in binary64 arithmetic, printed with one
    decimal, while the remainder outside the boundary, already assigned,
    stays. When the area of the union cannot be measured either, the
    result is the estimate by circles. *)
Theorem unmeasurable_clip_falls_back isochrones selectedYear stopList b areaB
    sb c :
  stopList ≠ [] →
  area (head (features b)) = Returned areaB →
  simplify (head (features b))
    {| tolerance := 1 # 1000; highQuality := false |} = Returned sb →
  intersect (unionFold (map (walkshedOf isochrones selectedYear) stopList)) sb
    = Returned (Some c) →
  area (Some c) = Raised →
  calculateWalkshedCoverage true isochrones selectedYear stopList (Some b)
  = match area (unionFold (map (walkshedOf isochrones selectedYear) stopList))
    with
    | Returned a =>
        {| mergedPolygon :=
             unionFold (map (walkshedOf isochrones selectedYear) stopList);
           mergedPolygonOutOfBounds :=
             match difference
                     (unionFold (map (walkshedOf isochrones selectedYear)
                                   stopList)) sb with
             | Returned d => d
             | Raised => None
             end;
           coveragePercent :=
             Number_toFixed1
               (Number_mul
                  (Number_div (Number_ofQ a) (Number_ofQ seattleAreaSqMeters))
                  (Number_ofQ 100)) |}
    | Raised => simpleFallback stopList
    end.
Proof.
  intros Hne Harea Hsimplify Hclip Hclipped.
  unfold calculateWalkshedCoverage.
  destruct stopList as [|s l]; [done|].
  cbn [negb orb length Nat.eqb]. rewrite mergeWalksheds_fold.
  set (u := unionFold _) in *. run_coverage.
  rewrite Harea, Hsimplify, Hclip.
  destruct (difference u sb) as [d|];
    cbn -[percentage Number_toFixed1]; rewrite Hclipped;
    cbn -[percentage Number_toFixed1];
    destruct (area (fold_left _ _ _)); reflexivity.
Qed.

End CoverageFailures.

(** ** The population over a list of blocks *)

Section PopulationFacts.
Context {Polygon : Type} `{!Turf Polygon}.

Lemma fold_countBlock_within w (blocks : list (Block Polygon)) p n :
  (∀ b, b ∈ blocks → isCandidate b = true →
     booleanIntersects (Some (b_feature b)) w = Returned true ∧
     booleanWithin (Some (b_feature b)) w = Returned true) →
  ((fold_left (countBlock w) blocks (p, n)).1
   == p + candidatePopulation blocks)%Q ∧
  (fold_left (countBlock w) blocks (p, n)).2
  = (n + length (List.filter isCandidate blocks))%nat.
Proof.
  revert p n. induction blocks as [|b blocks IH]; intros p n Hall.
  - simpl. split; [lra|lia].
  - assert (Hrest : ∀ b', b' ∈ blocks → isCandidate b' = true →
              booleanIntersects (Some (b_feature b')) w = Returned true ∧
              booleanWithin (Some (b_feature b')) w = Returned true)
      by (intros b' Hb'; apply Hall; by right).
    cbn [fold_left List.filter candidatePopulation fold_right].
    fold (candidatePopulation blocks).
    destruct (isCandidate b) eqn:Hc.
    + rewrite countBlock_candidate by done.
      destruct (Hall b ltac:(left) Hc) as [Hi Hw].
      unfold apportion, mbind, outcome_bind. rewrite Hi, Hw.
      destruct (IH (p + inject_Z (populationOf b))%Q (S n) Hrest) as [IH1 IH2].
      split; [rewrite IH1; lra|]. rewrite IH2. simpl. lia.
    + rewrite countBlock_skip by done. by apply IH.
Qed.

(** X13. When every candidate block (place "Seattle", population at
    least 1) lies within the coverage, the population counted is the sum
    of the populations of the candidate blocks, and the number of blocks
    counted is the number of candidate blocks. *)
Theorem population_of_covered_blocks (w : option Polygon)
    (blocks : list (Block Polygon)) :
  (∀ b, b ∈ blocks → isCandidate b = true →
     booleanIntersects (Some (b_feature b)) w = Returned true ∧
     booleanWithin (Some (b_feature b)) w = Returned true) →
  ((populationInWalkshed w blocks).1 == candidatePopulation blocks)%Q ∧
  (populationInWalkshed w blocks).2 = length (List.filter isCandidate blocks).
Proof.
  intros Hall. unfold populationInWalkshed.
  destruct (fold_countBlock_within w blocks 0 0 Hall) as [H1 H2].
  split; [rewrite H1; lra|]. by rewrite H2.
Qed.

Lemma countBlock_count w p n (b : Block Polygon) :
  ((countBlock w (p, n) b).2 ≤ n + (if isCandidate b then 1 else 0))%nat ∧
  (n ≤ (countBlock w (p, n) b).2)%nat.
Proof.
  destruct (isCandidate b) eqn:Hc.
  - rewrite countBlock_candidate by done.
    unfold apportion, mbind, outcome_bind.
    destruct (booleanIntersects _ _) as [[|]|]; simpl; try lia.
    destruct (booleanWithin _ _) as [[|]|]; simpl; try lia.
    destruct (area (Some (b_feature b))); simpl; try lia.
    destruct (intersect _ _) as [[i|]|]; simpl; try lia.
    destruct (area (Some i)); simpl; lia.
  - rewrite countBlock_skip by done. simpl. lia.
Qed.

Lemma fold_countBlock_filter w (blocks : list (Block Polygon)) acc :
  fold_left (countBlock w) blocks acc
  = fold_left (countBlock w) (List.filter isCandidate blocks) acc.
Proof.
  revert acc. induction blocks as [|b blocks IH]; intros acc; [done|].
  cbn [fold_left List.filter]. destruct (isCandidate b) eqn:Hc.
  - cbn [fold_left]. apply IH.
  - rewrite countBlock_skip by done. apply IH.
Qed.

Lemma fold_countBlock_count w (blocks : list (Block Polygon)) p n :
  (n ≤ (fold_left (countBlock w) blocks (p, n)).2
     ≤ n + length (List.filter isCandidate blocks))%nat.
Proof.
  revert p n. induction blocks as [|b blocks IH]; intros p n.
  - simpl. lia.
  - cbn [fold_left List.filter].
    pose proof (countBlock_count w p n b) as [Hup Hlow].
    destruct (countBlock w (p, n) b) as [p' n'].
    specialize (IH p' n'). cbn [snd] in Hup, Hlow.
    destruct (isCandidate b); simpl; lia.
Qed.

(** X14. The blocks of another place, without a population or with a
    population below 1 play no part in the count: the result over a list
    of blocks is the result over its candidate blocks, in particular the
    number of blocks counted is at most the number of candidate blocks.
    A block for which a geometry test raises leaves the count as it is. *)
Theorem population_counts_candidates_only (w : option Polygon)
    (blocks : list (Block Polygon)) :
  populationInWalkshed w blocks
    = populationInWalkshed w (List.filter isCandidate blocks) ∧
  ((populationInWalkshed w blocks).2
     ≤ length (List.filter isCandidate blocks))%nat ∧
  (∀ b acc,
     booleanIntersects (Some (b_feature b)) w = Raised ∨
     (booleanIntersects (Some (b_feature b)) w = Returned true ∧
      booleanWithin (Some (b_feature b)) w = Raised) →
     countBlock w acc b = acc).
Proof.
  split; [apply fold_countBlock_filter|]. split.
  - unfold populationInWalkshed.
    pose proof (fold_countBlock_count w blocks 0 0). lia.
  - intros b acc Hraise. destruct (isCandidate b) eqn:Hc.
    + rewrite countBlock_candidate by done.
      unfold apportion, mbind, outcome_bind. destruct acc as [p n].
      destruct Hraise as [Hi|[Hi Hw]]; rewrite Hi; [done|]. by rewrite Hw.
    + by apply countBlock_skip.
Qed.
End PopulationFacts.

(** ** A future stop, from the generation to the display *)

Section FutureStopFacts.
Context {Polygon : Type} `{!Turf Polygon}.

Lemma loadFutureStops_2027 (futureStops : list FutureStop) :
  loadFutureStops "2027" (Some futureStops)
  = map (futureExtractedStop "2027")
      (List.filter isEnabledFutureStop futureStops).
Proof. done. Qed.

(** X6. The 2027 scenario, for a stop of the future-stops file that is
    enabled and has at least 4 trips in each hour from 6 to 18. The
    extraction script hands it to the generation and the site adds it to
    the stops displayed: the two filters agree. If the 2027 isochrone
    file is the result of a run on the stops extracted (distinct ids),
    and the request for the stop is answered with a 10-minute contour,
    then that contour is the walkshed of the stop on the site, provided
    no contour is stored under the id prefixed by year and feed; an
    entry of the 2025 file under the same id does not matter. *)
Theorem future_stop_is_displayed
    (files : string → option (list (IsoEntry Polygon)))
    (service : nat → ExtractedStop → option (list (Contour Polygon)))
    (existing : list (IsoEntry Polygon)) allStops futureStops i fstop
    features p :
  fstop ∈ futureStops →
  isEnabledFutureStop fstop = true →
  NoDup (map fu_id futureStops) →
  NoDup (map iso_stop_id existing) →
  files "2027"
    = Some (generateAllIsochrones service
              (loadFutureStops "2027" (Some futureStops)) existing) →
  stopsWithoutIsochrone (loadFutureStops "2027" (Some futureStops)) existing
    !! i = Some (futureExtractedStop "2027" fstop) →
  service i (futureExtractedStop "2027" fstop) = Some features →
  findContour 10 features = Some p →
  fu_id fstop ≠ "" →
  contourAt (loadIsochrones files "2027")
    ("2027" ++ "_soundtransit_" ++ fu_id fstop) = None →
  contourAt (loadIsochrones files "2027")
    ("2027" ++ "_metro_" ++ fu_id fstop) = None →
  futureExtractedStop "2027" fstop ∈ loadFutureStops "2027" (Some futureStops) ∧
  ofFutureStop fstop ∈ finalStopList allStops "2027" (Some futureStops) ∧
  walkshedOf (loadIsochrones files "2027") "2027" (ofFutureStop fstop) = p.
Proof.
  intros Hin Hen Hids Hexisting Hfile Hi Hans Hp Hid H1 H2.
  assert (Hkept : fstop ∈ List.filter isEnabledFutureStop futureStops).
  { apply list_elem_of_In, filter_In. split; [by apply list_elem_of_In|done]. }
  split; [|split].
  - rewrite loadFutureStops_2027. by apply list_elem_of_fmap_2.
  - unfold finalStopList, addFutureStops.
    rewrite bool_decide_eq_true_2 by (unfold futureYears; left).
    apply elem_of_app. right. by apply list_elem_of_fmap_2.
  - assert (Hstops : NoDup (map es_id
                       (loadFutureStops "2027" (Some futureStops)))).
    { rewrite loadFutureStops_2027, map_map. cbn [futureExtractedStop es_id].
      by apply (sublist_NoDup _ _ Hids), sublist_map_filter. }
    pose proof (generated_entry_is_last service _ existing i _ features
                  Hstops Hexisting Hi Hans) as Hlast.
    cbn [futureExtractedStop es_id] in Hlast.
    apply (walkshedOf_raw_id _ _ _ (contoursOf features)); try done.
    unfold loadIsochrones, yearsToLoad. cbn [String.eqb Ascii.eqb Bool.eqb
      fold_left ofFutureStop fs_id].
    rewrite loadYear_lookup, Hfile. cbn [default from_option Datatypes.id].
    destruct (lastWithId (fu_id fstop) _); [exact Hlast|done].
Qed.
End FutureStopFacts.

(** ** The hour of a stop time *)

Lemma split_head_digits hh rest :
  forallb isDigit (list_ascii_of_string hh) = true →
  split_head ":" (hh ++ ":" ++ rest) = hh.
Proof.
  induction hh as [|c hh IH]; [done|]. simpl.
  intros [Hc Hs]%andb_true_iff.
  destruct (Ascii.eqb_spec c ":") as [->|_]; [done|]. by rewrite IH.
Qed.

Lemma numKey_hour (h : nat) :
  (h < 24)%nat → numKey (Some (Z.of_nat h)) = toString h.
Proof.
  intros Hh. do 24 (destruct h as [|h]; [reflexivity|]). lia.
Qed.

(** X15. A time whose hour is written in digits is counted under the
    remainder by 24 of the double nearest to the number written, and
    under no hour when that double is an infinity. When the number is at
    most [2^53], so that it is read as written, this is the hour modulo
    24: the key is one of the 24 hours that the profile reads, and a
    time past midnight such as 25:30:00 is counted with the hour from
    1. *)
Theorem hour_of_stop_time_wraps hh rest :
  hh ≠ "" →
  forallb isDigit (list_ascii_of_string hh) = true →
  hourOf (hh ++ ":" ++ rest)
    = (λ z, z mod 24) <$> roundToDouble (decimal hh) ∧
  (decimal hh ≤ 2 ^ 53 →
   ∃ h, (h < 24)%nat ∧
        Z.of_nat h = decimal hh mod 24 ∧
        hourOf (hh ++ ":" ++ rest) = Some (Z.of_nat h) ∧
        numKey (hourOf (hh ++ ":" ++ rest)) = toString h).
Proof.
  intros Hne Hdigits.
  pose proof (decimalFrom_nonneg 0 hh Hdigits ltac:(lia)) as Hpos.
  fold (decimal hh) in Hpos.
  assert (Hgen : hourOf (hh ++ ":" ++ rest)
                 = (λ z, z mod 24) <$> roundToDouble (decimal hh)).
  { unfold hourOf. rewrite split_head_digits, parseInt_digits_rounded by done.
    unfold js_rem.
    destruct (roundToDouble (decimal hh)) as [y|] eqn:Hy; [|done].
    simpl. f_equal. apply Z.rem_mod_nonneg; [|lia].
    by apply (roundToDouble_nonneg (decimal hh)). }
  split; [exact Hgen|]. intros Hsmall.
  assert (Hrange : 0 ≤ decimal hh mod 24 < 24) by (apply Z.mod_pos_bound; lia).
  exists (Z.to_nat (decimal hh mod 24)).
  assert (Hhour : hourOf (hh ++ ":" ++ rest)
                  = Some (Z.of_nat (Z.to_nat (decimal hh mod 24)))).
  { rewrite Hgen, roundToDouble_small by lia. simpl. f_equal. lia. }
  split; [lia|]. split; [lia|]. split; [exact Hhour|].
  rewrite Hhour. apply numKey_hour. lia.
Qed.

(** Beyond [2^53] the hour is that of the double: 9007199254740993 is
    read as 9007199254740992, and a number of 23 digits as the double
    next to it. *)
Example hour_of_long_digits :
  decimal "9007199254740993" mod 24 = 9 ∧
  hourOf "9007199254740993:00:00" = Some 8 ∧
  decimal "99999999999999999999999" mod 24 = 15 ∧
  hourOf "99999999999999999999999:00:00" = Some 8.
Proof. repeat split; vm_compute; reflexivity. Qed.

(** ** The services selected *)

Lemma startDatesOf_nil entries :
  (∀ c, c ∈ entries → start_date c = None ∨ start_date c = Some "") →
  startDatesOf entries = [].
Proof.
  intros Hnone. destruct (startDatesOf entries) as [|d l] eqn:Hd; [done|].
  assert (d ∈ startDatesOf entries) as Hin by (rewrite Hd; left).
  apply elem_of_startDatesOf in Hin as (c & Hc & Hs & Hne).
  destruct (Hnone c Hc) as [Hn|Hn]; congruence.
Qed.

(** X16. Whatever the calendar, and however long the loop runs, a
    service id that the selection returns is the id of an entry of the
    calendar that is active on all of Monday to Friday. When no such
    entry has a start date, nothing is selected, although weekday
    entries may exist. *)
Theorem selected_services_are_weekday_services fuel calendar ids :
  getRelevantServiceIds fuel calendar = Some ids →
  (∀ id, id ∈ ids →
     ∃ c, c ∈ calendar ∧ activeMondayToFriday c ∧ c_service_id c = id) ∧
  ((∀ c, c ∈ calendar → activeMondayToFriday c →
      start_date c = None ∨ start_date c = Some "") →
   ids = ∅).
Proof.
  unfold getRelevantServiceIds. cbv zeta. intros Hsel. split.
  - intros id Hid.
    destruct (length _ =? 0)%nat;
      [injection Hsel as <-; by apply elem_of_empty in Hid|].
    destruct (last _) as [latest|];
      [|injection Hsel as <-; by apply elem_of_empty in Hid].
    destruct (firstWednesday _ _) as [w|]; [|done].
    injection Hsel as <-.
    apply elem_of_list_to_set, list_elem_of_fmap in Hid as (c & -> & Hc).
    apply list_elem_of_In, filter_In in Hc as [Hc _].
    apply filter_In in Hc as [Hc Hwd].
    exists c. split; [by apply list_elem_of_In|].
    split; [by apply isWeekdayEntry_iff|done].
  - intros Hnone.
    destruct (length _ =? 0)%nat; [by injection Hsel as <-|].
    rewrite startDatesOf_nil in Hsel; [by injection Hsel as <-|].
    intros c [Hc Hwd]%list_elem_of_In%filter_In.
    apply Hnone; [by apply list_elem_of_In|by apply isWeekdayEntry_iff].
Qed.

(** ** FrequencyAggregator: the stops that get a profile *)

Lemma noBar_key_stop s1 s2 r1 r2 :
  noBar s1 → noBar s2 → s1 ++ "|" ++ r1 = s2 ++ "|" ++ r2 → s1 = s2.
Proof.
  unfold noBar. revert s2.
  induction s1 as [|c1 s1 IH]; intros [|c2 s2]; simpl; try done.
  - intros _ [Hc _]%andb_true_iff Heq. cbn [String.append] in Heq.
    injection Heq as <- _. done.
  - intros [Hc _]%andb_true_iff _ Heq. cbn [String.append] in Heq.
    injection Heq as -> _. done.
  - intros [_ H1]%andb_true_iff [_ H2]%andb_true_iff Heq.
    cbn [String.append] in Heq. injection Heq as -> Heq.
    f_equal. by apply IH.
Qed.

Lemma tripInfoOf_lookup trips id :
  is_Some (tripInfoOf trips !! id) ↔ ∃ t, t ∈ trips ∧ trip_id t = id.
Proof.
  unfold tripInfoOf.
  assert (Hgen : ∀ (info : gmap string TripInfo),
            is_Some (fold_left
                       (λ info t,
                          <[trip_id t := {| ti_route_id := route_id t;
                                            ti_direction_id := direction_id t;
                                            ti_service_id := service_id t |}]>
                            info) trips info !! id) ↔
            is_Some (info !! id) ∨ ∃ t, t ∈ trips ∧ trip_id t = id).
  { induction trips as [|t trips IH]; intros info.
    - simpl. split; [by left|]. intros [H|(t & Ht & _)]; [done|].
      by apply elem_of_nil in Ht.
    - cbn [fold_left]. rewrite IH. split.
      + intros [Hs|(t' & Ht' & Hid)].
        * destruct (decide (trip_id t = id)) as [Heq|Hne].
          -- right. exists t. split; [left|done].
          -- rewrite lookup_insert_ne in Hs by done. by left.
        * right. exists t'. split; [by right|done].
      + intros [Hs|(t' & [->|Ht']%elem_of_cons & Hid)].
        * left. destruct (decide (trip_id t = id)) as [<-|Hne].
          -- rewrite lookup_insert_eq. by eexists.
          -- by rewrite lookup_insert_ne.
        * left. rewrite <- Hid, lookup_insert_eq. by eexists.
        * right. by exists t'. }
  rewrite Hgen, lookup_empty. split; [|by right].
  intros [[? ?]|H]; done.
Qed.

Lemma elem_of_activeTripsOf trips activeServiceIds id :
  id ∈ activeTripsOf trips activeServiceIds ↔
  ∃ t, t ∈ trips ∧ trip_id t = id ∧ service_id t ∈ activeServiceIds.
Proof.
  unfold activeTripsOf. rewrite elem_of_list_to_set, list_elem_of_fmap. split.
  - intros (t & -> & [Ht Hs%bool_decide_eq_true]%list_elem_of_In%filter_In).
    exists t. split; [by apply list_elem_of_In|done].
  - intros (t & Ht & <- & Hs). exists t. split; [done|].
    apply list_elem_of_In, filter_In. split; [by apply list_elem_of_In|].
    by apply bool_decide_eq_true.
Qed.

(** The stop times that are retained are the active calls, and the key
    of the row begins with the id of the stop. *)
Lemma retainedRow_isActiveCall trips activeServiceIds st :
  is_Some (retainedRow trips activeServiceIds st) ↔
  isActiveCall trips activeServiceIds st.
Proof.
  unfold retainedRow, isActiveCall. split.
  - intros Hsome. case_bool_decide as Hact; [|by destruct Hsome].
    split; [by apply elem_of_activeTripsOf|].
    destruct (or_else _ _) as [[|a time]|]; try (by destruct Hsome).
    by eexists.
  - intros [Hex (time & Htime & Hne)].
    rewrite bool_decide_eq_true_2 by (by apply elem_of_activeTripsOf).
    rewrite Htime. destruct time as [|a time]; [done|].
    destruct Hex as (t & Ht & Hid & _).
    destruct (proj2 (tripInfoOf_lookup trips (st_trip_id st))) as [info ->];
      [by exists t|]. by eexists.
Qed.

Lemma retainedRow_key trips activeServiceIds st k hk t :
  retainedRow trips activeServiceIds st = Some (k, hk, t) →
  ∃ rest, k = st_stop_id st ++ "|" ++ rest.
Proof.
  unfold retainedRow. case_bool_decide; [|done].
  destruct (or_else _ _) as [[|a time]|]; try done.
  destruct (tripInfoOf trips !! st_trip_id st) as [trip|]; [|done].
  intros [= <- _ _]. unfold groupKey. by eexists.
Qed.

(** The step of the aggregator, as to the stop of the group it sets. *)
Lemma countStopTime_stop trips activeServiceIds srdh st :
  st_trip_id st ∈ activeTripsOf trips activeServiceIds →
  match retainedRow trips activeServiceIds st with
  | None => countStopTime (tripInfoOf trips) srdh st = srdh
  | Some (k, hk, t) =>
      ∃ g', countStopTime (tripInfoOf trips) srdh st = obj_set srdh k g' ∧
            stop_id g' = match obj_get srdh k with
                         | Some g => stop_id g
                         | None => st_stop_id st
                         end
  end.
Proof.
  intros Hact. unfold retainedRow, countStopTime. cbv zeta.
  rewrite bool_decide_eq_true_2 by done.
  destruct (or_else (arrival_time st) (departure_time st)) as [[|a time]|];
    [done| |reflexivity].
  destruct (tripInfoOf trips !! st_trip_id st) as [trip|]; [|done].
  eexists. split; [reflexivity|]. cbn [stop_id].
  by destruct (obj_get srdh _).
Qed.

Lemma elem_of_obj_set {V} (o : list (string * V)) k v k' v' :
  (k', v') ∈ obj_set o k v → (k', v') = (k, v) ∨ (k', v') ∈ o.
Proof.
  induction o as [|[k0 v0] o IH]; simpl.
  - intros ->%list_elem_of_singleton. by left.
  - destruct (String.eqb k0 k).
    + intros [->|Hin]%elem_of_cons; [by left|]. right. by right.
    + intros [->|Hin]%elem_of_cons; [right; left|].
      destruct (IH Hin) as [->|Hin']; [by left|]. right. by right.
Qed.

Lemma obj_get_elem_of {V} (o : list (string * V)) k v :
  obj_get o k = Some v → v ∈ obj_values o.
Proof.
  unfold obj_values. induction o as [|[k0 v0] o IH]; simpl; [done|].
  destruct (String.eqb k0 k).
  - intros [= ->]. left.
  - intros Hget. right. by apply IH.
Qed.

(** What the group table holds, as to stops, after the stop times
    [seen]: every group is the group of a retained stop time of its stop,
    and every retained stop time has the group of its key, which is a
    group of its stop. *)
Lemma groups_by_stop trips activeServiceIds (l seen : list StopTime) srdh :
  (∀ st, st ∈ seen ∨ st ∈ l → noBar (st_stop_id st)) →
  (∀ st, st ∈ l → st_trip_id st ∈ activeTripsOf trips activeServiceIds) →
  (∀ k g, (k, g) ∈ srdh →
     ∃ st hk t, st ∈ seen ∧
       retainedRow trips activeServiceIds st = Some (k, hk, t) ∧
       st_stop_id st = stop_id g) →
  (∀ st k hk t, st ∈ seen →
     retainedRow trips activeServiceIds st = Some (k, hk, t) →
     ∃ g, obj_get srdh k = Some g ∧ stop_id g = st_stop_id st) →
  let srdh' := fold_left (countStopTime (tripInfoOf trips)) l srdh in
  (∀ k g, (k, g) ∈ srdh' →
     ∃ st hk t, (st ∈ seen ∨ st ∈ l) ∧
       retainedRow trips activeServiceIds st = Some (k, hk, t) ∧
       st_stop_id st = stop_id g) ∧
  (∀ st k hk t, st ∈ seen ∨ st ∈ l →
     retainedRow trips activeServiceIds st = Some (k, hk, t) →
     ∃ g, obj_get srdh' k = Some g ∧ stop_id g = st_stop_id st).
Proof.
  revert seen srdh.
  induction l as [|st l IH]; intros seen srdh Hbar Hact Hgroups Hrows; cbv zeta.
  - simpl. split.
    + intros k g Hin. destruct (Hgroups k g Hin) as (st & hk & t & ? & ? & ?).
      exists st, hk, t. auto.
    + intros st k hk t [Hin|Hin]; [by apply Hrows|by apply elem_of_nil in Hin].
  - cbn [fold_left].
    set (srdh1 := countStopTime (tripInfoOf trips) srdh st).
    assert (Hmem : ∀ st', st' ∈ (seen ++ [st])%list ∨ st' ∈ l ↔
                          st' ∈ seen ∨ st' ∈ st :: l).
    { intros st'. rewrite elem_of_app, list_elem_of_singleton, elem_of_cons.
      tauto. }
    pose proof (countStopTime_stop trips activeServiceIds srdh st
                  (Hact st ltac:(left))) as Hstep. fold srdh1 in Hstep.
    destruct (IH (seen ++ [st])%list srdh1) as [IH1 IH2].
    + intros st' Hst'. apply Hbar. by apply Hmem.
    + intros st' Hst'. apply Hact. by right.
    + intros k g Hin.
      destruct (retainedRow trips activeServiceIds st)
        as [[[k0 hk0] t0]|] eqn:Hrow.
      * destruct Hstep as (g' & Hset & Hstop). rewrite Hset in Hin.
        apply elem_of_obj_set in Hin as [[= -> ->]|Hin].
        -- exists st, hk0, t0. split; [apply elem_of_app; right; left|].
           split; [done|]. rewrite Hstop.
           destruct (obj_get srdh k0) as [g0|] eqn:Hget; [|done].
           assert (Hin0 : (k0, g0) ∈ srdh).
           { clear -Hget. induction srdh as [|[k1 g1] o IHo]; [done|].
             simpl in Hget. destruct (String.eqb_spec k1 k0) as [->|_].
             - injection Hget as ->. left.
             - right. by apply IHo. }
           destruct (Hgroups k0 g0 Hin0) as (st0 & hk1 & t1 & Hs0 & Hr0 & <-).
           destruct (retainedRow_key _ _ _ _ _ _ Hrow) as [r1 Hk1].
           destruct (retainedRow_key _ _ _ _ _ _ Hr0) as [r0 Hk0].
           rewrite Hk1 in Hk0.
           apply (noBar_key_stop _ _ _ _ (Hbar st ltac:(right; left))
                    (Hbar st0 ltac:(by left)) Hk0).
        -- destruct (Hgroups k g Hin) as (st0 & hk1 & t1 & Hs0 & Hr0 & Hid).
           exists st0, hk1, t1. split; [apply elem_of_app; by left|done].
      * rewrite Hstep in Hin.
        destruct (Hgroups k g Hin) as (st0 & hk1 & t1 & Hs0 & Hr0 & Hid).
        exists st0, hk1, t1. split; [apply elem_of_app; by left|done].
    + intros st' k hk t [Hin|Heq%list_elem_of_singleton]%elem_of_app Hrow'.
      * destruct (Hrows st' k hk t Hin Hrow') as (g & Hget & Hid).
        destruct (retainedRow trips activeServiceIds st)
          as [[[k0 hk0] t0]|] eqn:Hrow; [|subst srdh1; rewrite Hstep; eauto].
        destruct Hstep as (g' & Hset & Hstop). subst srdh1.
        rewrite Hset, obj_get_set.
        case_decide as Hk; [|eauto]. subst k0. rewrite Hget in Hstop.
        exists g'. split; [done|]. by rewrite Hstop.
      * subst st'. rewrite Hrow' in Hstep.
        destruct Hstep as (g' & Hset & Hstop). subst srdh1. rewrite Hset.
        rewrite obj_get_set, decide_True by done.
        exists g'. split; [done|]. rewrite Hstop.
        destruct (obj_get srdh k) as [g0|] eqn:Hget; [|done].
        assert (Hin0 : (k, g0) ∈ srdh).
        { clear -Hget. induction srdh as [|[k1 g1] o IHo]; [done|].
          simpl in Hget. destruct (String.eqb_spec k1 k) as [->|_].
          - injection Hget as ->. left.
          - right. by apply IHo. }
        destruct (Hgroups k g0 Hin0) as (st0 & hk1 & t1 & Hs0 & Hr0 & <-).
        destruct (retainedRow_key _ _ _ _ _ _ Hrow') as [r1 Hk1].
        destruct (retainedRow_key _ _ _ _ _ _ Hr0) as [r0 Hk0].
        rewrite Hk1 in Hk0. symmetry.
        apply (noBar_key_stop _ _ _ _ (Hbar st ltac:(right; left))
                 (Hbar st0 ltac:(by left)) Hk0).
    + split.
      * intros k g Hin. destruct (IH1 k g Hin) as (st0 & hk & t & Hm & ? & ?).
        exists st0, hk, t. split; [by apply Hmem|done].
      * intros st' k hk t Hm. apply IH2. by apply Hmem.
Qed.

(** X17. With some service selected, and no ["|"] in the stop ids of
    [stop_times.txt], a stop gets a profile exactly when some stop time
    at it is counted: one whose trip is a row of [trips.txt] with a
    selected service, and which has an arrival or a departure time. *)
Theorem profile_iff_active_call stopTimes trips activeServiceIds stop :
  size activeServiceIds ≠ 0%nat →
  (∀ st, st ∈ stopTimes → noBar (st_stop_id st)) →
  is_Some (calculateStopFrequencies stopTimes trips activeServiceIds !! stop) ↔
  ∃ st, st ∈ stopTimes ∧ st_stop_id st = stop ∧
        isActiveCall trips activeServiceIds st.
Proof.
  intros Hsize Hbar. rewrite stop_profile_exists by done.
  unfold stopRouteDirectionHeadways. cbv zeta.
  set (active := List.filter _ stopTimes).
  assert (Hactive : ∀ st, st ∈ active ↔
            st ∈ stopTimes ∧
            st_trip_id st ∈ activeTripsOf trips activeServiceIds).
  { intros st. unfold active.
    rewrite list_elem_of_In, filter_In, bool_decide_eq_true.
    by rewrite list_elem_of_In. }
  destruct (groups_by_stop trips activeServiceIds active [] []) as [H1 H2].
  - intros st [Hst|Hst]; [by apply elem_of_nil in Hst|].
    apply Hbar. by apply Hactive.
  - intros st Hst. by apply Hactive.
  - intros k g Hin. by apply elem_of_nil in Hin.
  - intros st k hk t Hin. by apply elem_of_nil in Hin.
  - split.
    + intros (g & Hg & Hstop). unfold obj_values in Hg.
      apply list_elem_of_fmap in Hg as ([k g'] & -> & Hin).
      destruct (H1 k g' Hin) as (st & hk & t & [Hst|Hst] & Hrow & Hid);
        [by apply elem_of_nil in Hst|].
      exists st. split; [by apply Hactive|]. split; [by rewrite Hid|].
      apply retainedRow_isActiveCall. by rewrite Hrow.
    + intros (st & Hst & Hstop & Hcall).
      pose proof Hcall as [Hact%elem_of_activeTripsOf _].
      apply retainedRow_isActiveCall in Hcall as [[[k hk] t] Hrow].
      destruct (H2 st k hk t) as (g & Hget & Hid); [|done|].
      * right. by apply Hactive.
      * exists g. split; [by eapply obj_get_elem_of|by rewrite Hid].
Qed.

(** ** FrequencyAggregator: the profile and the distinct trips *)

Lemma obj_set_keys {V} (o : list (string * V)) k v :
  map fst (obj_set o k v)
  = if bool_decide (k ∈ map fst o) then map fst o
    else (map fst o ++ [k])%list.
Proof.
  induction o as [|[k0 v0] o IH]; [done|]. simpl.
  destruct (String.eqb_spec k0 k) as [->|Hne]; simpl.
  - by rewrite bool_decide_eq_true_2 by left.
  - rewrite IH. case_bool_decide as Hin.
    + by rewrite bool_decide_eq_true_2 by (by right).
    + rewrite bool_decide_eq_false_2; [done|].
      intros [Heq|Hin']%elem_of_cons; [congruence|done].
Qed.

Lemma obj_set_NoDup {V} (o : list (string * V)) k v :
  NoDup (map fst o) → NoDup (map fst (obj_set o k v)).
Proof.
  intros Hnd. rewrite obj_set_keys. case_bool_decide as Hin; [done|].
  apply NoDup_app. split; [done|]. split; [|apply NoDup_singleton].
  intros x Hx ->%list_elem_of_singleton. done.
Qed.

Lemma obj_get_NoDup {V} (o : list (string * V)) k v :
  NoDup (map fst o) → (k, v) ∈ o → obj_get o k = Some v.
Proof.
  induction o as [|[k0 v0] o IH]; intros Hnd Hin; [by apply elem_of_nil in Hin|].
  simpl in Hnd |- *. apply NoDup_cons in Hnd as [Hk0 Hnd].
  apply elem_of_cons in Hin as [[= -> ->]|Hin].
  - by rewrite String.eqb_refl.
  - destruct (String.eqb_spec k0 k) as [->|_]; [|by apply IH].
    destruct Hk0. apply list_elem_of_fmap. by exists (k, v).
Qed.

(** The keys of the group table are distinct. *)
Lemma group_keys_NoDup trips activeServiceIds (l : list StopTime) srdh :
  (∀ st, st ∈ l → st_trip_id st ∈ activeTripsOf trips activeServiceIds) →
  NoDup (map fst srdh) →
  NoDup (map fst (fold_left (countStopTime (tripInfoOf trips)) l srdh)).
Proof.
  revert srdh. induction l as [|st l IH]; intros srdh Hact Hnd; [done|].
  cbn [fold_left]. apply IH; [intros st' Hst'; apply Hact; by right|].
  pose proof (countStopTime_stop trips activeServiceIds srdh st
                (Hact st ltac:(left))) as Hstep.
  destruct (retainedRow trips activeServiceIds st) as [[[k hk] t]|].
  - destruct Hstep as (g' & -> & _). by apply obj_set_NoDup.
  - by rewrite Hstep.
Qed.


Lemma sampleRows :
  retainedRows sampleStopTimes sampleTrips {[ "WK" ]}
  = [ ("S|10|0", "6", "A1"); ("S|10|0", "6", "A2"); ("S|20|0", "6", "B1");
      ("S|20|0", "6", "B2"); ("S|20|0", "6", "B3"); ("S|20|0", "6", "B3");
      ("T|10|0", "6", "A1") ].
Proof. vm_compute. reflexivity. Defined.

Lemma sampleRows_shape k hk t :
  (k, hk, t) ∈ retainedRows sampleStopTimes sampleTrips {[ "WK" ]} →
  hk = "6" ∧ t ≠ "6" ∧ t ∉ objectPrototypeKeys.
Proof.
  rewrite sampleRows. intros H.
  repeat (apply elem_of_cons in H as [H|H];
          [injection H as -> -> ->; split; [reflexivity|];
           split; [intros H; discriminate H|];
           apply (bool_decide_unpack _); vm_compute; reflexivity|]).
  by apply elem_of_nil in H.
Defined.

Lemma sampleRows_noHourKeyCollision :
  noHourKeyCollision (retainedRows sampleStopTimes sampleTrips {[ "WK" ]}).
Proof.
  intros k hk t k' hk' t' H1 H2.
  destruct (sampleRows_shape _ _ _ H1) as (_ & Ht & _).
  destruct (sampleRows_shape _ _ _ H2) as (-> & _). exact Ht.
Defined.

Lemma sampleRows_noInheritedKey :
  noInheritedKey (retainedRows sampleStopTimes sampleTrips {[ "WK" ]}).
Proof.
  intros k hk t H1. by destruct (sampleRows_shape _ _ _ H1) as (_ & _ & Ht).
Defined.

Lemma sampleStopTimes_noBar :
  ∀ st, st ∈ sampleStopTimes → noBar (st_stop_id st).
Proof.
  intros st Hst. unfold sampleStopTimes in Hst.
  repeat (apply elem_of_cons in Hst as [->|Hst]);
    try reflexivity. by apply elem_of_nil in Hst.
Defined.


Example sample_distinct_trips :
  sampleProfile !! "6" = Some 3 ∧
  size (distinctTripIds sampleStopTimes sampleTrips {[ "WK" ]} "S|10|0" 6)
  = 2%nat ∧
  size (distinctTripIds sampleStopTimes sampleTrips {[ "WK" ]} "S|20|0" 6)
  = 3%nat.
Proof. repeat split; vm_compute; reflexivity. Qed.


(** ** The further properties on the sample data *)

Lemma sampleExtractedStops_NoDup : NoDup (map es_id sampleExtractedStops).
Proof. apply (bool_decide_unpack _). vm_compute. reflexivity. Defined.

Lemma sampleService_answers :
  ∀ i stop, stop ∈ sampleExtractedStops → is_Some (sampleService i stop).
Proof. intros i stop _. unfold sampleService. by eexists. Defined.

(** A run on the three sample stops from an empty file. *)
Lemma generateAllIsochrones_NoDup_witness :
  NoDup (map es_id sampleExtractedStops) ∧
  NoDup (map iso_stop_id ([] : list (IsoEntry Cells))) ∧
  NoDup (map iso_stop_id
           (generateAllIsochrones sampleService sampleExtractedStops [])).
Proof.
  split; [exact sampleExtractedStops_NoDup|]. split; [constructor|].
  apply generateAllIsochrones_NoDup;
    [exact sampleExtractedStops_NoDup|constructor].
Defined.

(** A run that is answered throughout, followed by a run while the
    service is down. *)
Lemma generateAllIsochrones_resume_witness :
  (∀ i stop, stop ∈ sampleExtractedStops → is_Some (sampleService i stop)) ∧
  (∀ stop, stop ∈ sampleExtractedStops →
     es_id stop
     ∈ map iso_stop_id
         (generateAllIsochrones sampleService sampleExtractedStops [])) ∧
  generateAllIsochrones noService sampleExtractedStops
    (generateAllIsochrones sampleService sampleExtractedStops [])
  = generateAllIsochrones sampleService sampleExtractedStops [].
Proof.
  split; [exact sampleService_answers|].
  exact (generateAllIsochrones_resume sampleService noService
           sampleExtractedStops [] sampleService_answers).
Defined.

(** The first sample stop, at longitude 2: its walkshed on the site is
    the contour of cells 1 to 3 that the service returned. *)
Lemma generated_isochrone_is_displayed_witness :
  String.eqb "2025" "2027" = false ∧
  NoDup (map es_id sampleExtractedStops) ∧
  NoDup (map iso_stop_id ([] : list (IsoEntry Cells))) ∧
  sampleFiles "2025"
    = Some (generateAllIsochrones sampleService sampleExtractedStops []) ∧
  stopsWithoutIsochrone sampleExtractedStops ([] : list (IsoEntry Cells))
    !! 0%nat = Some (sampleExtracted "2025_metro_1" 2) ∧
  walkshedOf (loadIsochrones sampleFiles "2025") "2025"
    (toFrequentStop (readAllStop (sampleExtracted "2025_metro_1" 2)))
  = ({[ 1; 2; 3 ]}%nat : Cells).
Proof.
  split; [reflexivity|]. split; [exact sampleExtractedStops_NoDup|].
  split; [constructor|]. split; [reflexivity|]. split; [reflexivity|].
  apply (proj2 (generated_isochrone_is_displayed sampleFiles sampleService
                  sampleExtractedStops [] "2025" 0
                  (sampleExtracted "2025_metro_1" 2) _
                  eq_refl sampleExtractedStops_NoDup NoDup_nil_2
                  eq_refl eq_refl eq_refl)).
  - vm_compute. reflexivity.
  - intros H. discriminate H.
  - vm_compute. reflexivity.
  - vm_compute. reflexivity.
Defined.

Lemma plannedStops_NoDup : NoDup (map fu_id plannedStops).
Proof. apply (bool_decide_unpack _). vm_compute. reflexivity. Defined.

(** The planned stop that is switched on, in the 2027 scenario. *)
Lemma future_stop_is_displayed_witness :
  plannedStop "future_A" None ∈ plannedStops ∧
  isEnabledFutureStop (plannedStop "future_A" None) = true ∧
  NoDup (map fu_id plannedStops) ∧
  futureExtractedStop "2027" (plannedStop "future_A" None)
    ∈ loadFutureStops "2027" (Some plannedStops) ∧
  ofFutureStop (plannedStop "future_A" None)
    ∈ finalStopList [stop77; stop76] "2027" (Some plannedStops) ∧
  walkshedOf (loadIsochrones sampleFiles2027 "2027") "2027"
    (ofFutureStop (plannedStop "future_A" None))
  = ({[ 0; 1 ]}%nat : Cells).
Proof.
  assert (Hin : plannedStop "future_A" None ∈ plannedStops) by left.
  assert (Hen : isEnabledFutureStop (plannedStop "future_A" None) = true)
    by (vm_compute; reflexivity).
  split; [exact Hin|]. split; [exact Hen|].
  split; [exact plannedStops_NoDup|].
  apply (future_stop_is_displayed sampleFiles2027 sampleService []
           [stop77; stop76] plannedStops 0 (plannedStop "future_A" None)
           _ ({[ 0; 1 ]}%nat : Cells) Hin Hen plannedStops_NoDup
           NoDup_nil_2 eq_refl eq_refl eq_refl).
  - vm_compute. reflexivity.
  - intros H. discriminate H.
  - vm_compute. reflexivity.
  - vm_compute. reflexivity.
Defined.

Lemma sampleDisk_NoDup :
  ∀ path zip, sampleDisk path = Some zip →
    NoDup (map r_stop_id (default [] (stops_txt zip))).
Proof.
  intros path zip. unfold sampleDisk.
  destruct (String.eqb path _); [|destruct (String.eqb path _)];
    intros H; [| |discriminate H]; injection H as <-;
    apply (bool_decide_unpack _); vm_compute; reflexivity.
Defined.

(** The 2025 dataset of the sample disk: the stop "S" of the Metro
    archive and the stop "S" of the Sound Transit archive are both kept,
    under different ids. *)
Lemma merged_ids_NoDup_witness :
  (∀ path zip, sampleDisk path = Some zip →
     NoDup (map r_stop_id (default [] (stops_txt zip)))) ∧
  NoDup (map fu_id (default [] (None : option (list FutureStop)))) ∧
  ∃ mergedStops,
    mainMergedStops sampleParseFloat sampleDisk 6 "2025" None
      = Some (Merged mergedStops) ∧
    map es_id mergedStops
      = ["2025_metro_S"; "2025_metro_T"; "2025_soundtransit_S"] ∧
    NoDup (map es_id mergedStops).
Proof.
  split; [exact sampleDisk_NoDup|]. split; [constructor|].
  eexists. split; [vm_compute; reflexivity|]. split; [reflexivity|].
  apply (merged_ids_NoDup sampleParseFloat sampleDisk 6 "2025" None _
           sampleDisk_NoDup NoDup_nil_2).
  vm_compute. reflexivity.
Defined.

Lemma weekendCalendar_no_weekday :
  ∀ c, c ∈ weekendCalendar → ¬ activeMondayToFriday c.
Proof.
  intros c Hc. unfold weekendCalendar in Hc.
  apply list_elem_of_singleton in Hc as ->.
  intros (Hmon & _). simpl in Hmon. discriminate Hmon.
Defined.

(** The archive with weekend service only. *)
Lemma extraction_without_service_witness :
  (stop_times_txt weekendZip = None ∨ trips_txt weekendZip = None ∨
   calendar_txt weekendZip = None ∨
   ∃ calendar, calendar_txt weekendZip = Some calendar ∧
               ∀ c, c ∈ calendar → ¬ activeMondayToFriday c) ∧
  ∃ stops,
    extractStopsFromZip sampleParseFloat 0 weekendZip "metro" "2025"
      = Some stops ∧
    ∀ s, s ∈ stops → isFrequentStop (readAllStop s) = false.
Proof.
  assert (H : stop_times_txt weekendZip = None ∨ trips_txt weekendZip = None ∨
              calendar_txt weekendZip = None ∨
              ∃ calendar, calendar_txt weekendZip = Some calendar ∧
                          ∀ c, c ∈ calendar → ¬ activeMondayToFriday c).
  { right. right. right. exists weekendCalendar.
    split; [reflexivity|exact weekendCalendar_no_weekday]. }
  split; [exact H|].
  exact (extraction_without_service sampleParseFloat 0 weekendZip "metro"
           "2025" H).
Defined.

(** The sample stops with a boundary that cannot be simplified. *)
Lemma unsimplifiable_boundary_is_ignored_witness :
  @area Cells (faultyTurf true ∅) (head (features sampleBoundary))
    = Returned (4 # 1) ∧
  @simplify Cells (faultyTurf true ∅) (head (features sampleBoundary))
    {| tolerance := 1 # 1000; highQuality := false |} = Raised ∧
  @calculateWalkshedCoverage Cells (faultyTurf true ∅) true sampleIsochrones
    "2025" sampleStops (Some sampleBoundary)
  = @calculateWalkshedCoverage Cells (faultyTurf true ∅) true sampleIsochrones
      "2025" sampleStops None.
Proof.
  split; [vm_compute; reflexivity|]. split; [reflexivity|].
  apply (@unsimplifiable_boundary_is_ignored Cells (faultyTurf true ∅) true
           sampleIsochrones "2025" sampleStops sampleBoundary (4 # 1)).
  - vm_compute. reflexivity.
  - reflexivity.
Defined.

(** The sample stops clipped to the city of cells 0 to 3, when the area
    of a polygon within the cells 1 to 3 cannot be taken: the union of
    six cells is kept whole, next to the remainder of three cells. *)
Lemma unmeasurable_clip_falls_back_witness :
  sampleStops ≠ [] ∧
  @area Cells (faultyTurf false {[ 1; 2; 3 ]}%nat)
    (head (features sampleBoundary)) = Returned (4 # 1) ∧
  @area Cells (faultyTurf false {[ 1; 2; 3 ]}%nat)
    (Some ({[ 1; 2; 3 ]}%nat : Cells)) = Raised ∧
  @calculateWalkshedCoverage Cells (faultyTurf false {[ 1; 2; 3 ]}%nat) true
    sampleIsochrones "2025" sampleStops (Some sampleBoundary)
  = {| mergedPolygon := Some ({[ 1; 2; 3; 8; 9; 10 ]}%nat : Cells);
       mergedPolygonOutOfBounds := Some ({[ 8; 9; 10 ]}%nat : Cells);
       coveragePercent := "0.0" |}.
Proof.
  assert (H1 : sampleStops ≠ []) by (intros H; discriminate H).
  split; [exact H1|]. split; [vm_compute; reflexivity|].
  split; [vm_compute; reflexivity|].
  rewrite (@unmeasurable_clip_falls_back Cells
             (faultyTurf false {[ 1; 2; 3 ]}%nat) sampleIsochrones "2025"
             sampleStops sampleBoundary (4 # 1)
             (Some ({[ 0; 1; 2; 3 ]}%nat : Cells))
             ({[ 1; 2; 3 ]}%nat : Cells) H1);
    vm_compute; reflexivity.
Defined.


Lemma coveredBlocks_within :
  ∀ b, b ∈ coveredBlocks → isCandidate b = true →
    booleanIntersects (Some (b_feature b)) (Some ({[ 1; 2; 3 ]}%nat : Cells))
      = Returned true ∧
    booleanWithin (Some (b_feature b)) (Some ({[ 1; 2; 3 ]}%nat : Cells))
      = Returned true.
Proof.
  intros b Hb _. unfold coveredBlocks in Hb.
  repeat (apply elem_of_cons in Hb as [->|Hb]);
    [| | |by apply elem_of_nil in Hb];
    split; vm_compute; reflexivity.
Defined.

(** Two blocks of the city within the coverage: 130 people in 2 blocks. *)
Lemma population_of_covered_blocks_witness :
  (∀ b, b ∈ coveredBlocks → isCandidate b = true →
     booleanIntersects (Some (b_feature b)) (Some ({[ 1; 2; 3 ]}%nat : Cells))
       = Returned true ∧
     booleanWithin (Some (b_feature b)) (Some ({[ 1; 2; 3 ]}%nat : Cells))
       = Returned true) ∧
  ((populationInWalkshed (Some ({[ 1; 2; 3 ]}%nat : Cells)) coveredBlocks).1
   == candidatePopulation coveredBlocks)%Q ∧
  (populationInWalkshed (Some ({[ 1; 2; 3 ]}%nat : Cells)) coveredBlocks).2
  = length (List.filter isCandidate coveredBlocks).
Proof.
  split; [exact coveredBlocks_within|].
  exact (population_of_covered_blocks (Some ({[ 1; 2; 3 ]}%nat : Cells))
           coveredBlocks coveredBlocks_within).
Defined.

(** A call at 25:30:00 is counted with the hour from 1. *)
Lemma hour_of_stop_time_wraps_witness :
  "25" ≠ "" ∧
  forallb isDigit (list_ascii_of_string "25") = true ∧
  decimal "25" ≤ 2 ^ 53 ∧
  ∃ h, (h < 24)%nat ∧
       Z.of_nat h = decimal "25" mod 24 ∧
       hourOf ("25" ++ ":" ++ "30:00") = Some (Z.of_nat h) ∧
       numKey (hourOf ("25" ++ ":" ++ "30:00")) = toString h.
Proof.
  assert (H1 : "25" ≠ "") by (intros H; discriminate H).
  assert (H2 : decimal "25" ≤ 2 ^ 53) by (vm_compute; intros H; discriminate H).
  split; [exact H1|]. split; [reflexivity|]. split; [exact H2|].
  exact (proj2 (hour_of_stop_time_wraps "25" "30:00" H1 eq_refl) H2).
Defined.

(** The sample calendar, and a calendar whose weekday row has no start
    date. *)
Lemma selected_services_are_weekday_services_witness :
  getRelevantServiceIds 6 sampleCalendar = Some {[ "FALL"; "OPEN" ]} ∧
  (∀ id, id ∈ ({[ "FALL"; "OPEN" ]} : gset string) →
     ∃ c, c ∈ sampleCalendar ∧ activeMondayToFriday c ∧ c_service_id c = id) ∧
  getRelevantServiceIds 0 undatedCalendar = Some ∅.
Proof.
  assert (H : getRelevantServiceIds 6 sampleCalendar
              = Some {[ "FALL"; "OPEN" ]}) by (vm_compute; reflexivity).
  split; [exact H|]. split.
  - exact (proj1 (selected_services_are_weekday_services 6 sampleCalendar
                    _ H)).
  - vm_compute. reflexivity.
Defined.

(** The sample schedule under the weekday service: stop "S" has a
    profile, and a stop time at it is counted. *)
Lemma profile_iff_active_call_witness :
  size ({[ "WK" ]} : gset string) ≠ 0%nat ∧
  (∀ st, st ∈ sampleStopTimes → noBar (st_stop_id st)) ∧
  (is_Some (calculateStopFrequencies sampleStopTimes sampleTrips {[ "WK" ]}
              !! "S") ↔
   ∃ st, st ∈ sampleStopTimes ∧ st_stop_id st = "S" ∧
         isActiveCall sampleTrips {[ "WK" ]} st).
Proof.
  assert (H1 : size ({[ "WK" ]} : gset string) ≠ 0%nat)
    by (vm_compute; intros H; discriminate H).
  split; [exact H1|]. split; [exact sampleStopTimes_noBar|].
  exact (profile_iff_active_call sampleStopTimes sampleTrips {[ "WK" ]} "S"
           H1 sampleStopTimes_noBar).
Defined.
(** ** How [main] ends *)

Section MainExit.
Variable parseFloat : string → option Q.
Variable disk : string → option GtfsZip.

Lemma filter_nil_iff {A} (P : A → bool) (l : list A) :
  List.filter P l = [] ↔ ∀ x, x ∈ l → P x = false.
Proof.
  induction l as [|a l IH]; simpl.
  - split; [|done]. intros _ x Hx. by apply elem_of_nil in Hx.
  - destruct (P a) eqn:Ha.
    + split; [done|]. intros Hall. specialize (Hall a ltac:(left)). congruence.
    + rewrite IH. split.
      * intros Hall x [->|Hx]%elem_of_cons; [done|by apply Hall].
      * intros Hall x Hx. apply Hall. by right.
Qed.

(** X18. The script stops with exit code 1 exactly when the dataset is
    2027 and the future-stops file is missing or has no stop that is
    enabled with at least 4 trips in every hour from 6 to 18. For 2027
    the GTFS archives are not read: the outcome is the same whatever is
    on the disk. For another dataset the script never ends so, even when
    no archive is found. *)
Theorem main_exit_condition fuel DATASET futureFile :
  (mainMergedStops parseFloat disk fuel DATASET futureFile = Some Exit1 ↔
   DATASET = "2027" ∧
   ∀ stop, stop ∈ default [] futureFile → isEnabledFutureStop stop = false) ∧
  (DATASET = "2027" →
   ∀ parseFloat' disk' fuel',
     mainMergedStops parseFloat' disk' fuel' DATASET futureFile
     = mainMergedStops parseFloat disk fuel DATASET futureFile).
Proof.
  split.
  - unfold mainMergedStops.
    destruct (String.eqb_spec DATASET "2027") as [->|Hne].
    + unfold loadFutureStops.
      rewrite bool_decide_eq_true_2 by (unfold futureYears; left).
      destruct futureFile as [stops|]; simpl.
      * rewrite length_map.
        destruct (List.filter isEnabledFutureStop stops) as [|s l] eqn:Hf.
        -- simpl. split; [intros _|done]. split; [done|].
           by apply filter_nil_iff.
        -- simpl. split; [done|]. intros [_ Hall].
           apply filter_nil_iff in Hall. congruence.
      * split; [intros _|done]. split; [done|].
        intros stop Hstop. by apply elem_of_nil in Hstop.
    + split; [|by intros [? _]].
      by destruct (extractFeeds _ _ _ _ _ _).
  - intros -> parseFloat' disk' fuel'. reflexivity.
Qed.
End MainExit.

(** The planned stops of the sample are not all switched off: the 2027
    run does not stop; with every stop switched off it does. *)
Lemma main_exit_condition_witness :
  mainMergedStops sampleParseFloat sampleDisk 0 "2027"
    (Some [plannedStop "future_B" (Some false)]) = Some Exit1 ∧
  mainMergedStops sampleParseFloat sampleDisk 0 "2027" (Some plannedStops)
    ≠ Some Exit1.
Proof.
  split.
  - apply (proj1 (main_exit_condition sampleParseFloat sampleDisk 0 "2027"
                    (Some [plannedStop "future_B" (Some false)]))).
    split; [reflexivity|].
    intros stop Hstop. apply list_elem_of_singleton in Hstop as ->.
    reflexivity.
  - intros H. discriminate H.
Defined.
